(** * Walmart search scraper (src/main.py): model and verified properties

    The Python module is embedded function by function.  Python values that
    travel through the program (the decoded [__NEXT_DATA__] blob, previews,
    product records) are values of [json]; exceptions are an explicit
    [Raise]; the scraping session is a log of the requests handed to the
    fetch client.  Library functions the module calls ([/] and [math.ceil],
    [urlencode], [urljoin], [list.extend], subscription) are modelled after
    CPython 3.11; [json.loads], the HTML selector and the network are
    parameters. *)

From Stdlib Require Import String Ascii DecimalString.
From Stdlib Require DecimalZ DecimalPos DecimalFacts.
From Stdlib Require Import ZArith List Bool Lia Permutation SpecFloat.
Import ListNotations.
Local Open Scope Z_scope.

(** ** Python strings

    A [str] is a sequence of Unicode code points; lone surrogates are
    legal members of a [str], which matters for [urlencode]. *)

Definition pystr := list Z.

Definition code (a : ascii) : Z := Z.of_N (N_of_ascii a).

(** ASCII literal as a Python string. *)
Definition lit (s : string) : pystr := map code (list_ascii_of_string s).
Arguments lit s%_string.

Fixpoint str_eqb (a b : pystr) : bool :=
  match a, b with
  | [], [] => true
  | x :: a', y :: b' => (x =? y) && str_eqb a' b'
  | _, _ => false
  end.

(** [k in keys] for a list of strings. *)
Definition str_mem (k : pystr) (keys : list pystr) : bool :=
  existsb (str_eqb k) keys.

(** ** Exceptions and results *)

Inductive exn :=
| KeyError | IndexError | TypeError | AttributeError
| OverflowError | ValueError | ZeroDivisionError
| UnicodeEncodeError | JSONDecodeError.

Inductive pyresult (A : Type) :=
| Ok (a : A)
| Raise (e : exn).
Arguments Ok {A} a.
Arguments Raise {A} e.

Definition bind {A B} (m : pyresult A) (k : A -> pyresult B) : pyresult B :=
  match m with
  | Ok a => k a
  | Raise e => Raise e
  end.

Declare Scope py_scope.
Delimit Scope py_scope with py.
Notation "x <- m ;; k" := (bind m (fun x => k))
  (at level 61, m at next level, right associativity) : py_scope.
Local Open Scope py_scope.

Definition raises {A} (m : pyresult A) : Prop := exists e, m = Raise e.

(** ** Values

    What [json.loads] builds, which is also all the module ever handles:
    [None], [bool], [int], [float], [str], [list] and [dict] with string
    keys.  A dict keeps insertion order, so it is an association list;
    a real dict never repeats a key ([dict_wf]). *)

#[local] Unset Elimination Schemes.
Inductive json :=
| JNull
| JBool (b : bool)
| JInt (n : Z)
| JFloat (f : spec_float)
| JStr (s : pystr)
| JArr (items : list json)
| JObj (fields : list (pystr * json)).
#[local] Set Elimination Schemes.

Definition dict := list (pystr * json).

Definition keys (d : dict) : list pystr := map fst d.

Definition dict_wf (d : dict) : Prop := NoDup (keys d).

Fixpoint dict_get (k : pystr) (d : dict) : option json :=
  match d with
  | [] => None
  | (k', v) :: d' => if str_eqb k k' then Some v else dict_get k d'
  end.

(** [d[k] = v]: overwrite in place, or append a new key at the end. *)
Fixpoint dict_set (k : pystr) (v : json) (d : dict) : dict :=
  match d with
  | [] => [(k, v)]
  | (k', v') :: d' =>
      if str_eqb k k' then (k, v) :: d' else (k', v') :: dict_set k v d'
  end.

(** [v[k]] for a string key. *)
Definition getitem (v : json) (k : pystr) : pyresult json :=
  match v with
  | JObj d => match dict_get k d with
              | Some x => Ok x
              | None => Raise KeyError
              end
  | _ => Raise TypeError
  end.

(** [v[i]] for an integer index (negative indices count from the end). *)
Definition getindex (v : json) (i : Z) : pyresult json :=
  let at_index (A : Type) (l : list A) : option A :=
    let n := Z.of_nat (length l) in
    if (0 <=? i) && (i <? n) then nth_error l (Z.to_nat i)
    else if (- n <=? i) && (i <? 0) then nth_error l (Z.to_nat (n + i))
    else None in
  match v with
  | JArr l => match at_index _ l with
              | Some x => Ok x
              | None => Raise IndexError
              end
  | JStr s => match at_index _ s with
              | Some c => Ok (JStr [c])
              | None => Raise IndexError
              end
  | JObj _ => Raise KeyError
  | _ => Raise TypeError
  end.

(** [for x in v]: the elements a loop or a comprehension sees. *)
Definition py_iter (v : json) : pyresult (list json) :=
  match v with
  | JArr l => Ok l
  | JObj d => Ok (map JStr (keys d))
  | JStr s => Ok (map (fun c => JStr [c]) s)
  | _ => Raise TypeError
  end.

(** [v == s] for a string [s]: only an equal [str] compares equal. *)
Definition eq_str (v : json) (s : pystr) : bool :=
  match v with
  | JStr t => str_eqb t s
  | _ => false
  end.

(** [v != None] *)
Definition is_not_None (v : json) : bool :=
  match v with
  | JNull => false
  | _ => true
  end.

(** Truth value of [v], as [not v] tests it. *)
Definition truthy (v : json) : bool :=
  match v with
  | JNull => false
  | JBool b => b
  | JInt n => negb (n =? 0)
  | JFloat (S754_zero _) => false
  | JFloat _ => true
  | JStr s => negb (Nat.eqb (length s) 0)
  | JArr l => negb (Nat.eqb (length l) 0)
  | JObj d => negb (Nat.eqb (length d) 0)
  end.

(** [v.items()] *)
Definition py_items (v : json) : pyresult dict :=
  match v with
  | JObj d => Ok d
  | _ => Raise AttributeError
  end.

(** [target.extend]: looking the method up fails on anything but a list;
    the bound method then appends what iterating its argument yields. *)
Definition py_extend (target : json) : pyresult (json -> pyresult json) :=
  match target with
  | JArr l => Ok (fun arg => more <- py_iter arg;; Ok (JArr (l ++ more)))
  | _ => Raise AttributeError
  end.

(** A chain of subscripts [v[s1][s2]...]. *)
Inductive subscript :=
| Key (k : pystr)
| Index (i : Z).

Definition getsub (v : json) (s : subscript) : pyresult json :=
  match s with
  | Key k => getitem v k
  | Index i => getindex v i
  end.

Fixpoint getpath (v : json) (path : list subscript) : pyresult json :=
  match path with
  | [] => Ok v
  | s :: rest => x <- getsub v s;; getpath x rest
  end.

(** ** Responses

    [result.selector.xpath('//script[@id="__NEXT_DATA__"]/text()').get()]
    is the text of the first matching script element, or [None] when the
    document has none; that is all the module reads from a document. *)

Record ScrapeApiResponse := {
  context_url : pystr;
  next_data_text : option pystr
}.

(** [ScrapeConfig(url, country=..., asp=...)] *)
Record ScrapeConfig := {
  url : pystr;
  country : pystr;
  asp : bool
}.

Definition wanted_product_keys : list pystr :=
  [ lit "availabilityStatus"; lit "averageRating"; lit "brand"; lit "id";
    lit "imageInfo"; lit "manufacturerName"; lit "name"; lit "orderLimit";
    lit "orderMinLimit"; lit "priceInfo"; lit "shortDescription"; lit "type" ].

(** [[r for r in results if r["__typename"] == "Product"]] over the
    elements the iteration yields: the first failing subscript aborts. *)
Fixpoint keep_products (results : list json) : pyresult (list json) :=
  match results with
  | [] => Ok []
  | r :: rest =>
      t <- getitem r (lit "__typename");;
      kept <- keep_products rest;;
      Ok (if eq_str t (lit "Product") then r :: kept else kept)
  end.

(** [{k: v for k, v in items if k in wanted_product_keys}]: the test,
    one insertion, and the whole comprehension. *)
Definition wanted (kv : pystr * json) : bool :=
  str_mem (fst kv) wanted_product_keys.

Definition keep_step (acc : dict) (kv : pystr * json) : dict :=
  if wanted kv then dict_set (fst kv) (snd kv) acc else acc.

Definition keep_wanted (items : dict) : dict :=
  fold_left keep_step items [].

(** [["props"]["pageProps"]["initialData"]["searchResult"]["itemStacks"][0]] *)
Definition first_stack_path : list subscript :=
  [ Key (lit "props"); Key (lit "pageProps"); Key (lit "initialData");
    Key (lit "searchResult"); Key (lit "itemStacks"); Index 0 ].

Definition count_path : list subscript := first_stack_path ++ [Key (lit "count")].
Definition items_path : list subscript := first_stack_path ++ [Key (lit "items")].

(** [["props"]["pageProps"]["initialData"]["data"]] *)
Definition page_data_path : list subscript :=
  [ Key (lit "props"); Key (lit "pageProps"); Key (lit "initialData");
    Key (lit "data") ].

Definition product_path : list subscript := page_data_path ++ [Key (lit "product")].
Definition reviews_path : list subscript := page_data_path ++ [Key (lit "reviews")].

(** Library code that is called but not modelled: [json.loads], and the
    two netloc validators of [urllib.parse] ([_check_bracketed_netloc]
    rests on [ipaddress]; the second half of [_checknetloc], reached only
    for a netloc with non-ASCII characters, on [unicodedata]). *)
Record PyLib := {
  json_loads : pystr -> pyresult json;
  check_bracketed_netloc : pystr -> pyresult unit;
  checknetloc_nfkc : pystr -> pyresult unit
}.

Section Parsers.

Variable lib : PyLib.

(** [parse_search] (main.py 23-37); logging is not modelled. *)
Definition parse_search (result : ScrapeApiResponse) : pyresult (json * json) :=
  match next_data_text result with
  | Some text =>
      data <- json_loads lib text;;
      total_results <- getpath data count_path;;
      results <- getpath data items_path;;
      elements <- py_iter results;;
      results <- keep_products elements;;
      Ok (JArr results, total_results)
  | None => Ok (JObj [], JInt 0)
  end.

(** [parse_product] (main.py 58-80); falling off the end returns [None]. *)
Definition parse_product (result : ScrapeApiResponse) : pyresult json :=
  match next_data_text result with
  | Some text =>
      data <- json_loads lib text;;
      _product_raw <- getpath data product_path;;
      items <- py_items _product_raw;;
      let product := keep_wanted items in
      reviews_raw <- getpath data reviews_path;;
      Ok (JObj [ (lit "product", JObj product); (lit "reviews", reviews_raw) ])
  | None => Ok JNull
  end.

End Parsers.

(** ** URL builder: [urlencode] and [create_search_url]

    [urlencode] quotes with [quote_plus]: the string is encoded as UTF-8
    (strict: a surrogate code point raises [UnicodeEncodeError]), bytes in
    the always-safe set stand for themselves, a space becomes [+], any
    other byte becomes [%XX]. *)

Definition is_surrogate (c : Z) : bool := (0xD800 <=? c) && (c <=? 0xDFFF).

Definition utf8_char (c : Z) : pyresult (list Z) :=
  if c <? 0x80 then Ok [c]
  else if c <? 0x800 then
    Ok [Z.lor 0xC0 (Z.shiftr c 6); Z.lor 0x80 (Z.land c 0x3F)]
  else if c <? 0x10000 then
    if is_surrogate c then Raise UnicodeEncodeError
    else Ok [Z.lor 0xE0 (Z.shiftr c 12);
             Z.lor 0x80 (Z.land (Z.shiftr c 6) 0x3F);
             Z.lor 0x80 (Z.land c 0x3F)]
  else
    Ok [Z.lor 0xF0 (Z.shiftr c 18);
        Z.lor 0x80 (Z.land (Z.shiftr c 12) 0x3F);
        Z.lor 0x80 (Z.land (Z.shiftr c 6) 0x3F);
        Z.lor 0x80 (Z.land c 0x3F)].

(** [s.encode('utf-8', 'strict')] *)
Fixpoint utf8_encode (s : pystr) : pyresult (list Z) :=
  match s with
  | [] => Ok []
  | c :: rest =>
      bs <- utf8_char c;;
      more <- utf8_encode rest;;
      Ok (bs ++ more)
  end.

Definition in_range (lo hi : ascii) (c : Z) : bool :=
  (code lo <=? c) && (c <=? code hi).

Definition is_upper := in_range "A" "Z".
Definition is_lower := in_range "a" "z".
Definition is_digit := in_range "0" "9".

Definition char_in (c : Z) (set : pystr) : bool := existsb (Z.eqb c) set.

(** [_ALWAYS_SAFE] *)
Definition always_safe (b : Z) : bool :=
  is_upper b || is_lower b || is_digit b || char_in b (lit "_.-~").

Definition hex_digit (d : Z) : Z :=
  if d <? 10 then code "0" + d else code "A" + (d - 10).

(** The quoter of [quote_from_bytes]: [chr(b)] or ['%{:02X}'.format(b)]. *)
Definition quoter (safe : pystr) (b : Z) : pystr :=
  if always_safe b || char_in b safe then [b]
  else [code "%"; hex_digit (b / 16); hex_digit (b mod 16)].

Definition quote (s safe : pystr) : pyresult pystr :=
  bs <- utf8_encode s;;
  Ok (flat_map (quoter safe) bs).

(** [s.replace(' ', '+')] *)
Definition spaces_to_plus (s : pystr) : pystr :=
  map (fun c => if c =? code " " then code "+" else c) s.

Definition quote_plus (s safe : pystr) : pyresult pystr :=
  if negb (char_in (code " ") s) then quote s safe
  else
    q <- quote s (safe ++ lit " ");;
    Ok (spaces_to_plus q).

(** Values of the query mapping, and [str(v)] on them.  [str] of an int
    writes it in decimal, and raises [ValueError] when that takes more
    digits than [sys.get_int_max_str_digits()] allows: 4300 unless the
    interpreter is told otherwise, which the module does not do.  The
    sign is not counted. *)
Inductive qvalue :=
| QStr (s : pystr)
| QInt (n : Z).

Definition decimal (n : Z) : pystr :=
  lit (NilEmpty.string_of_int (Z.to_int n)).

Definition int_max_str_digits : Z := 4300.

Definition int_digits (n : Z) : Z := Z.of_nat (length (decimal (Z.abs n))).

Definition str_of_int (n : Z) : pyresult pystr :=
  if int_max_str_digits <? int_digits n then Raise ValueError
  else Ok (decimal n).

Definition py_str (v : qvalue) : pyresult pystr :=
  match v with
  | QStr s => Ok s
  | QInt n => str_of_int n
  end.

(** ['&'.join(parts)] and friends *)
Fixpoint join (sep : pystr) (parts : list pystr) : pystr :=
  match parts with
  | [] => []
  | [p] => p
  | p :: rest => p ++ sep ++ join sep rest
  end.

Fixpoint urlencode_pairs (query : list (pystr * qvalue)) : pyresult (list pystr) :=
  match query with
  | [] => Ok []
  | (k, v) :: rest =>
      k' <- quote_plus k [];;
      s <- py_str v;;
      v' <- quote_plus s [];;
      more <- urlencode_pairs rest;;
      Ok ((k' ++ lit "=" ++ v') :: more)
  end.

Definition urlencode (query : list (pystr * qvalue)) : pyresult pystr :=
  l <- urlencode_pairs query;;
  Ok (join (lit "&") l).

Definition default_page : Z := 1.
Definition default_sort : pystr := lit "price_low".

(** [create_search_url] (main.py 11-20); an omitted keyword argument is
    [None] here and takes its default. *)
Definition create_search_url (query : pystr) (page : option Z)
    (sort : option pystr) : pyresult pystr :=
  let page := match page with Some p => p | None => default_page end in
  let sort := match sort with Some s => s | None => default_sort end in
  enc <- urlencode [ (lit "q", QStr query);
                     (lit "sort", QStr sort);
                     (lit "page", QInt page);
                     (lit "affinityOverride", QStr (lit "default")) ];;
  Ok (lit "https://www.walmart.com/search?" ++ enc).

(** ** [total_items / 40] and [math.ceil]

    True division yields the binary64 nearest to the exact quotient
    ([SFdiv] rounds to nearest even from the exact operands), and raises
    [OverflowError] when an int quotient has no finite double. *)

Definition b64_div : spec_float -> spec_float -> spec_float := SFdiv 53 1024.

(** An int as an exact operand of the division. *)
Definition exact_int (n : Z) : spec_float :=
  match n with
  | Z0 => S754_zero false
  | Zpos p => S754_finite false p 0
  | Zneg p => S754_finite true p 0
  end.

Definition int_true_divide (a b : Z) : pyresult spec_float :=
  if b =? 0 then Raise ZeroDivisionError
  else match b64_div (exact_int a) (exact_int b) with
       | S754_infinity _ => Raise OverflowError
       | q => Ok q
       end.

(** [v / d] for a value [v] and an int literal [d]. *)
Definition py_truediv (v : json) (d : Z) : pyresult spec_float :=
  match v with
  | JInt n => int_true_divide n d
  | JBool b => int_true_divide (if b then 1 else 0) d
  | JFloat f =>
      if d =? 0 then Raise ZeroDivisionError
      else Ok (b64_div f (binary_normalize 53 1024 d 0 false))
  | _ => Raise TypeError
  end.

Definition math_ceil (x : spec_float) : pyresult Z :=
  match x with
  | S754_zero _ => Ok 0
  | S754_finite s m e =>
      let n := if s then Zneg m else Zpos m in
      Ok (if 0 <=? e then n * 2 ^ e else - ((- n) / 2 ^ (- e)))
  | S754_infinity _ => Raise OverflowError
  | S754_nan => Raise ValueError
  end.

(** [range(a, b)] *)
Definition py_range (a b : Z) : list Z :=
  map (fun k => a + Z.of_nat k) (seq 0 (Z.to_nat (b - a))).

(** ** URL resolution: [urllib.parse.urljoin] *)

(** [s.find(c)] *)
Fixpoint find (c : Z) (s : pystr) : option nat :=
  match s with
  | [] => None
  | x :: rest => if x =? c then Some O else option_map S (find c rest)
  end.

(** [s.rfind(c)] *)
Fixpoint rfind (c : Z) (s : pystr) : option nat :=
  match s with
  | [] => None
  | x :: rest =>
      match rfind c rest with
      | Some i => Some (S i)
      | None => if x =? c then Some O else None
      end
  end.

(** [s.split(c, 1)] when [c] occurs in [s]; [(s, '')] otherwise. *)
Definition split_once (c : Z) (s : pystr) : pystr * pystr :=
  match find c s with
  | Some i => (firstn i s, skipn (S i) s)
  | None => (s, [])
  end.

(** [if c in url: url, part = url.split(c, 1)], with [part = ''] otherwise. *)
Definition split_at (c : Z) (url : pystr) : pystr * pystr :=
  if char_in c url then split_once c url else (url, []).

(** [s.split(c)] *)
Fixpoint split (c : Z) (s : pystr) : list pystr :=
  match s with
  | [] => [[]]
  | x :: rest =>
      match split c rest with
      | part :: parts => if x =? c then [] :: part :: parts
                         else (x :: part) :: parts
      | [] => [[x]]
      end
  end.

Definition is_c0_or_space (c : Z) : bool := (0 <=? c) && (c <=? 0x20).

Fixpoint lstrip_c0 (s : pystr) : pystr :=
  match s with
  | [] => []
  | c :: rest => if is_c0_or_space c then lstrip_c0 rest else s
  end.

Definition strip_c0 (s : pystr) : pystr :=
  rev (lstrip_c0 (rev (lstrip_c0 s))).

(** Removal of [_UNSAFE_URL_BYTES_TO_REMOVE]. *)
Definition remove_unsafe (s : pystr) : pystr :=
  filter (fun c => negb (char_in c [9; 13; 10])) s.

Definition scheme_char (c : Z) : bool :=
  is_lower c || is_upper c || is_digit c || char_in c (lit "+-.").

Definition is_ascii_alpha (c : Z) : bool := is_lower c || is_upper c.

Definition is_ascii (s : pystr) : bool :=
  forallb (fun c => (0 <=? c) && (c <? 0x80)) s.

(** [s.lower()], on the ASCII strings it is applied to. *)
Definition lower (s : pystr) : pystr :=
  map (fun c => if is_upper c then c + 32 else c) s.

Definition starts_with (p s : pystr) : bool :=
  str_eqb (firstn (length p) s) p.

Definition uses_relative : list pystr :=
  [ lit ""; lit "ftp"; lit "http"; lit "gopher"; lit "nntp"; lit "imap";
    lit "wais"; lit "file"; lit "https"; lit "shttp"; lit "mms";
    lit "prospero"; lit "rtsp"; lit "rtspu"; lit "sftp";
    lit "svn"; lit "svn+ssh"; lit "ws"; lit "wss" ].

Definition uses_netloc : list pystr :=
  [ lit ""; lit "ftp"; lit "http"; lit "gopher"; lit "nntp"; lit "telnet";
    lit "imap"; lit "wais"; lit "file"; lit "mms"; lit "https"; lit "shttp";
    lit "snews"; lit "prospero"; lit "rtsp"; lit "rtspu"; lit "rsync";
    lit "svn"; lit "svn+ssh"; lit "sftp"; lit "nfs"; lit "git"; lit "git+ssh";
    lit "ws"; lit "wss" ].

Definition uses_params : list pystr :=
  [ lit ""; lit "ftp"; lit "hdl"; lit "prospero"; lit "http"; lit "imap";
    lit "https"; lit "shttp"; lit "rtsp"; lit "rtspu"; lit "sip"; lit "sips";
    lit "mms"; lit "sftp"; lit "tel" ].

Record ParseResult := {
  p_scheme : pystr;
  p_netloc : pystr;
  p_path : pystr;
  p_params : pystr;
  p_query : pystr;
  p_fragment : pystr
}.

(** [_splitnetloc(url, 2)]: the netloc runs from index 2 to the first of
    [/], [?], [#]. *)
Fixpoint until_delim (s : pystr) : pystr * pystr :=
  match s with
  | [] => ([], [])
  | c :: rest =>
      if char_in c (lit "/?#") then ([], s)
      else let '(a, b) := until_delim rest in (c :: a, b)
  end.

Definition _splitnetloc (url : pystr) : pystr * pystr :=
  until_delim (skipn 2 url).

(** [_splitparams] *)
Definition _splitparams (url : pystr) : pystr * pystr :=
  let cut (i : nat) := (firstn i url, skipn (S i) url) in
  match rfind (code "/") url with
  | Some slash =>
      match find (code ";") (skipn slash url) with
      | Some j => cut (slash + j)%nat
      | None => (url, [])
      end
  | None =>
      match find (code ";") url with
      | Some i => cut i
      | None => (removelast url, url)
      end
  end.

Section UrlParse.

Variable lib : PyLib.

Definition _checknetloc (netloc : pystr) : pyresult unit :=
  if Nat.eqb (length netloc) 0 || is_ascii netloc then Ok tt
  else checknetloc_nfkc lib netloc.

(** The scheme step of [urlsplit]: a leading [name:] is taken as the
    scheme when [name] starts with an ASCII letter and consists of scheme
    characters; otherwise the default stays. *)
Definition split_scheme (url scheme : pystr) : pystr * pystr :=
  match find (code ":") url with
  | Some i =>
      if Nat.ltb 0 i && is_ascii_alpha (hd 0 url)
         && forallb scheme_char (firstn i url)
      then (lower (firstn i url), skipn (S i) url)
      else (scheme, url)
  | None => (scheme, url)
  end.

(** The netloc step of [urlsplit], with its bracket checks. *)
Definition split_netloc (url : pystr) : pyresult (pystr * pystr) :=
  if starts_with (lit "//") url then
    let '(netloc, rest) := _splitnetloc url in
    let open := char_in (code "[") netloc in
    let close := char_in (code "]") netloc in
    if (open && negb close) || (close && negb open)
    then Raise ValueError
    else
      _ <- (if open && close then check_bracketed_netloc lib netloc
            else Ok tt);;
      Ok (netloc, rest)
  else Ok ([], url).

(** [urlsplit(url, scheme)], with fragments allowed. *)
Definition urlsplit (url scheme : pystr)
  : pyresult (pystr * pystr * pystr * pystr * pystr) :=
  let url := lstrip_c0 url in
  let scheme := strip_c0 scheme in
  let url := remove_unsafe url in
  let scheme := remove_unsafe scheme in
  let '(scheme, url) := split_scheme url scheme in
  parts <- split_netloc url;;
  let '(netloc, url) := parts in
  let '(url, fragment) := split_at (code "#") url in
  let '(url, query) := split_at (code "?") url in
  _ <- _checknetloc netloc;;
  Ok (scheme, netloc, url, query, fragment).

Definition urlparse (url scheme : pystr) : pyresult ParseResult :=
  r <- urlsplit url scheme;;
  let '(scheme, netloc, url, query, fragment) := r in
  let '(url, params) :=
    if str_mem scheme uses_params && char_in (code ";") url
    then _splitparams url else (url, []) in
  Ok {| p_scheme := scheme; p_netloc := netloc; p_path := url;
        p_params := params; p_query := query; p_fragment := fragment |}.

End UrlParse.

Definition nonempty (s : pystr) : bool := negb (Nat.eqb (length s) 0).

Definition urlunsplit (scheme netloc url query fragment : pystr) : pystr :=
  let url :=
    if nonempty netloc
       || (nonempty scheme && str_mem scheme uses_netloc
           && negb (starts_with (lit "//") url))
    then
      let url := if nonempty url && negb (starts_with (lit "/") url)
                 then lit "/" ++ url else url in
      lit "//" ++ netloc ++ url
    else url in
  let url := if nonempty scheme then scheme ++ lit ":" ++ url else url in
  let url := if nonempty query then url ++ lit "?" ++ query else url in
  let url := if nonempty fragment then url ++ lit "#" ++ fragment else url in
  url.

Definition urlunparse (r : ParseResult) : pystr :=
  let url := if nonempty (p_params r)
             then p_path r ++ lit ";" ++ p_params r else p_path r in
  urlunsplit (p_scheme r) (p_netloc r) url (p_query r) (p_fragment r).

(** [segments[1:-1] = filter(None, segments[1:-1])] *)
Definition drop_inner_empties (segments : list pystr) : list pystr :=
  match segments with
  | [] => []
  | [x] => [x]
  | x :: rest => x :: filter nonempty (removelast rest) ++ [last rest []]
  end.

(** The dot-segment loop of [urljoin]; [resolved] is kept reversed. *)
Fixpoint resolve_segments (segments resolved : list pystr) : list pystr :=
  match segments with
  | [] => rev resolved
  | seg :: rest =>
      if str_eqb seg (lit "..") then resolve_segments rest (tl resolved)
      else if str_eqb seg (lit ".") then resolve_segments rest resolved
      else resolve_segments rest (seg :: resolved)
  end.

Section UrlJoin.

Variable lib : PyLib.

(** [urljoin(base, url)] on two strings. *)
Definition urljoin (base url : pystr) : pyresult pystr :=
  if negb (nonempty base) then Ok url
  else if negb (nonempty url) then Ok base
  else
    b <- urlparse lib base [];;
    u <- urlparse lib url (p_scheme b);;
    let scheme := p_scheme u in
    if negb (str_eqb scheme (p_scheme b)) || negb (str_mem scheme uses_relative)
    then Ok url
    else if str_mem scheme uses_netloc && nonempty (p_netloc u)
    then Ok (urlunparse u)
    else
      let netloc := if str_mem scheme uses_netloc then p_netloc b
                    else p_netloc u in
      let path := p_path u in
      let params := p_params u in
      if negb (nonempty path) && negb (nonempty params) then
        let query := if negb (nonempty (p_query u)) then p_query b
                     else p_query u in
        Ok (urlunparse {| p_scheme := scheme; p_netloc := netloc;
                          p_path := p_path b; p_params := p_params b;
                          p_query := query; p_fragment := p_fragment u |})
      else
        let base_parts := split (code "/") (p_path b) in
        let base_parts :=
          if nonempty (last base_parts []) then removelast base_parts
          else base_parts in
        let segments :=
          if starts_with (lit "/") path then split (code "/") path
          else drop_inner_empties (base_parts ++ split (code "/") path) in
        let resolved_path := resolve_segments segments [] in
        let resolved_path :=
          if str_mem (last segments []) [lit "."; lit ".."]
          then resolved_path ++ [[]] else resolved_path in
        let joined := join (lit "/") resolved_path in
        Ok (urlunparse {| p_scheme := scheme; p_netloc := netloc;
                          p_path := if nonempty joined then joined else lit "/";
                          p_params := params; p_query := p_query u;
                          p_fragment := p_fragment u |}).

(** [urljoin(base, v)] for the value found under ["canonicalUrl"]:
    a falsy value gives the base back, any other non-string is rejected
    by [_coerce_args]. *)
Definition urljoin_value (base : pystr) (v : json) : pyresult pystr :=
  if negb (truthy v) then Ok base
  else match v with
       | JStr s => urljoin base s
       | _ => Raise TypeError
       end.

End UrlJoin.

(** ** The scraping session

    The fetch client is external: [async_scrape] delivers the document of
    one request, [concurrent_scrape] delivers the documents of a batch in
    arrival order.  A computation threads the log of the requests handed
    to the client so far and may end in an exception. *)

Record ScrapflyClient := {
  async_scrape : ScrapeConfig -> ScrapeApiResponse;
  concurrent_scrape : list ScrapeConfig -> list ScrapeApiResponse
}.

Definition io (A : Type) : Type :=
  list ScrapeConfig -> list ScrapeConfig * pyresult A.

Definition io_bind {A B} (m : io A) (k : A -> io B) : io B :=
  fun log =>
    match m log with
    | (log', Ok a) => k a log'
    | (log', Raise e) => (log', Raise e)
    end.

(** A pure step: the log is untouched. *)
Definition lift {A} (r : pyresult A) : io A := fun log => (log, r).

Definition await_scrape (session : ScrapflyClient) (c : ScrapeConfig)
  : io ScrapeApiResponse :=
  fun log => (log ++ [c], Ok (async_scrape session c)).

Definition await_concurrent (session : ScrapflyClient) (cs : list ScrapeConfig)
  : io (list ScrapeApiResponse) :=
  fun log => (log ++ cs, Ok (concurrent_scrape session cs)).

Notation "x <~ m ;; k" := (io_bind m (fun x => k))
  (at level 61, m at next level, right associativity) : py_scope.

(** Comprehension over a list with a body that may raise. *)
Fixpoint map_py {A B} (f : A -> pyresult B) (l : list A) : pyresult (list B) :=
  match l with
  | [] => Ok []
  | a :: rest => b <- f a;; bs <- map_py f rest;; Ok (b :: bs)
  end.

(** A [for] loop updating one variable, with a body that may raise. *)
Fixpoint for_each {A S} (body : S -> A -> pyresult S) (l : list A) (s : S)
  : pyresult S :=
  match l with
  | [] => Ok s
  | a :: rest => s' <- body s a;; for_each body rest s'
  end.

(** [ScrapeConfig(url, country="US", asp=True)] *)
Definition scrape_config (u : pystr) : ScrapeConfig :=
  {| url := u; country := lit "US"; asp := true |}.

Definition base_url : pystr := lit "https://www.walmart.com/".

Section Orchestrator.

Variable lib : PyLib.

(** [previews.extend(parse_search(result)[0])]: the method is looked
    up before its argument is evaluated. *)
Definition extend_previews (previews : json) (result : ScrapeApiResponse)
  : pyresult json :=
  extend <- py_extend previews;;
  page <- parse_search lib result;;
  extend (fst page).

(** The body of the loop of [_scrape_products_by_url]. *)
Definition append_product (results : list json) (result : ScrapeApiResponse)
  : pyresult (list json) :=
  product <- parse_product lib result;;
  Ok (if is_not_None product then results ++ [product] else results).

(** [urljoin("https://www.walmart.com/", product_preview["canonicalUrl"])] *)
Definition product_url (product_preview : json) : pyresult pystr :=
  canonical <- getitem product_preview (lit "canonicalUrl");;
  urljoin_value lib base_url canonical.

(** [discover_walmart] (main.py 40-55) *)
Definition discover_walmart (search : pystr) (session : ScrapflyClient)
  : io json :=
  first_url <~ lift (create_search_url search None None);;
  first_page <~ await_scrape session (scrape_config first_url);;
  parsed <~ lift (parse_search lib first_page);;
  let '(previews, total_items) := parsed in
  quotient <~ lift (py_truediv total_items 40);;
  max_page <~ lift (math_ceil quotient);;
  let max_page := if 25 <? max_page then 25 else max_page in
  other_page_urls <~
    lift (map_py (fun i => create_search_url search (Some i) None)
                 (py_range 2 (max_page + 1)));;
  results <~ await_concurrent session (map scrape_config other_page_urls);;
  previews <~ lift (for_each extend_previews results previews);;
  lift (Ok previews).

(** [_scrape_products_by_url] (main.py 83-91) *)
Definition _scrape_products_by_url (urls : list pystr)
    (session : ScrapflyClient) : io (list json) :=
  fetched <~ await_concurrent session (map scrape_config urls);;
  lift (for_each append_product fetched []).

(** [scrape_walmart] (main.py 94-100) *)
Definition scrape_walmart (search : pystr) (session : ScrapflyClient)
  : io (list json) :=
  search_results <~ discover_walmart search session;;
  product_urls <~
    lift (previews <- py_iter search_results;; map_py product_url previews);;
  _scrape_products_by_url product_urls session.

End Orchestrator.

(** ** Notions used to state the properties *)

(** The type discriminator of a search entry, when it has one. *)
Definition discriminator (v : json) : option json :=
  match v with
  | JObj d => dict_get (lit "__typename") d
  | _ => None
  end.

Definition typed_product (v : json) : bool :=
  match discriminator v with
  | Some t => eq_str t (lit "Product")
  | None => false
  end.

(** [missing_field v path]: walking [path] from [v], every subscript
    succeeds up to a key that the object reached does not have, or up to
    an index past the end of the list reached. *)
Inductive missing_field : json -> list subscript -> Prop :=
| missing_key d k rest :
    dict_get k d = None -> missing_field (JObj d) (Key k :: rest)
| missing_index l i rest :
    (Z.of_nat (length l) <= i \/ i < - Z.of_nat (length l)) ->
    missing_field (JArr l) (Index i :: rest)
| missing_below v s x rest :
    getsub v s = Ok x -> missing_field x rest -> missing_field v (s :: rest).

(** Exact ceiling of [n / d], and the page bound the specification names. *)
Definition ceil_div (n d : Z) : Z := - ((- n) / d).

Definition max_page_of (n : Z) : Z := Z.min (ceil_div n 40) 25.

(** [ceil_agrees n]: on [n], float division followed by [math.ceil]
    gives the exact ceiling. *)
Definition ceil_agrees (n : Z) : bool :=
  match int_true_divide n 40 with
  | Ok q => match math_ceil q with
            | Ok c => c =? ceil_div n 40
            | Raise _ => false
            end
  | Raise _ => false
  end.

(** A session that serves fixed documents: a batch yields, in some
    order, the documents the single requests would yield. *)
Definition delivers (session : ScrapflyClient) : Prop :=
  forall cs, Permutation (concurrent_scrape session cs)
                         (map (async_scrape session) cs).

(** Strings that UTF-8 can encode: code points of the Unicode range
    outside the surrogate block. *)
Definition scalar_value (c : Z) : Prop :=
  0 <= c < 0x110000 /\ is_surrogate c = false.

Definition encodable (s : pystr) : Prop := Forall scalar_value s.

(** Decoding of a quoted query component back to bytes: [+] is a space,
    [%XX] is the byte with that hexadecimal code. *)
Definition hex_value (c : Z) : option Z :=
  if is_digit c then Some (c - code "0")
  else if in_range "A" "F" c then Some (c - code "A" + 10)
  else if in_range "a" "f" c then Some (c - code "a" + 10)
  else None.

Fixpoint unquote_plus (s : pystr) : option (list Z) :=
  match s with
  | [] => Some []
  | c :: rest =>
      if c =? code "%" then
        match rest with
        | h :: l :: rest' =>
            match hex_value h, hex_value l, unquote_plus rest' with
            | Some x, Some y, Some bs => Some ((16 * x + y) :: bs)
            | _, _, _ => None
            end
        | _ => None
        end
      else
        match unquote_plus rest with
        | Some bs => Some ((if c =? code "+" then code " " else c) :: bs)
        | None => None
        end
  end.

(** Characters a quoted component may contain. *)
Definition query_safe (c : Z) : bool :=
  always_safe c || char_in c (lit "%+").

(** The search URL of page [i] for a query whose quoted form is [enc]. *)
Definition page_url (enc : pystr) (i : Z) : pystr :=
  lit "https://www.walmart.com/search?q=" ++ enc
  ++ lit "&sort=price_low&page=" ++ decimal i
  ++ lit "&affinityOverride=default".

(** Whether a document carries the [__NEXT_DATA__] blob. *)
Definition has_blob (r : ScrapeApiResponse) : bool :=
  match next_data_text r with
  | Some _ => true
  | None => false
  end.

(** The records a list of product pages contributes, in list order. *)
Definition records_of (lib : PyLib) (pages : list ScrapeApiResponse) : list json :=
  flat_map (fun r => match parse_product lib r with
                     | Ok v => if is_not_None v then [v] else []
                     | Raise _ => []
                     end) pages.

(** The two kinds of canonical URL.  No character of either is a tab or
    a line break, which [urlsplit] would drop.  A path character is
    moreover none of the delimiters [?], [#], [;]; a query character is
    not [#]. *)
Definition kept_char (c : Z) : bool := negb (char_in c [9; 13; 10]).

Definition plain_char (c : Z) : bool :=
  kept_char c && negb (char_in c (lit "?#;")).

Definition query_char (c : Z) : bool := kept_char c && negb (c =? code "#").

(** An optional, non-empty query and fragment, and how they are written
    after the path. *)
Definition valid_query (q : option pystr) : bool :=
  match q with
  | Some s => nonempty s && forallb query_char s
  | None => true
  end.

Definition valid_fragment (f : option pystr) : bool :=
  match f with
  | Some s => nonempty s && forallb kept_char s
  | None => true
  end.

Definition suffix (mark : string) (part : option pystr) : pystr :=
  match part with
  | Some s => lit mark ++ s
  | None => []
  end.

Definition part_or_empty (part : option pystr) : pystr :=
  match part with
  | Some s => s
  | None => []
  end.

Definition dot_segment (s : pystr) : bool := str_mem s [lit "."; lit ".."].

(** The path of a site-relative canonical URL: an absolute path (one
    leading slash, not two) of path characters, without [.] or [..]
    segments. *)
Definition site_relative (p : pystr) : bool :=
  starts_with (lit "/") p && negb (starts_with (lit "//") p)
  && forallb plain_char p
  && forallb (fun s => negb (dot_segment s)) (split (code "/") p).

(** The components of an absolute URL [scheme://netloc/path]: a
    lower-case scheme name, a non-empty authority of printable ASCII
    without delimiters or brackets, and an empty or absolute path of
    path characters. *)
Definition scheme_name_char (c : Z) : bool :=
  is_lower c || is_digit c || char_in c (lit "+-.").

Definition scheme_name (s : pystr) : bool :=
  is_lower (hd 0 s) && forallb scheme_name_char s.

Definition authority (n : pystr) : bool :=
  nonempty n
  && forallb (fun c => (0x20 <? c) && (c <? 0x80)
                       && negb (char_in c (lit "/?#[]"))) n.

Definition absolute_path (p : pystr) : bool :=
  (negb (nonempty p) || starts_with (lit "/") p) && forallb plain_char p.

(** The shapes one byte takes in a quoted component. *)
Definition quoted_byte (b : Z) (t : pystr) : Prop :=
  (t = [b] /\ always_safe b = true)
  \/ (t = [code "+"] /\ b = code " ")
  \/ t = [code "%"; hex_digit (b / 16); hex_digit (b mod 16)].

(** ** Sample documents

    A small canned site: the search for "widgets" reports 1050 results
    and lists two products around an advertisement; the first product
    page carries a blob, the second does not.  Every other request gets
    a document without blob.  Batches are delivered last request first. *)
Module Sample.

Definition nest (path : list string) (v : json) : json :=
  fold_right (fun k inner => JObj [(lit k, inner)]) v path.

Definition entry (typename canonical : string) : json :=
  JObj [ (lit "__typename", JStr (lit typename));
         (lit "canonicalUrl", JStr (lit canonical)) ].

Definition product_a : json := entry "Product" "/ip/anvil/1".
Definition advert : json := entry "AdPlaceholder" "/ad/7".
Definition product_b : json := entry "Product" "/ip/bolt/2".

Definition search_doc (count : json) : json :=
  nest ["props"; "pageProps"; "initialData"; "searchResult"]%string
    (JObj [ (lit "itemStacks",
             JArr [ JObj [ (lit "count", count);
                           (lit "items", JArr [product_a; advert; product_b]) ];
                    JObj [ (lit "count", JInt 3); (lit "items", JArr []) ] ]) ]).

Definition raw_product : dict :=
  [ (lit "id", JStr (lit "1")); (lit "name", JStr (lit "Anvil"));
    (lit "usItemId", JStr (lit "551")); (lit "brand", JStr (lit "Acme"));
    (lit "sellerId", JInt 9);
    (lit "priceInfo", JObj [(lit "price", JInt 25)]) ].

Definition reviews : json :=
  JObj [ (lit "totalReviewCount", JInt 2); (lit "customerReviews", JArr []) ].

Definition product_doc : json :=
  nest ["props"; "pageProps"; "initialData"; "data"]%string
    (JObj [ (lit "product", JObj raw_product); (lit "reviews", reviews) ]).

(** A blob that stops after [props]. *)
Definition truncated_doc : json := nest ["props"]%string (JObj []).

Definition loads (huge : bool) (text : pystr) : pyresult json :=
  if str_eqb text (lit "search") then
    Ok (search_doc (JInt (if huge then 40 * 2 ^ 1024 else 1050)))
  else if str_eqb text (lit "anvil") then Ok product_doc
  else if str_eqb text (lit "truncated") then Ok truncated_doc
  else Raise JSONDecodeError.

Definition lib : PyLib :=
  {| json_loads := loads false;
     check_bracketed_netloc := fun _ => Ok tt;
     checknetloc_nfkc := fun _ => Ok tt |}.

(** The same library, with a first page that reports [40 * 2 ^ 1024]
    results. *)
Definition huge_lib : PyLib :=
  {| json_loads := loads true;
     check_bracketed_netloc := fun _ => Ok tt;
     checknetloc_nfkc := fun _ => Ok tt |}.

Definition page (u : pystr) (text : option string) : ScrapeApiResponse :=
  {| context_url := u; next_data_text := option_map lit text |}.

Definition serve (c : ScrapeConfig) : ScrapeApiResponse :=
  let u := url c in
  if str_eqb u (page_url (lit "widgets") 1) then page u (Some "search"%string)
  else if str_eqb u (lit "https://www.walmart.com/ip/anvil/1")
  then page u (Some "anvil"%string)
  else if str_eqb u (lit "https://www.walmart.com/broken")
  then page u (Some "truncated"%string)
  else page u None.

Definition session : ScrapflyClient :=
  {| async_scrape := serve;
     concurrent_scrape := fun cs => rev (map serve cs) |}.

Definition search_page : ScrapeApiResponse :=
  serve (scrape_config (page_url (lit "widgets") 1)).
Definition anvil_page : ScrapeApiResponse :=
  serve (scrape_config (lit "https://www.walmart.com/ip/anvil/1")).
Definition bolt_page : ScrapeApiResponse :=
  serve (scrape_config (lit "https://www.walmart.com/ip/bolt/2")).
Definition broken_page : ScrapeApiResponse :=
  serve (scrape_config (lit "https://www.walmart.com/broken")).

End Sample.

(** ** Reading a search URL back

    What a server does with the URL, after [urllib.parse.parse_qsl] with
    blank values kept: the query part is cut at [&], empty pieces are
    skipped, each pair is cut at its first [=], and both halves are
    unquoted and decoded as UTF-8.  Decoding is strict here: a piece
    that is not well-formed gives [None]. *)

Definition continuation (b : Z) : option Z :=
  if (0x80 <=? b) && (b <? 0xC0) then Some (b - 0x80) else None.

(** A decoded code point counts when it is a scalar value that needs the
    number of bytes it was written with. *)
Definition decoded (least c : Z) : option Z :=
  if (least <=? c) && (c <? 0x110000) && negb (is_surrogate c) then Some c
  else None.

(** [bs.decode('utf-8', 'strict')], with [None] for a decoding error. *)
Fixpoint utf8_decode (bs : list Z) : option pystr :=
  let emit (c : option Z) (rest : option pystr) :=
    match c, rest with
    | Some c, Some s => Some (c :: s)
    | _, _ => None
    end in
  match bs with
  | [] => Some []
  | b :: rest =>
      if (0 <=? b) && (b <? 0x80) then emit (Some b) (utf8_decode rest)
      else if (0xC0 <=? b) && (b <? 0xE0) then
        match rest with
        | b1 :: rest' =>
            match continuation b1 with
            | Some x1 =>
                emit (decoded 0x80 ((b - 0xC0) * 64 + x1)) (utf8_decode rest')
            | None => None
            end
        | _ => None
        end
      else if (0xE0 <=? b) && (b <? 0xF0) then
        match rest with
        | b1 :: b2 :: rest' =>
            match continuation b1, continuation b2 with
            | Some x1, Some x2 =>
                emit (decoded 0x800 (((b - 0xE0) * 64 + x1) * 64 + x2))
                     (utf8_decode rest')
            | _, _ => None
            end
        | _ => None
        end
      else if (0xF0 <=? b) && (b <? 0xF8) then
        match rest with
        | b1 :: b2 :: b3 :: rest' =>
            match continuation b1, continuation b2, continuation b3 with
            | Some x1, Some x2, Some x3 =>
                emit (decoded 0x10000
                        ((((b - 0xF0) * 64 + x1) * 64 + x2) * 64 + x3))
                     (utf8_decode rest')
            | _, _, _ => None
            end
        | _ => None
        end
      else None
  end.

(** [unquote_plus(s)] as a string. *)
Definition unquote_str (s : pystr) : option pystr :=
  match unquote_plus s with
  | Some bs => utf8_decode bs
  | None => None
  end.

Definition parse_pair (pair : pystr) : option (pystr * pystr) :=
  let '(k, v) := split_once (code "=") pair in
  match unquote_str k, unquote_str v with
  | Some k', Some v' => Some (k', v')
  | _, _ => None
  end.

Fixpoint parse_pairs (pairs : list pystr) : option (list (pystr * pystr)) :=
  match pairs with
  | [] => Some []
  | p :: rest =>
      if nonempty p then
        match parse_pair p, parse_pairs rest with
        | Some kv, Some more => Some (kv :: more)
        | _, _ => None
        end
      else parse_pairs rest
  end.

Definition parse_qsl (query : pystr) : option (list (pystr * pystr)) :=
  parse_pairs (split (code "&") query).

(** The part of a URL after its first [?]. *)
Definition url_query (u : pystr) : pystr := snd (split_once (code "?") u).

(** Characters of a search URL: those of a quoted component and the
    delimiters of the URL itself. *)
Definition url_char (c : Z) : bool :=
  query_safe c || char_in c (lit ":/?&=").

(** ** Notions used to state the further properties *)

(** The exceptions a failing subscript raises. *)
Definition lookup_error (e : exn) : Prop :=
  e = KeyError \/ e = IndexError \/ e = TypeError.

(** The previews a search page adds to the collection. *)
Definition previews_of (lib : PyLib) (r : ScrapeApiResponse) : list json :=
  match parse_search lib r with
  | Ok (JArr l, _) => l
  | _ => []
  end.

(** A product record: the keys [product] and [reviews], the first one
    holding a dict of allow-listed keys. *)
Definition product_record (v : json) : Prop :=
  exists product reviews,
    v = JObj [ (lit "product", JObj product); (lit "reviews", reviews) ]
    /\ dict_wf product
    /\ incl (keys product) wanted_product_keys.

(** A request for a search page: country US, protection on, a URL of
    the search endpoint. *)
Definition search_request (c : ScrapeConfig) : Prop :=
  country c = lit "US" /\ asp c = true
  /\ starts_with (lit "https://www.walmart.com/search?") (url c) = true.

(** The exception [math.ceil(total_items / 40)] ends in for a count that
    is no finite number. *)
Definition count_error (total : json) : option exn :=
  match total with
  | JNull | JStr _ | JArr _ | JObj _ => Some TypeError
  | JFloat S754_nan => Some ValueError
  | JFloat (S754_infinity _) => Some OverflowError
  | _ => None
  end.

(** The path of a canonical URL written without the leading slash:
    non-empty segments of path characters (the last one may be empty),
    none of them [.] or [..], no colon, and no blank in front. *)
Definition relative_path (p : pystr) : bool :=
  nonempty p && negb (starts_with (lit "/") p)
  && negb (is_c0_or_space (hd 0 p))
  && forallb plain_char p && negb (char_in (code ":") p)
  && forallb (fun s => negb (dot_segment s)) (split (code "/") p)
  && forallb nonempty (removelast (split (code "/") p)).

(** Two clients that serve the same documents; they may deliver a batch
    in different orders. *)
Definition same_documents (s1 s2 : ScrapflyClient) : Prop :=
  forall c, async_scrape s1 c = async_scrape s2 c.

(** ** The entry point

    [run] (main.py 103-108), for the client built there; what is printed
    is the value returned. *)
Definition run (lib : PyLib) (scrapfly : ScrapflyClient) : io (list json) :=
  scrape_walmart lib (lit "spider") scrapfly.

(** ** Further sample documents

    Searches of a second canned site: "gears" has two pages of results,
    "bare" reports no count, "loose" lists a product without canonical
    URL, "root" one whose canonical URL is null; the product page
    [/ip/odd] holds a list where the product object should be.  Anything
    else is served as by the first site.  One client delivers a batch
    last request first, the other in the order of the requests. *)
Module Cases.

Definition stack (count : json) (items : list json) : json :=
  Sample.nest ["props"; "pageProps"; "initialData"; "searchResult"]%string
    (JObj [ (lit "itemStacks",
             JArr [ JObj [ (lit "count", count); (lit "items", JArr items) ] ]) ]).

Definition product_c : json := Sample.entry "Product" "/ip/cog/3".

(** A query with an accented letter, a space and an emoji. *)
Definition cafe : pystr := [0x63; 0x61; 0x66; 0xE9; 0x20; 0x1F600].

Definition no_url : json := JObj [ (lit "__typename", JStr (lit "Product")) ].

Definition null_url : json :=
  JObj [ (lit "__typename", JStr (lit "Product")); (lit "canonicalUrl", JNull) ].

Definition odd_doc : json :=
  Sample.nest ["props"; "pageProps"; "initialData"; "data"]%string
    (JObj [ (lit "product", JArr []); (lit "reviews", Sample.reviews) ]).

Definition loads (text : pystr) : pyresult json :=
  if str_eqb text (lit "first") then
    Ok (stack (JInt 80) [Sample.product_a; Sample.advert; Sample.product_b])
  else if str_eqb text (lit "second") then Ok (stack (JInt 7) [product_c])
  else if str_eqb text (lit "bare") then Ok (stack JNull [Sample.product_a])
  else if str_eqb text (lit "loose") then
    Ok (stack (JInt 3) [Sample.product_a; no_url; Sample.product_b])
  else if str_eqb text (lit "root") then Ok (stack (JInt 1) [null_url])
  else if str_eqb text (lit "odd") then Ok odd_doc
  else Sample.loads false text.

Definition lib : PyLib :=
  {| json_loads := loads;
     check_bracketed_netloc := fun _ => Ok tt;
     checknetloc_nfkc := fun _ => Ok tt |}.

Definition serve (c : ScrapeConfig) : ScrapeApiResponse :=
  let u := url c in
  if str_eqb u (page_url (lit "gears") 1) then Sample.page u (Some "first"%string)
  else if str_eqb u (page_url (lit "gears") 2)
  then Sample.page u (Some "second"%string)
  else if str_eqb u (page_url (lit "bare") 1) then Sample.page u (Some "bare"%string)
  else if str_eqb u (page_url (lit "loose") 1)
  then Sample.page u (Some "loose"%string)
  else if str_eqb u (page_url (lit "root") 1) then Sample.page u (Some "root"%string)
  else if str_eqb u (lit "https://www.walmart.com/ip/odd")
  then Sample.page u (Some "odd"%string)
  else Sample.serve c.

Definition session : ScrapflyClient :=
  {| async_scrape := serve;
     concurrent_scrape := fun cs => rev (map serve cs) |}.

Definition ordered_session : ScrapflyClient :=
  {| async_scrape := serve;
     concurrent_scrape := map serve |}.

End Cases.

(** ** Basic facts *)

Lemma str_eqb_refl (a : pystr) : str_eqb a a = true.
Proof.
  induction a as [|x a IH]; simpl; [reflexivity|].
  now rewrite Z.eqb_refl, IH.
Qed.

Lemma str_eqb_eq (a b : pystr) : str_eqb a b = true <-> a = b.
Proof.
  split; [|intros ->; apply str_eqb_refl].
  revert b; induction a as [|x a IH]; intros [|y b]; simpl; try discriminate; auto.
  rewrite andb_true_iff, Z.eqb_eq. intros [-> H]. f_equal. now apply IH.
Qed.

Lemma str_mem_In (k : pystr) (l : list pystr) : str_mem k l = true <-> In k l.
Proof.
  unfold str_mem. rewrite existsb_exists. split.
  - intros (x & Hx & E). apply str_eqb_eq in E. now subst.
  - intros H. exists k. split; [assumption|apply str_eqb_refl].
Qed.

Lemma raises_bind {A B} (m : pyresult A) (k : A -> pyresult B) :
  raises m -> raises (bind m k).
Proof. intros [e ->]. now exists e. Qed.

Lemma raises_bind_k {A B} (m : pyresult A) (k : A -> pyresult B) :
  (forall a, raises (k a)) -> raises (bind m k).
Proof. intros H. destruct m as [a|e]; simpl; [apply H|now exists e]. Qed.

Lemma getpath_app (v : json) (p q : list subscript) :
  getpath v (p ++ q) = (x <- getpath v p;; getpath x q).
Proof.
  revert v; induction p as [|s p IH]; intros v; simpl; [reflexivity|].
  destruct (getsub v s); simpl; auto.
Qed.

Lemma for_each_app {A S} (body : S -> A -> pyresult S) (l1 l2 : list A) (s : S) :
  for_each body (l1 ++ l2) s = (s' <- for_each body l1 s;; for_each body l2 s').
Proof.
  revert s; induction l1 as [|a l1 IH]; intros s; simpl; [reflexivity|].
  destruct (body s a); simpl; auto.
Qed.

Lemma for_each_raises {A S} (body : S -> A -> pyresult S) (a : A) (l : list A) :
  (forall s, raises (body s a)) -> In a l -> forall s, raises (for_each body l s).
Proof.
  intros Ha. induction l as [|x l IH]; intros Hin s; [contradiction|].
  cbn [for_each]. destruct Hin as [->|Hin].
  - now apply raises_bind.
  - apply raises_bind_k. intros s'. now apply IH.
Qed.

(** ** Search pages *)

Lemma getitem_discriminator (v : json) :
  discriminator v <> None ->
  exists t, getitem v (lit "__typename") = Ok t /\ discriminator v = Some t.
Proof.
  destruct v; simpl; try congruence.
  destruct (dict_get (lit "__typename") fields) as [t|]; [|congruence].
  intros _. now exists t.
Qed.

Lemma keep_products_filter (items : list json) :
  Forall (fun v => discriminator v <> None) items ->
  keep_products items = Ok (filter typed_product items).
Proof.
  induction 1 as [|v items Hv _ IH]; simpl; [reflexivity|].
  destruct (getitem_discriminator v Hv) as (t & -> & Ht). simpl.
  rewrite IH. simpl. unfold typed_product. rewrite Ht.
  now destruct (eq_str t (lit "Product")).
Qed.

Lemma keep_products_raises (items : list json) (v : json) :
  In v items -> raises (getitem v (lit "__typename")) ->
  raises (keep_products items).
Proof.
  intros Hin Hv. induction items as [|x items IH]; [contradiction|].
  cbn [keep_products]. destruct Hin as [->|Hin].
  - now apply raises_bind.
  - apply raises_bind_k. intros ?. apply raises_bind. now apply IH.
Qed.

Lemma missing_field_raises (v : json) (path : list subscript) :
  missing_field v path -> raises (getpath v path).
Proof.
  induction 1 as [d k rest H | l i rest H | v s x rest Hs _ IH]; simpl.
  - rewrite H. now exists KeyError.
  - exists IndexError.
    assert (E1 : (0 <=? i) && (i <? Z.of_nat (length l)) = false).
    { apply andb_false_iff. destruct H; [right; lia | left; lia]. }
    assert (E2 : (- Z.of_nat (length l) <=? i) && (i <? 0) = false).
    { apply andb_false_iff. destruct H; [right; lia | left; lia]. }
    now rewrite E1, E2.
  - now rewrite Hs.
Qed.

Section ParserProperties.

Variable lib : PyLib.

(** C2. A search page whose blob is present and whose first item stack
    holds entries that each carry a type discriminator parses to the
    entries typed "Product", in their original order, together with the
    count the first stack reports, whatever the number of survivors. *)
Theorem parse_search_keeps_products
    (r : ScrapeApiResponse) (text : pystr) (data total : json)
    (stack : dict) (items : list json) :
  next_data_text r = Some text ->
  json_loads lib text = Ok data ->
  getpath data first_stack_path = Ok (JObj stack) ->
  dict_get (lit "count") stack = Some total ->
  dict_get (lit "items") stack = Some (JArr items) ->
  Forall (fun v => discriminator v <> None) items ->
  parse_search lib r = Ok (JArr (filter typed_product items), total)
  /\ (forall v, In v (filter typed_product items) <->
                In v items /\ exists t, discriminator v = Some (JStr t)
                                        /\ t = lit "Product").
Proof.
  intros Htext Hload Hstack Hcount Hitems Hall. split.
  - unfold parse_search, count_path, items_path.
    rewrite Htext, Hload. cbn [bind].
    rewrite !getpath_app, Hstack. cbn [bind getpath getsub getitem].
    rewrite Hcount, Hitems. cbn [bind py_iter].
    now rewrite (keep_products_filter items Hall).
  - intros v. rewrite filter_In. unfold typed_product.
    split; intros [Hin H]; (split; [assumption|]).
    + destruct (discriminator v) as [[| | | |t| |]|]; simpl in H; try discriminate.
      exists t. split; [reflexivity|]. now apply str_eqb_eq.
    + destruct H as (t & -> & ->). reflexivity.
Qed.

(** C5. A document without a [__NEXT_DATA__] script element parses to
    an empty preview collection and the count 0, and this is a normal
    return, not an exception. *)
Theorem parse_search_no_script (r : ScrapeApiResponse) :
  next_data_text r = None ->
  exists previews,
    parse_search lib r = Ok (previews, JInt 0)
    /\ py_iter previews = Ok []
    /\ truthy previews = false.
Proof.
  intros H. exists (JObj []). unfold parse_search. rewrite H. auto.
Qed.

End ParserProperties.

(** ** Product pages *)

Lemma keys_dict_set (k : pystr) (v : json) (d : dict) (k' : pystr) :
  In k' (keys (dict_set k v d)) -> k' = k \/ In k' (keys d).
Proof.
  induction d as [|[k0 v0] d IH]; simpl.
  - intros [<-|[]]. now left.
  - destruct (str_eqb k k0) eqn:E; simpl.
    + apply str_eqb_eq in E. subst k0. intros [<-|H]; auto.
    + intros [<-|H]; auto. destruct (IH H); auto.
Qed.

Lemma dict_set_fresh (k : pystr) (v : json) (d : dict) :
  ~ In k (keys d) -> dict_set k v d = d ++ [(k, v)].
Proof.
  induction d as [|[k0 v0] d IH]; simpl; intros H; [reflexivity|].
  destruct (str_eqb k k0) eqn:E.
  - apply str_eqb_eq in E. subst k0. tauto.
  - f_equal. apply IH. tauto.
Qed.

Lemma keys_fold_keep (items acc : dict) (k : pystr) :
  In k (keys (fold_left keep_step items acc)) ->
  In k (keys acc) \/ In k wanted_product_keys.
Proof.
  revert acc; induction items as [|[k0 v0] items IH]; intros acc;
    cbn [fold_left]; auto.
  intros H. destruct (IH _ H) as [H'|H']; auto.
  unfold keep_step in H'. destruct (wanted (k0, v0)) eqn:W; auto.
  destruct (keys_dict_set _ _ _ _ H') as [E|]; auto.
  right. subst k. apply str_mem_In. exact W.
Qed.

Lemma fold_keep_filter (items acc : dict) :
  NoDup (keys items) ->
  (forall k, In k (keys items) -> ~ In k (keys acc)) ->
  fold_left keep_step items acc = acc ++ filter wanted items.
Proof.
  revert acc; induction items as [|[k0 v0] items IH]; intros acc Hnd Hfresh; simpl.
  - now rewrite app_nil_r.
  - inversion Hnd as [|? ? Hk0 Hnd']; subst.
    unfold keep_step at 2. destruct (wanted (k0, v0)) eqn:W; simpl.
    + rewrite dict_set_fresh by (apply Hfresh; now left).
      rewrite IH; [now rewrite <- app_assoc|assumption|].
      intros k Hk. unfold keys. rewrite map_app, in_app_iff. simpl.
      intros [H|[<-|[]]]; [|tauto].
      apply (Hfresh k); [now right|assumption].
    + apply IH; [assumption|]. intros k Hk. apply Hfresh. now right.
Qed.

Lemma keep_wanted_filter (raw : dict) :
  dict_wf raw -> keep_wanted raw = filter wanted raw.
Proof.
  intros H. unfold keep_wanted. rewrite fold_keep_filter; auto.
Qed.

Section ProductProperties.

Variable lib : PyLib.

(** C4. A product page whose blob is present parses to a record whose
    product mapping holds keys of the allow-list only, whatever other
    keys the raw product object has; for a dict as [json.loads] builds
    it (no key twice) it is the raw object restricted to the allow-list.
    The record pairs it with the reviews object of the sibling path,
    unchanged. *)
Theorem parse_product_allow_list
    (r : ScrapeApiResponse) (text : pystr) (data reviews : json)
    (page raw : dict) :
  next_data_text r = Some text ->
  json_loads lib text = Ok data ->
  getpath data page_data_path = Ok (JObj page) ->
  dict_get (lit "product") page = Some (JObj raw) ->
  dict_get (lit "reviews") page = Some reviews ->
  exists product,
    parse_product lib r =
      Ok (JObj [ (lit "product", JObj product); (lit "reviews", reviews) ])
    /\ (forall k, In k (keys product) -> In k wanted_product_keys)
    /\ (dict_wf raw -> product = filter wanted raw).
Proof.
  intros Htext Hload Hpage Hprod Hrev.
  exists (keep_wanted raw). split; [|split].
  - unfold parse_product, product_path, reviews_path.
    rewrite Htext, Hload. cbn [bind].
    rewrite !getpath_app, Hpage. cbn [bind getpath getsub getitem].
    rewrite Hprod, Hrev. reflexivity.
  - intros k Hk. unfold keep_wanted in Hk.
    destruct (keys_fold_keep _ _ _ Hk) as [[]|]; assumption.
  - now apply keep_wanted_filter.
Qed.

(** C6. A document without a [__NEXT_DATA__] script element makes
    [parse_product] return [None], not a record; the collecting loop
    leaves such a page out and goes on, with the same outcome as if the
    page had not been in the batch. *)
Theorem parse_product_no_script_skipped
    (r : ScrapeApiResponse) (session : ScrapflyClient) (urls : list pystr)
    (log : list ScrapeConfig) (before after : list ScrapeApiResponse) :
  next_data_text r = None ->
  concurrent_scrape session (map scrape_config urls) = before ++ r :: after ->
  parse_product lib r = Ok JNull
  /\ (forall results, append_product lib results r = Ok results)
  /\ snd (_scrape_products_by_url lib urls session log) =
       for_each (append_product lib) (before ++ after) [].
Proof.
  intros Hnone Hbatch.
  assert (Hp : parse_product lib r = Ok JNull).
  { unfold parse_product. now rewrite Hnone. }
  assert (Hskip : forall results, append_product lib results r = Ok results).
  { intros results. unfold append_product. now rewrite Hp. }
  repeat split; auto.
  unfold _scrape_products_by_url, io_bind, await_concurrent, lift. simpl.
  rewrite Hbatch, !for_each_app. simpl.
  destruct (for_each (append_product lib) before []) as [acc|e]; simpl; auto.
  now rewrite Hskip.
Qed.

(** C7. When the blob is present but a field of the fixed path (or the
    discriminator of a listed entry) is missing, both parsers raise:
    neither the empty search result nor the skipped-product result is
    returned, and the exception leaves the loops that call them, so a
    batch that holds such a page makes the caller raise. *)
Theorem parsers_raise_on_missing_field
    (r : ScrapeApiResponse) (text : pystr) (data : json) :
  next_data_text r = Some text ->
  json_loads lib text = Ok data ->
  ((missing_field data count_path \/ missing_field data items_path
    \/ (exists items entry,
          getpath data items_path = Ok (JArr items)
          /\ In (JObj entry) items
          /\ dict_get (lit "__typename") entry = None)) ->
     raises (parse_search lib r)
     /\ forall batch previews,
          In r batch ->
          raises (for_each (extend_previews lib) batch previews))
  /\ ((missing_field data product_path \/ missing_field data reviews_path) ->
     raises (parse_product lib r)
     /\ forall session urls log,
          In r (concurrent_scrape session (map scrape_config urls)) ->
          raises (snd (_scrape_products_by_url lib urls session log))).
Proof.
  intros Htext Hload. split; intros Hmiss.
  - assert (Hr : raises (parse_search lib r)).
    { unfold parse_search. rewrite Htext, Hload. cbn [bind].
      destruct Hmiss as [H|[H|(items & entry & Hitems & Hin & Hnone)]].
      - apply missing_field_raises in H. now apply raises_bind.
      - apply missing_field_raises in H.
        apply raises_bind_k. intros ?. now apply raises_bind.
      - apply raises_bind_k. intros ?. rewrite Hitems. cbn [bind py_iter].
        apply raises_bind.
        apply (keep_products_raises items (JObj entry)); [assumption|].
        cbn [getitem]. rewrite Hnone. now exists KeyError. }
    split; [assumption|]. intros batch previews Hin.
    apply (for_each_raises _ r); [|assumption].
    intros s. unfold extend_previews. apply raises_bind_k. intros ?.
    now apply raises_bind.
  - assert (Hr : raises (parse_product lib r)).
    { unfold parse_product. rewrite Htext, Hload. cbn [bind].
      destruct Hmiss as [H|H]; apply missing_field_raises in H.
      - now apply raises_bind.
      - apply raises_bind_k. intros ?. apply raises_bind_k. intros ?.
        now apply raises_bind. }
    split; [assumption|]. intros session urls log Hin.
    unfold _scrape_products_by_url, io_bind, await_concurrent, lift. cbn [snd].
    set (batch := concurrent_scrape session (map scrape_config urls)) in *.
    assert (Hloop : raises (for_each (append_product lib) batch [])).
    { apply (for_each_raises _ r); [|assumption].
      intros s. unfold append_product. now apply raises_bind. }
    destruct Hloop as [e He]. rewrite He. now exists e.
Qed.

End ProductProperties.

(** ** The URL builder *)

Lemma utf8_char_plain (c : Z) : c < 0x80 -> utf8_char c = Ok [c].
Proof.
  intros H. unfold utf8_char. apply Z.ltb_lt in H. now rewrite H.
Qed.

Lemma always_safe_plain (c : Z) : always_safe c = true -> 0x20 < c < 0x80.
Proof.
  unfold always_safe, is_upper, is_lower, is_digit, in_range, char_in.
  cbn. rewrite !orb_true_iff, !andb_true_iff, !Z.leb_le, !Z.eqb_eq. lia.
Qed.

(** A string of always-safe characters is quoted to itself. *)
Lemma quote_plus_safe (s : pystr) :
  forallb always_safe s = true -> quote_plus s [] = Ok s.
Proof.
  intros H. rewrite forallb_forall in H.
  assert (Hsp : char_in (code " ") s = false).
  { unfold char_in. apply not_true_is_false. rewrite existsb_exists.
    intros (c & Hc & E). apply Z.eqb_eq in E. subst c.
    specialize (H _ Hc). discriminate. }
  unfold quote_plus. rewrite Hsp. cbn [negb]. unfold quote.
  assert (E : utf8_encode s = Ok s /\ flat_map (quoter []) s = s).
  { clear Hsp. induction s as [|c s IH]; [now split|].
    assert (Hc : always_safe c = true) by (apply H; now left).
    destruct IH as [IH1 IH2]; [intros x Hx; apply H; now right|].
    pose proof (always_safe_plain c Hc).
    cbn [utf8_encode flat_map]. rewrite utf8_char_plain, IH1, IH2 by lia.
    unfold quoter. now rewrite Hc. }
  destruct E as [-> E]. cbn [bind]. now rewrite E.
Qed.

Lemma string_of_uint_safe (d : Decimal.uint) :
  forallb always_safe (lit (NilEmpty.string_of_uint d)) = true.
Proof.
  induction d; cbn [NilEmpty.string_of_uint]; try reflexivity;
    unfold lit; cbn [list_ascii_of_string map forallb];
    (rewrite andb_true_iff; split; [reflexivity|exact IHd]).
Qed.

Lemma decimal_safe (n : Z) : forallb always_safe (decimal n) = true.
Proof.
  unfold decimal, NilEmpty.string_of_int.
  destruct (Z.to_int n) as [d|d]; [apply string_of_uint_safe|].
  unfold lit. cbn [list_ascii_of_string map forallb].
  rewrite andb_true_iff. split; [reflexivity|apply string_of_uint_safe].
Qed.

(** *** The number of digits of an int

    The decimal form of a positive number has no leading zero, so its
    length [m] locates the number between [10 ^ (m - 1)] and [10 ^ m]. *)

Lemma length_string_of_uint (d : Decimal.uint) :
  length (lit (NilEmpty.string_of_uint d)) = Decimal.nb_digits d.
Proof.
  induction d; cbn [NilEmpty.string_of_uint Decimal.nb_digits]; trivial;
    unfold lit; cbn [list_ascii_of_string map length]; f_equal; exact IHd.
Qed.

Lemma usize_nb_digits (d : Decimal.uint) :
  DecimalPos.Unsigned.usize d = N.of_nat (Decimal.nb_digits d).
Proof.
  induction d; cbn [DecimalPos.Unsigned.usize Decimal.nb_digits]; trivial;
    rewrite IHd; lia.
Qed.

Lemma of_lu_below (d : Decimal.uint) :
  (DecimalPos.Unsigned.of_lu d < 10 ^ N.of_nat (Decimal.nb_digits d))%N.
Proof.
  induction d; cbn [DecimalPos.Unsigned.of_lu Decimal.nb_digits];
    [reflexivity|..];
    match goal with
    | |- context [N.of_nat (S ?k)] =>
        replace (N.of_nat (S k)) with (N.succ (N.of_nat k)) by lia
    end;
    rewrite N.pow_succ_r'; lia.
Qed.

Lemma to_uint_leading (p : positive) :
  Decimal.nzhead (Pos.to_uint p) = Pos.to_uint p.
Proof.
  pose proof (DecimalPos.Unsigned.to_of (Pos.to_uint p)) as H.
  rewrite DecimalPos.Unsigned.of_to in H. cbn [N.to_uint] in H.
  unfold Decimal.unorm in H.
  destruct (Decimal.nzhead (Pos.to_uint p)) eqn:E; try (now rewrite H).
  exfalso. now apply (DecimalPos.Unsigned.to_uint_nonzero p).
Qed.

Lemma pos_digits_bounds (p : positive) :
  let m := Z.of_nat (Decimal.nb_digits (Pos.to_uint p)) in
  0 < m /\ 10 ^ (m - 1) <= Zpos p < 10 ^ m.
Proof.
  cbv zeta.
  pose proof (to_uint_leading p) as Hlead.
  pose proof (DecimalPos.Unsigned.of_to p) as Hval.
  pose proof (DecimalPos.Unsigned.to_uint_nonnil p) as Hnil.
  assert (Hup : (Npos p < 10 ^ N.of_nat (Decimal.nb_digits (Pos.to_uint p)))%N).
  { rewrite <- Hval, DecimalPos.Unsigned.of_uint_alt.
    rewrite <- (DecimalFacts.nb_digits_rev (Pos.to_uint p)). apply of_lu_below. }
  assert (Hlow : (10 ^ N.of_nat (Decimal.nb_digits (Pos.to_uint p) - 1) <= Npos p)%N).
  { destruct (Pos.to_uint p) as [|d|d|d|d|d|d|d|d|d|d] eqn:E; [contradiction|..];
    try (rewrite <- Hval; cbn [Pos.of_uint Decimal.nb_digits];
         rewrite DecimalPos.Unsigned.of_uint_acc_rev, usize_nb_digits;
         replace (S (Decimal.nb_digits d) - 1)%nat with (Decimal.nb_digits d) by lia;
         nia).
    exfalso. cbn [Decimal.nzhead] in Hlead.
    pose proof (DecimalFacts.nb_digits_nzhead d) as Hn. rewrite Hlead in Hn.
    cbn [Decimal.nb_digits] in Hn. lia. }
  assert (Hm : (0 < Decimal.nb_digits (Pos.to_uint p))%nat).
  { destruct (Pos.to_uint p); [contradiction|..]; cbn; lia. }
  split; [lia|].
  replace (Z.of_nat (Decimal.nb_digits (Pos.to_uint p)) - 1)
    with (Z.of_N (N.of_nat (Decimal.nb_digits (Pos.to_uint p) - 1))) by lia.
  replace (Z.of_nat (Decimal.nb_digits (Pos.to_uint p)))
    with (Z.of_N (N.of_nat (Decimal.nb_digits (Pos.to_uint p)))) at 2 by lia.
  change 10 with (Z.of_N 10). rewrite <- !N2Z.inj_pow. lia.
Qed.

Lemma int_digits_pos (p : positive) :
  int_digits (Zpos p) = Z.of_nat (Decimal.nb_digits (Pos.to_uint p)).
Proof.
  unfold int_digits, decimal. cbn [Z.abs Z.to_int NilEmpty.string_of_int].
  now rewrite length_string_of_uint.
Qed.

(** An int has at most [k] digits exactly when it is below [10 ^ k] in
    magnitude. *)
Lemma int_digits_spec (n k : Z) :
  0 < k -> (int_digits n <= k <-> Z.abs n < 10 ^ k).
Proof.
  intros Hk.
  assert (Hp : forall p, int_digits (Zpos p) <= k <-> Zpos p < 10 ^ k).
  { intros p. rewrite int_digits_pos.
    destruct (pos_digits_bounds p) as (Hm & Hlo & Hhi).
    set (m := Z.of_nat _) in *. split; intros H.
    - assert (10 ^ m <= 10 ^ k) by (apply Z.pow_le_mono_r; lia). lia.
    - destruct (Z_le_gt_dec m k) as [|Hgt]; [assumption|exfalso].
      assert (10 ^ k <= 10 ^ (m - 1)) by (apply Z.pow_le_mono_r; lia). lia. }
  destruct n as [|p|p]; cbn [Z.abs]; [|apply Hp|].
  - change (int_digits 0) with 1.
    assert (0 < 10 ^ k) by (apply Z.pow_pos_nonneg; lia). lia.
  - change (int_digits (Zneg p)) with (int_digits (Zpos p)). apply Hp.
Qed.

(** [str] of an int within the limit on digits, and beyond it. *)
Lemma str_of_int_cases (n : Z) :
  if int_max_str_digits <? int_digits n
  then str_of_int n = Raise ValueError
  else str_of_int n = Ok (decimal n).
Proof. unfold str_of_int. now destruct (int_max_str_digits <? int_digits n). Qed.

Lemma str_of_int_ok (n : Z) :
  int_digits n <= int_max_str_digits -> str_of_int n = Ok (decimal n).
Proof.
  intros H. pose proof (str_of_int_cases n) as C.
  apply Z.ltb_ge in H. now rewrite H in C.
Qed.

(** A page number of the 25 there can be is far within the limit. *)
Lemma page_digits (i : Z) : Z.abs i < 100 -> int_digits i <= int_max_str_digits.
Proof.
  intros H. apply (int_digits_spec i 2) in H; [|lia].
  unfold int_max_str_digits. lia.
Qed.

(** With the default sort, the URL of a page is [page_url]. *)
Lemma create_search_url_page (q enc : pystr) (i : Z) (sort : option pystr) :
  quote_plus q [] = Ok enc ->
  sort = None \/ sort = Some (lit "price_low") ->
  int_digits i <= int_max_str_digits ->
  create_search_url q (Some i) sort = Ok (page_url enc i).
Proof.
  intros Hq Hsort Hi.
  assert (Hs : match sort with Some s => s | None => default_sort end = lit "price_low")
    by (destruct Hsort; subst; reflexivity).
  unfold create_search_url, urlencode. rewrite Hs.
  cbn [urlencode_pairs py_str bind].
  rewrite Hq, (str_of_int_ok i Hi). cbn [bind].
  rewrite (quote_plus_safe (decimal i)) by apply decimal_safe.
  change (quote_plus (lit "q") []) with (Ok (lit "q")).
  change (quote_plus (lit "sort") []) with (Ok (lit "sort")).
  change (quote_plus (lit "price_low") []) with (Ok (lit "price_low")).
  change (quote_plus (lit "page") []) with (Ok (lit "page")).
  change (quote_plus (lit "affinityOverride") []) with (Ok (lit "affinityOverride")).
  change (quote_plus (lit "default") []) with (Ok (lit "default")).
  cbn [bind join]. reflexivity.
Qed.

Lemma create_search_url_default (q enc : pystr) :
  quote_plus q [] = Ok enc ->
  create_search_url q None None = Ok (page_url enc 1).
Proof.
  intros H. rewrite <- (create_search_url_page q enc 1 None H);
    [reflexivity|now left|discriminate].
Qed.

Lemma map_py_page_urls (q enc : pystr) (pages : list Z) :
  quote_plus q [] = Ok enc ->
  Forall (fun i => Z.abs i < 100) pages ->
  map_py (fun i => create_search_url q (Some i) None) pages
  = Ok (map (page_url enc) pages).
Proof.
  intros H Hpages. induction Hpages as [|i pages Hi _ IH]; [reflexivity|].
  cbn [map_py map].
  rewrite (create_search_url_page q enc i None H (or_introl eq_refl) (page_digits i Hi)).
  now rewrite IH.
Qed.

(** ** Float division and ceiling

    [binary_round_aux] shifts the mantissa right until it fits 53 bits,
    rounds, and shifts once more if rounding carried.  What the page
    count needs from it: the result never falls below the truncated
    input, and a shifted mantissa is normalised. *)

(** [0 < 2 ^ k] for a non-negative exponent. *)
Ltac pow_pos := apply Z.pow_pos_nonneg; lia.


Lemma digits2_pos_bounds (p : positive) :
  2 ^ (Zpos (digits2_pos p) - 1) <= Zpos p < 2 ^ Zpos (digits2_pos p).
Proof.
  induction p as [p IH|p IH|]; cbn [digits2_pos].
  - rewrite Pos2Z.inj_succ.
    replace (Z.succ (Zpos (digits2_pos p)) - 1) with (Z.succ (Zpos (digits2_pos p) - 1)) by lia.
    rewrite !Z.pow_succ_r by lia. lia.
  - rewrite Pos2Z.inj_succ.
    replace (Z.succ (Zpos (digits2_pos p)) - 1) with (Z.succ (Zpos (digits2_pos p) - 1)) by lia.
    rewrite !Z.pow_succ_r by lia. lia.
  - simpl. lia.
Qed.

Lemma shr_1_m (r : shr_record) :
  0 <= shr_m r -> shr_m (shr_1 r) = shr_m r / 2.
Proof.
  destruct r as [m rb sb]. cbn [shr_m shr_1]. intros Hm.
  destruct m as [|[p|p|]|p]; cbn [shr_m]; try lia.
  - reflexivity.
  - rewrite Pos2Z.inj_xI. apply Z.div_unique with (r := 1); lia.
  - rewrite Pos2Z.inj_xO. apply Z.div_unique with (r := 0); lia.
  - reflexivity.
Qed.

Lemma iter_shr_1_m (p : positive) (r : shr_record) :
  0 <= shr_m r -> shr_m (iter_pos shr_1 p r) = shr_m r / 2 ^ Zpos p.
Proof.
  revert r; induction p as [p IH|p IH|]; intros r Hr; cbn [iter_pos].
  - assert (H1 : 0 <= shr_m (shr_1 r)).
    { rewrite shr_1_m by assumption. apply Z.div_pos; lia. }
    assert (H2 : 0 <= shr_m (iter_pos shr_1 p (shr_1 r))).
    { rewrite IH by assumption. apply Z.div_pos; lia. }
    rewrite IH, IH, shr_1_m by assumption.
    rewrite !Z.div_div by lia. f_equal.
    replace (Zpos p~1) with (1 + Zpos p + Zpos p) by lia.
    rewrite !Z.pow_add_r by lia. ring.
  - assert (H2 : 0 <= shr_m (iter_pos shr_1 p r)).
    { rewrite IH by assumption. apply Z.div_pos; lia. }
    rewrite IH, IH by assumption.
    rewrite !Z.div_div by lia. f_equal.
    replace (Zpos p~0) with (Zpos p + Zpos p) by lia.
    rewrite !Z.pow_add_r by lia. ring.
  - now rewrite shr_1_m.
Qed.

Lemma shr_m_of_loc (m : Z) (l : location) : shr_m (shr_record_of_loc m l) = m.
Proof. now destruct l as [|[]]. Qed.

Lemma shr_fexp_spec (m e : Z) (l : location) :
  0 <= m -> -1074 <= e ->
  exists r e', shr_fexp 53 1024 m e l = (r, e')
    /\ e <= e' /\ shr_m r = m / 2 ^ (e' - e) /\ (e < e' -> 2 ^ 52 <= shr_m r).
Proof.
  intros Hm He. unfold shr_fexp, shr, fexp, emin.
  destruct (Z.max (Zdigits2 m + e - 53) (3 - 1024 - 53) - e) as [|k|k] eqn:Ek.
  - eexists _, e. split; [reflexivity|]. rewrite shr_m_of_loc, Z.sub_diag, Z.div_1_r. lia.
  - eexists _, (e + Zpos k). split; [reflexivity|].
    rewrite iter_shr_1_m by now rewrite shr_m_of_loc.
    rewrite shr_m_of_loc. replace (e + Zpos k - e) with (Zpos k) by lia.
    split; [lia|]. split; [reflexivity|]. intros _.
    destruct m as [|p|p]; cbn [Zdigits2] in Ek; try lia.
    pose proof (digits2_pos_bounds p) as [Hlo _].
    assert (Hk : Zpos k = Zpos (digits2_pos p) - 53) by lia.
    rewrite Hk. apply Z.div_le_lower_bound; [lia|].
    rewrite <- Z.pow_add_r by lia.
    replace (Zpos (digits2_pos p) - 53 + 52) with (Zpos (digits2_pos p) - 1) by lia.
    assumption.
  - eexists _, e. split; [reflexivity|]. rewrite shr_m_of_loc, Z.sub_diag, Z.div_1_r. lia.
Qed.

Lemma round_nearest_even_bounds (m : Z) (l : location) :
  m <= round_nearest_even m l <= m + 1.
Proof.
  destruct l as [|[]]; cbn [round_nearest_even]; try lia.
  destruct (Z.even m); lia.
Qed.

Lemma binary_round_aux_spec (sx : bool) (mx ex : Z) (lx : location) :
  0 <= mx -> -1074 <= ex ->
  exists m e,
    ex <= e /\ mx / 2 ^ (e - ex) <= m /\ (ex < e -> 2 ^ 52 <= m)
    /\ (ex < e -> m * 2 ^ (e - ex) <= 2 * mx)
    /\ binary_round_aux 53 1024 sx mx ex lx =
       match m with
       | Z0 => S754_zero sx
       | Zpos p => if e <=? 1024 - 53 then S754_finite sx p e else S754_infinity sx
       | Zneg _ => S754_nan
       end.
Proof.
  intros Hm He. unfold binary_round_aux.
  destruct (shr_fexp_spec mx ex lx Hm He) as (r1 & e1 & -> & He1 & Hm1 & Hn1).
  pose proof (round_nearest_even_bounds (shr_m r1) (loc_of_shr_record r1)) as Hr.
  set (m2 := round_nearest_even (shr_m r1) (loc_of_shr_record r1)) in *.
  assert (H1 : 0 <= shr_m r1) by (rewrite Hm1; apply Z.div_pos; lia).
  destruct (shr_fexp_spec m2 e1 loc_Exact) as (r3 & e3 & -> & He3 & Hm3 & Hn3); try lia.
  assert (Hp1 : 0 < 2 ^ (e1 - ex)) by pow_pos.
  assert (Hp3 : 0 < 2 ^ (e3 - e1)) by pow_pos.
  assert (Hsplit : 2 ^ (e3 - ex) = 2 ^ (e1 - ex) * 2 ^ (e3 - e1)).
  { rewrite <- Z.pow_add_r by lia. f_equal. lia. }
  assert (Hnorm : ex < e3 -> 2 ^ 52 <= shr_m r3).
  { intros Hlt. destruct (Z.eq_dec e1 e3) as [<-|Hne].
    - rewrite Hm3, Z.sub_diag, Z.div_1_r. lia.
    - apply Hn3. lia. }
  exists (shr_m r3), e3. split; [lia|]. split; [|split; [exact Hnorm|split; [|reflexivity]]].
  - rewrite Hm3, Hsplit, <- Z.div_div by lia.
    apply Z.div_le_mono; lia.
  - intros Hlt. specialize (Hnorm Hlt).
    pose proof (Z.mul_div_le m2 (2 ^ (e3 - e1)) Hp3) as Hd3. rewrite <- Hm3 in Hd3.
    pose proof (Z.mul_div_le mx (2 ^ (e1 - ex)) Hp1) as Hd1. rewrite <- Hm1 in Hd1.
    rewrite Hsplit.
    assert (Hstep : shr_m r3 * 2 ^ (e3 - e1) <= shr_m r1 + 1) by lia.
    assert (Hone : 2 ^ (e1 - ex) <= mx).
    { destruct (Z.eq_dec e1 ex) as [->|Hne].
      - rewrite Z.sub_diag, Z.pow_0_r. rewrite Z.sub_diag, Z.pow_0_r in Hd1. nia.
      - assert (2 ^ 52 <= shr_m r1) by (apply Hn1; lia). nia. }
    nia.
Qed.

Lemma div_core_by_40 (p : positive) :
  exists s l,
    0 <= s <= 1074
    /\ SFdiv_core_binary 53 1024 (Zpos p) 0 40 0 = (Zpos p * 2 ^ s / 40, - s, l).
Proof.
  unfold SFdiv_core_binary, fexp, emin. cbn [Zdigits2 digits2_pos Pos.succ].
  set (e' := Z.min _ _).
  assert (He : -1074 <= e' <= 0) by (unfold e'; lia).
  exists (- e'). rewrite Z.opp_involutive.
  replace (0 - 0 - e') with (- e') by lia.
  assert (Hm : match - e' with
               | Zpos _ => Z.shiftl (Zpos p) (- e')
               | Z0 => Zpos p
               | Zneg _ => 0
               end = Zpos p * 2 ^ (- e')).
  { destruct (- e') as [|k|k] eqn:Ek; try lia.
    now rewrite Z.shiftl_mul_pow2 by lia. }
  rewrite Hm. unfold Z.div.
  destruct (Z.div_eucl (Zpos p * 2 ^ (- e')) 40) as [q r].
  eexists. split; [lia|reflexivity].
Qed.

Lemma b64_div_by_40 (sx : bool) (p : positive) :
  exists s m e,
    0 <= s /\ - s <= e
    /\ Zpos p * 2 ^ s / 40 / 2 ^ (e + s) <= m
    /\ (- s < e -> 2 ^ 52 <= m)
    /\ (- s < e -> 20 * m * 2 ^ e <= Zpos p)
    /\ b64_div (S754_finite sx p 0) (S754_finite false 40 0) =
       match m with
       | Z0 => S754_zero sx
       | Zpos q => if e <=? 1024 - 53 then S754_finite sx q e else S754_infinity sx
       | Zneg _ => S754_nan
       end.
Proof.
  unfold b64_div, SFdiv.
  destruct (div_core_by_40 p) as (s & l & Hs & ->).
  destruct (binary_round_aux_spec (xorb sx false) (Zpos p * 2 ^ s / 40) (- s) l)
    as (m & e & He & Hm & Hn & Hu & ->); [apply Z.div_pos; lia | lia |].
  exists s, m, e. rewrite xorb_false_r.
  replace (e - - s) with (e + s) in Hm, Hu by lia.
  split; [lia|]. split; [lia|]. split; [exact Hm|]. split; [exact Hn|].
  split; [|reflexivity].
  intros Hlt. specialize (Hu Hlt).
  assert (Hps : 0 < 2 ^ s) by pow_pos.
  pose proof (Z.mul_div_le (Zpos p * 2 ^ s) 40 ltac:(lia)) as Hd.
  assert (E : 2 ^ (e + s) = 2 ^ e * 2 ^ s \/ e < 0).
  { destruct (Z_lt_le_dec e 0); [now right|left]. now rewrite Z.pow_add_r by lia. }
  destruct E as [E|Hneg].
  - rewrite E in Hu. nia.
  - rewrite (Z.pow_neg_r 2 e Hneg). lia.
Qed.

Lemma ceil_quotient_large (p : positive) (q : spec_float) :
  2000 < Zpos p ->
  int_true_divide (Zpos p) 40 = Ok q ->
  exists c, math_ceil q = Ok c /\ 26 <= c.
Proof.
  intros Hp. unfold int_true_divide. cbn [Z.eqb exact_int].
  destruct (b64_div_by_40 false p) as (s & m & e & Hs & He & Hm & Hn & _ & ->).
  assert (Hpos : 0 < 2 ^ s) by pow_pos.
  assert (Hm0 : (0 <= e /\ 50 <= m) \/ (e < 0 /\ 50 * 2 ^ (- e) <= m)).
  { destruct (Z.eq_dec e (- s)) as [->|Hne].
    - replace (- s + s) with 0 in Hm by lia. rewrite Z.pow_0_r, Z.div_1_r in Hm.
      destruct (Z.eq_dec s 0) as [->|Hs0].
      + left. rewrite Z.pow_0_r, Z.mul_1_r in Hm.
        assert (50 <= Zpos p / 40) by (apply Z.div_le_lower_bound; lia). lia.
      + right. split; [lia|]. rewrite Z.opp_involutive.
        assert (50 * 2 ^ s <= Zpos p * 2 ^ s / 40); [|lia].
        apply Z.div_le_lower_bound; [lia|]. nia.
    - destruct (Z_lt_le_dec e 0) as [Hneg|Hnn].
      + right. split; [assumption|].
        assert (E : 2 ^ s = 2 ^ (- e) * 2 ^ (e + s)).
        { rewrite <- Z.pow_add_r by lia. f_equal. lia. }
        assert (Hpe : 0 < 2 ^ (e + s)) by pow_pos.
        assert (Hpn : 0 < 2 ^ (- e)) by pow_pos.
        rewrite Z.div_div in Hm by lia.
        assert (50 * 2 ^ (- e) <= Zpos p * 2 ^ s / (40 * 2 ^ (e + s))); [|lia].
        apply Z.div_le_lower_bound; [lia|]. rewrite E. nia.
      + left. split; [assumption|].
        assert (2 ^ 52 <= m) by (apply Hn; lia). lia. }
  destruct m as [|m|m]; try lia.
  destruct (e <=? 1024 - 53); [|discriminate].
  intros [= <-]. cbn [math_ceil]. eexists. split; [reflexivity|].
  destruct Hm0 as [[H0 H]|[H0 H]].
  - apply Z.leb_le in H0 as E0. rewrite E0.
    assert (0 < 2 ^ e) by pow_pos. nia.
  - apply Z.leb_gt in H0 as E0. rewrite E0.
    assert (Hpn : 0 < 2 ^ (- e)) by pow_pos.
    assert ((- Zpos m) / 2 ^ (- e) <= - 50); [|lia].
    apply Z.div_le_upper_bound; [lia|]. lia.
Qed.

Lemma ceil_quotient_negative (p : positive) (q : spec_float) :
  int_true_divide (Zneg p) 40 = Ok q ->
  exists c, math_ceil q = Ok c /\ c <= 0.
Proof.
  unfold int_true_divide. cbn [Z.eqb exact_int].
  destruct (b64_div_by_40 true p) as (s & m & e & Hs & He & Hm & Hn & _ & ->).
  assert (0 <= m).
  { etransitivity; [|exact Hm].
    assert (0 < 2 ^ s) by pow_pos.
    assert (0 < 2 ^ (e + s)) by pow_pos.
    apply Z.div_pos; [apply Z.div_pos|]; lia. }
  destruct m as [|m|m]; try lia.
  - intros [= <-]. now exists 0.
  - destruct (e <=? 1024 - 53); [|discriminate].
    intros [= <-]. cbn [math_ceil]. eexists. split; [reflexivity|].
    destruct (0 <=? e) eqn:E0.
    + apply Z.leb_le in E0.
      assert (0 < 2 ^ e) by pow_pos.
      pose proof (Pos2Z.neg_is_neg m). nia.
    + apply Z.leb_gt in E0. change (- Zneg m) with (Zpos m).
      assert (0 <= Zpos m / 2 ^ (- e)); [|lia].
      apply Z.div_pos; [lia|pow_pos].
Qed.

Lemma ceil_quotient_small_check :
  forallb ceil_agrees (map Z.of_nat (seq 0 2001)) = true.
Proof. vm_compute. reflexivity. Qed.

Lemma ceil_quotient_small (n : Z) (q : spec_float) :
  0 <= n <= 2000 ->
  int_true_divide n 40 = Ok q ->
  math_ceil q = Ok (ceil_div n 40).
Proof.
  intros Hn Hq.
  pose proof ceil_quotient_small_check as H.
  rewrite forallb_forall in H. specialize (H n).
  unfold ceil_agrees in H. rewrite Hq in H.
  destruct (math_ceil q) as [c|]; [|].
  - f_equal. apply Z.eqb_eq. apply H.
    apply in_map_iff. exists (Z.to_nat n). split; [lia|]. apply in_seq. lia.
  - assert (false = true); [|discriminate]. apply H.
    apply in_map_iff. exists (Z.to_nat n). split; [lia|]. apply in_seq. lia.
Qed.

Lemma int_true_divide_cases (n : Z) :
  int_true_divide n 40 = Raise OverflowError
  \/ exists q, int_true_divide n 40 = Ok q.
Proof.
  unfold int_true_divide. cbn [Z.eqb].
  destruct (b64_div (exact_int n) (exact_int 40)); eauto.
Qed.

(** Counts below [40 * 2 ^ 1022] in magnitude, far beyond any catalogue,
    have a finite quotient. *)
Lemma int_true_divide_finite (n : Z) :
  Z.abs n < 40 * 2 ^ 1022 -> exists q, int_true_divide n 40 = Ok q.
Proof.
  intros Hn. unfold int_true_divide. cbn [Z.eqb].
  assert (Hsign : forall sx p, Zpos p < 40 * 2 ^ 1022 ->
            exists q, match b64_div (S754_finite sx p 0) (exact_int 40) with
                      | S754_infinity _ => Raise OverflowError
                      | q => Ok q
                      end = Ok q).
  { intros sx p Hp. cbn [exact_int].
    destruct (b64_div_by_40 sx p) as (s & m & e & Hs & He & Hm & Hnorm & Hu & ->).
    destruct m as [|m|m]; eauto.
    destruct (e <=? 1024 - 53) eqn:E; eauto.
    exfalso. apply Z.leb_gt in E.
    assert (Hlt : - s < e) by lia.
    specialize (Hnorm Hlt). specialize (Hu Hlt).
    assert (Hpow : 2 ^ 972 <= 2 ^ e) by (apply Z.pow_le_mono_r; lia).
    assert (H52 : 20 * 2 ^ 52 * 2 ^ 972 <= Zpos p) by nia.
    change (20 * 2 ^ 52 * 2 ^ 972) with (40 * 2 ^ 1023) in H52.
    assert (2 ^ 1022 < 2 ^ 1023) by (apply Z.pow_lt_mono_r; lia).
    lia. }
  destruct n as [|p|p]; cbn [exact_int].
  - now exists (S754_zero false).
  - apply Hsign. lia.
  - apply Hsign. lia.
Qed.

Lemma py_range_empty (a b : Z) : b <= a -> py_range a b = [].
Proof.
  intros H. unfold py_range. now replace (Z.to_nat (b - a)) with O by lia.
Qed.

Lemma py_range_length (a b : Z) : length (py_range a b) = Z.to_nat (b - a).
Proof.
  unfold py_range. now rewrite length_map, length_seq.
Qed.

Lemma py_range_In (a b i : Z) : In i (py_range a b) <-> a <= i < b.
Proof.
  unfold py_range. rewrite in_map_iff. split.
  - intros (k & <- & Hk). apply in_seq in Hk. lia.
  - intros H. exists (Z.to_nat (i - a)). split; [lia|]. apply in_seq. lia.
Qed.

(** The pages after the first, under the cap, are among 2 to 25. *)
Lemma later_pages_small (max_page : Z) :
  max_page <= 25 -> Forall (fun i => Z.abs i < 100) (py_range 2 (max_page + 1)).
Proof.
  intros H. apply Forall_forall. intros i Hi. apply py_range_In in Hi. lia.
Qed.

Lemma clamp_25 (c : Z) : (if 25 <? c then 25 else c) <= 25.
Proof. destruct (25 <? c) eqn:E; [lia|now apply Z.ltb_ge in E]. Qed.

(** The clamped page count computed through floats is the exact one,
    as far as the pages requested go. *)
Lemma ceil_quotient (n : Z) (q : spec_float) :
  int_true_divide n 40 = Ok q ->
  exists c,
    math_ceil q = Ok c
    /\ py_range 2 ((if 25 <? c then 25 else c) + 1) = py_range 2 (max_page_of n + 1)
    /\ (0 <= n -> (if 25 <? c then 25 else c) = max_page_of n).
Proof.
  intros Hq. unfold max_page_of, ceil_div.
  destruct n as [|p|p].
  - rewrite (ceil_quotient_small 0 q) by (auto; lia). eexists. split; [reflexivity|].
    split; reflexivity.
  - destruct (Z_le_gt_dec (Zpos p) 2000) as [Hs|Hl].
    + rewrite (ceil_quotient_small (Zpos p) q) by (auto; lia).
      eexists. split; [reflexivity|]. unfold ceil_div.
      destruct (25 <? - ((- Zpos p) / 40)) eqn:E;
        [apply Z.ltb_lt in E|apply Z.ltb_ge in E].
      * rewrite Z.min_r by lia. split; reflexivity.
      * rewrite Z.min_l by lia. split; reflexivity.
    + destruct (ceil_quotient_large p q) as (c & -> & Hc); [lia|assumption|].
      exists c. split; [reflexivity|].
      assert (E : (25 <? c) = true) by (apply Z.ltb_lt; lia). rewrite E.
      assert ((- Zpos p) / 40 <= - 26) by (apply Z.div_le_upper_bound; lia).
      rewrite Z.min_r by lia. split; reflexivity.
  - destruct (ceil_quotient_negative p q Hq) as (c & -> & Hc).
    exists c. split; [reflexivity|].
    assert (E : (25 <? c) = false) by (apply Z.ltb_ge; lia). rewrite E.
    assert (0 <= (- Zneg p) / 40) by (apply Z.div_pos; lia).
    split; [|lia].
    rewrite !py_range_empty; [reflexivity| |]; lia.
Qed.

(** ** Discovery *)

Lemma permutation_of_nil {A} (l : list A) : Permutation l [] -> l = [].
Proof. intros H. apply Permutation_sym in H. now apply Permutation_nil. Qed.

Section DiscoverProperties.

Variable lib : PyLib.
Variable session : ScrapflyClient.

(** The requests of a discovery run, once the first page has been parsed:
    page 1, then the pages [range(2, max_page + 1)] in one batch. *)
Lemma discover_log (search enc : pystr) (log : list ScrapeConfig)
    (previews : json) (n : Z) (q : spec_float) :
  quote_plus search [] = Ok enc ->
  parse_search lib (async_scrape session (scrape_config (page_url enc 1)))
    = Ok (previews, JInt n) ->
  int_true_divide n 40 = Ok q ->
  discover_walmart lib search session log =
    (log ++ map (fun i => scrape_config (page_url enc i))
                (1 :: py_range 2 (max_page_of n + 1)),
     for_each (extend_previews lib)
       (concurrent_scrape session
          (map (fun i => scrape_config (page_url enc i))
               (py_range 2 (max_page_of n + 1))))
       previews).
Proof.
  intros Henc Hfirst Hq.
  destruct (ceil_quotient n q Hq) as (c & Hc & Hrange & _).
  unfold discover_walmart, io_bind, lift, await_scrape, await_concurrent.
  rewrite (create_search_url_default search enc Henc), Hfirst.
  cbn [py_truediv]. rewrite Hq, Hc, Hrange.
  rewrite (map_py_page_urls search enc _ Henc
             (later_pages_small (max_page_of n) (Z.le_min_r (ceil_div n 40) 25))).
  rewrite map_map, <- app_assoc. cbn [map app].
  now destruct (for_each _ _ _).
Qed.

Lemma parse_search_absent (r : ScrapeApiResponse) :
  next_data_text r = None -> parse_search lib r = Ok (JObj [], JInt 0).
Proof. intros H. unfold parse_search. now rewrite H. Qed.

Lemma max_page_of_small (n : Z) : n <= 40 -> max_page_of n <= 1.
Proof.
  intros H. unfold max_page_of, ceil_div.
  assert (- 1 <= (- n) / 40) by (apply Z.div_le_lower_bound; lia). lia.
Qed.

Lemma map_py_length {A B} (f : A -> pyresult B) (l : list A) (l' : list B) :
  map_py f l = Ok l' -> length l' = length l.
Proof.
  revert l'; induction l as [|a l IH]; intros l'; cbn [map_py].
  - now intros [= <-].
  - destruct (f a) as [b|]; [cbn [bind]|discriminate].
    destruct (map_py f l) as [bs|]; [cbn [bind]|discriminate].
    intros [= <-]. cbn [length]. now rewrite (IH bs).
Qed.

(** Whatever the first page reports, a discovery run hands the fetch
    client at most 25 requests. *)
Lemma discover_at_most_25 (search : pystr) (log : list ScrapeConfig) :
  (length (fst (discover_walmart lib search session log)) <= length log + 25)%nat.
Proof.
  unfold discover_walmart, io_bind, lift, await_scrape, await_concurrent.
  destruct (create_search_url search None None) as [first_url|]; [|cbn; lia].
  destruct (parse_search lib _) as [[previews total_items]|];
    [|cbn [fst]; rewrite length_app; cbn; lia].
  destruct (py_truediv total_items 40) as [q|];
    [|cbn [fst]; rewrite length_app; cbn; lia].
  destruct (math_ceil q) as [c|];
    [|cbn [fst]; rewrite length_app; cbn; lia].
  set (max_page := if 25 <? c then 25 else c).
  assert (Hmax : max_page <= 25).
  { unfold max_page. destruct (25 <? c) eqn:E; [lia|]. now apply Z.ltb_ge in E. }
  destruct (map_py _ (py_range 2 (max_page + 1))) as [urls|] eqn:Hurls;
    [|cbn [fst]; rewrite length_app; cbn; lia].
  apply map_py_length in Hurls. rewrite py_range_length in Hurls.
  assert (Hlen : (length ((log ++ [scrape_config first_url])
                          ++ map scrape_config urls) <= length log + 25)%nat).
  { rewrite !length_app, length_map, Hurls. cbn [length]. lia. }
  now destruct (for_each _ _ _).
Qed.

(** C1 (amended). A discovery run never requests more than 25 search
    pages, whatever the first page reports.  For every integer total
    count [n] of page 1 whose quotient by 40 is a finite double, as it
    is for every [n] below [40 * 2 ^ 1022] in magnitude, the requests
    are page 1 followed by exactly the pages 2 to
    [min (ceil (n / 40)) 25], none when that bound is at most 1.  For
    [n >= 0] the bound is the page bound the code computes; for [n < 0]
    the computed bound and the exact one are both at most 0, which asks
    for no further page either way.  So there are 24 more pages for
    [n = 1050] and none for [n <= 40]. *)
Theorem discover_requests_pages (search : pystr) (log : list ScrapeConfig) :
  (length (fst (discover_walmart lib search session log)) <= length log + 25)%nat
  /\ (forall n, Z.abs n < 40 * 2 ^ 1022 ->
        int_true_divide n 40 <> Raise OverflowError)
  /\ forall enc previews n,
      quote_plus search [] = Ok enc ->
      parse_search lib (async_scrape session (scrape_config (page_url enc 1)))
        = Ok (previews, JInt n) ->
      int_true_divide n 40 <> Raise OverflowError ->
      exists c others,
        (q <- py_truediv (JInt n) 40;; math_ceil q) = Ok c
        /\ (0 <= n -> (if 25 <? c then 25 else c) = max_page_of n)
        /\ (n < 0 -> (if 25 <? c then 25 else c) <= 0 /\ max_page_of n <= 0)
        /\ fst (discover_walmart lib search session log) =
             log ++ map (fun i => scrape_config (page_url enc i)) (1 :: others)
        /\ others = py_range 2 ((if 25 <? c then 25 else c) + 1)
        /\ others = py_range 2 (max_page_of n + 1)
        /\ (forall i, In i others <-> 2 <= i <= max_page_of n)
        /\ length others = Z.to_nat (max_page_of n - 1)
        /\ (max_page_of n <= 1 -> others = [])
        /\ (n = 1050 -> max_page_of n = 25 /\ length others = 24%nat)
        /\ (n <= 40 -> others = []).
Proof.
  split; [apply discover_at_most_25|].
  split.
  { intros n Hn Hov. destruct (int_true_divide_finite n Hn) as [q Hq].
    rewrite Hq in Hov. discriminate. }
  intros enc previews n Henc Hfirst Hfin.
  destruct (int_true_divide_cases n) as [Hov|[q Hq]]; [contradiction|].
  destruct (ceil_quotient n q Hq) as (c & Hc & Hrange & Hclamp).
  exists c, (py_range 2 (max_page_of n + 1)).
  rewrite (discover_log search enc log previews n q Henc Hfirst Hq).
  assert (Hmax : max_page_of n <= 25) by (unfold max_page_of; lia).
  assert (Hlen : length (py_range 2 (max_page_of n + 1)) = Z.to_nat (max_page_of n - 1)).
  { rewrite py_range_length. f_equal. lia. }
  split; [cbn [py_truediv]; now rewrite Hq|].
  split; [exact Hclamp|].
  split.
  { intros Hneg. destruct n as [|p|p]; try lia.
    destruct (ceil_quotient_negative p q Hq) as (c' & E & Hc').
    rewrite Hc in E. injection E as <-.
    assert (E : (25 <? c) = false) by (apply Z.ltb_ge; lia). rewrite E.
    split; [exact Hc'|]. unfold max_page_of, ceil_div.
    assert (0 <= (- Zneg p) / 40) by (apply Z.div_pos; lia). lia. }
  split; [reflexivity|]. split; [now rewrite Hrange|]. split; [reflexivity|].
  split; [intros i; rewrite py_range_In; lia|].
  split; [exact Hlen|].
  split; [intros Hle; apply py_range_empty; lia|].
  split; [intros ->; split; reflexivity|].
  intros Hle. apply py_range_empty. pose proof (max_page_of_small n Hle). lia.
Qed.

(** C9. When the first search page has no blob, discovery requests that
    page only and returns the empty collection of the no-data branch, an
    empty dict, without raising: the batch of further pages is empty, so
    the loop that would call [extend] on it never runs. *)
Theorem discover_without_blob (search enc : pystr) (log : list ScrapeConfig) :
  delivers session ->
  quote_plus search [] = Ok enc ->
  next_data_text (async_scrape session (scrape_config (page_url enc 1))) = None ->
  discover_walmart lib search session log =
    (log ++ [scrape_config (page_url enc 1)], Ok (JObj []))
  /\ py_iter (JObj []) = Ok []
  /\ raises (py_extend (JObj [])).
Proof.
  intros Hdel Henc Hnone.
  assert (Hq : int_true_divide 0 40 = Ok (S754_zero false)) by reflexivity.
  rewrite (discover_log search enc log (JObj []) 0 (S754_zero false) Henc
             (parse_search_absent _ Hnone) Hq).
  change (py_range 2 (max_page_of 0 + 1)) with (@nil Z). cbn [map].
  rewrite (permutation_of_nil _ (Hdel [])). cbn [for_each].
  repeat split. now exists AttributeError.
Qed.

End DiscoverProperties.

(** ** Collection *)

Lemma permutation_filter {A} (f : A -> bool) (l l' : list A) :
  Permutation l l' -> Permutation (filter f l) (filter f l').
Proof.
  induction 1 as [|x l l' _ IH|x y l|l l' l'' _ IH1 _ IH2]; cbn [filter].
  - constructor.
  - destruct (f x); [now constructor|assumption].
  - destruct (f x), (f y); try reflexivity. constructor.
  - now transitivity (filter f l').
Qed.

Section CollectProperties.

Variable lib : PyLib.
Variable session : ScrapflyClient.

Lemma parse_product_record (r : ScrapeApiResponse) (v : json) :
  has_blob r = true -> parse_product lib r = Ok v -> is_not_None v = true.
Proof.
  unfold has_blob, parse_product.
  destruct (next_data_text r) as [text|]; [intros _|discriminate].
  destruct (json_loads lib text) as [data|]; [cbn [bind]|discriminate].
  destruct (getpath data product_path) as [raw|]; [cbn [bind]|discriminate].
  destruct (py_items raw) as [items|]; [cbn [bind]|discriminate].
  destruct (getpath data reviews_path) as [reviews|]; [cbn [bind]|discriminate].
  now intros [= <-].
Qed.

Lemma parse_product_absent (r : ScrapeApiResponse) :
  has_blob r = false -> parse_product lib r = Ok JNull.
Proof.
  unfold has_blob, parse_product.
  now destruct (next_data_text r).
Qed.

Lemma collect_loop (pages : list ScrapeApiResponse) (acc : list json) :
  Forall (fun r => exists v, parse_product lib r = Ok v) pages ->
  for_each (append_product lib) pages acc = Ok (acc ++ records_of lib pages).
Proof.
  intros H. revert acc.
  induction H as [|r pages [v Hv] _ IH]; intros acc; cbn [for_each records_of flat_map].
  - now rewrite app_nil_r.
  - unfold append_product at 1. rewrite Hv. cbn [bind].
    fold (records_of lib pages). rewrite IH.
    destruct (is_not_None v); [now rewrite <- app_assoc|reflexivity].
Qed.

Lemma records_of_blobs (pages : list ScrapeApiResponse) :
  Forall (fun r => exists v, parse_product lib r = Ok v) pages ->
  map Ok (records_of lib pages) = map (parse_product lib) (filter has_blob pages)
  /\ Forall (fun v => is_not_None v = true) (records_of lib pages).
Proof.
  induction 1 as [|r pages [v Hv] _ [IH1 IH2]];
    cbn [records_of flat_map filter map]; [now split|].
  fold (records_of lib pages). rewrite Hv.
  destruct (has_blob r) eqn:Hb.
  - rewrite (parse_product_record r v Hb Hv). cbn [app map].
    rewrite Hv, IH1. split; [reflexivity|]. constructor; [|assumption].
    exact (parse_product_record r v Hb Hv).
  - pose proof (parse_product_absent r Hb) as Hn. rewrite Hv in Hn.
    injection Hn as ->. cbn [is_not_None app]. now split.
Qed.

(** C3. With a session that serves fixed documents, once discovery has
    produced the previews and each preview's canonical URL has been
    resolved against the base URL, [scrape_walmart] requests exactly the
    resolved product URLs and returns, in arrival order, one record for
    each preview whose product page carries the blob and nothing for a
    preview whose page does not. *)
Theorem scrape_walmart_collects
    (search : pystr) (log log' : list ScrapeConfig) (found : json)
    (previews : list json) (urls : list pystr) :
  delivers session ->
  discover_walmart lib search session log = (log', Ok found) ->
  py_iter found = Ok previews ->
  map_py (product_url lib) previews = Ok urls ->
  Forall (fun r => exists v, parse_product lib r = Ok v)
         (map (fun u => async_scrape session (scrape_config u)) urls) ->
  exists records,
    scrape_walmart lib search session log =
      (log' ++ map scrape_config urls, Ok records)
    /\ Permutation
         (map Ok records)
         (map (parse_product lib)
              (filter has_blob
                 (map (fun u => async_scrape session (scrape_config u)) urls)))
    /\ length records =
       length (filter has_blob
                 (map (fun u => async_scrape session (scrape_config u)) urls))
    /\ Forall (fun v => is_not_None v = true) records.
Proof.
  intros Hdel Hdisc Hiter Hurls Hpages.
  set (pages := map (fun u => async_scrape session (scrape_config u)) urls) in *.
  set (batch := concurrent_scrape session (map scrape_config urls)).
  assert (Hperm : Permutation batch pages).
  { unfold batch, pages. rewrite <- (map_map scrape_config (async_scrape session)).
    apply Hdel. }
  assert (Hbatch : Forall (fun r => exists v, parse_product lib r = Ok v) batch).
  { eapply Permutation_Forall; [apply Permutation_sym; exact Hperm|exact Hpages]. }
  exists (records_of lib batch).
  destruct (records_of_blobs batch Hbatch) as [Hmap Hnot].
  split; [|split; [|split]].
  - unfold scrape_walmart, io_bind, lift. rewrite Hdisc, Hiter. cbn [bind].
    rewrite Hurls. unfold _scrape_products_by_url, io_bind, await_concurrent, lift.
    fold batch. now rewrite (collect_loop batch [] Hbatch).
  - rewrite Hmap. apply Permutation_map, permutation_filter, Hperm.
  - rewrite <- (length_map (@Ok json)), Hmap, length_map.
    apply Permutation_length, permutation_filter, Hperm.
  - exact Hnot.
Qed.

End CollectProperties.

(** ** Percent-encoding of the query *)

Lemma lor_below (a b n : Z) :
  0 <= n -> 0 <= a < 2 ^ n -> 0 <= b < 2 ^ n -> 0 <= Z.lor a b < 2 ^ n.
Proof.
  intros Hn Ha Hb. split; [apply Z.lor_nonneg; lia|].
  destruct (Z.eq_dec (Z.lor a b) 0) as [->|Hz]; [pow_pos|].
  assert (0 <= Z.lor a b) by (apply Z.lor_nonneg; lia).
  assert (0 < n).
  { destruct (Z.eq_dec n 0) as [->|]; [|lia].
    exfalso. apply Hz. replace a with 0 by lia. now replace b with 0 by lia. }
  apply Z.log2_lt_pow2; [lia|].
  rewrite Z.log2_lor by lia.
  apply Z.max_lub_lt.
  - destruct (Z.eq_dec a 0) as [->|]; [cbn; lia|]. apply Z.log2_lt_pow2; lia.
  - destruct (Z.eq_dec b 0) as [->|]; [cbn; lia|]. apply Z.log2_lt_pow2; lia.
Qed.

Lemma continuation_byte (x : Z) : 0 <= Z.lor 0x80 (Z.land x 0x3F) < 256.
Proof.
  apply (lor_below 0x80 (Z.land x 0x3F) 8); [lia|lia|].
  change 0x3F with (Z.ones 6). rewrite Z.land_ones by lia.
  pose proof (Z.mod_pos_bound x (2 ^ 6)). lia.
Qed.

Lemma lead_byte (lead x : Z) :
  0 <= lead < 256 -> 0 <= x < 256 -> 0 <= Z.lor lead x < 256.
Proof. intros. now apply (lor_below lead x 8). Qed.

Lemma utf8_char_bytes (c : Z) :
  scalar_value c ->
  exists bs, utf8_char c = Ok bs /\ Forall (fun b => 0 <= b < 256) bs.
Proof.
  intros [[Hlo Hhi] Hsur]. unfold utf8_char. rewrite Hsur.
  assert (Hshift : forall k, 0 <= k -> c < 2 ^ k * 256 -> 0 <= Z.shiftr c k < 256).
  { intros k Hk Hc. rewrite Z.shiftr_div_pow2 by lia.
    assert (0 < 2 ^ k) by pow_pos.
    split; [apply Z.div_pos; lia|apply Z.div_lt_upper_bound; lia]. }
  assert (Hcont : forall x, Forall (fun b => 0 <= b < 256) [Z.lor 0x80 (Z.land x 0x3F)]).
  { intros x. apply Forall_cons; [apply continuation_byte|apply Forall_nil]. }
  destruct (c <? 0x80) eqn:E1; [apply Z.ltb_lt in E1|apply Z.ltb_ge in E1].
  - eexists. split; [reflexivity|]. apply Forall_cons; [lia|apply Forall_nil].
  - destruct (c <? 0x800) eqn:E2; [apply Z.ltb_lt in E2|apply Z.ltb_ge in E2].
    + eexists. split; [reflexivity|].
      apply Forall_cons; [|apply Hcont].
      apply lead_byte; [lia|]. apply Hshift; [lia|]. cbn. lia.
    + destruct (c <? 0x10000) eqn:E3; [apply Z.ltb_lt in E3|apply Z.ltb_ge in E3].
      * eexists. split; [reflexivity|].
        apply Forall_cons; [|apply Forall_cons; [apply continuation_byte|apply Hcont]].
        apply lead_byte; [lia|]. apply Hshift; [lia|]. cbn. lia.
      * eexists. split; [reflexivity|].
        apply Forall_cons;
          [|apply Forall_cons; [apply continuation_byte|
             apply Forall_cons; [apply continuation_byte|apply Hcont]]].
        apply lead_byte; [lia|]. apply Hshift; [lia|]. cbn. lia.
Qed.

Lemma utf8_encode_bytes (s : pystr) :
  encodable s ->
  exists bs, utf8_encode s = Ok bs /\ Forall (fun b => 0 <= b < 256) bs.
Proof.
  induction 1 as [|c s Hc _ (bs & IH & Hbs)]; [now exists []|].
  destruct (utf8_char_bytes c Hc) as (cs & E & Hcs).
  exists (cs ++ bs). cbn [utf8_encode]. rewrite E, IH. split; [reflexivity|].
  apply Forall_app. now split.
Qed.

Lemma nibble_cases (d : Z) :
  0 <= d < 16 ->
  d = 0 \/ d = 1 \/ d = 2 \/ d = 3 \/ d = 4 \/ d = 5 \/ d = 6 \/ d = 7 \/
  d = 8 \/ d = 9 \/ d = 10 \/ d = 11 \/ d = 12 \/ d = 13 \/ d = 14 \/ d = 15.
Proof. lia. Qed.

Lemma hex_digit_value (d : Z) :
  0 <= d < 16 ->
  hex_value (hex_digit d) = Some d
  /\ always_safe (hex_digit d) = true
  /\ hex_digit d <> code " ".
Proof.
  intros H. apply nibble_cases in H.
  repeat (destruct H as [->|H]; [repeat split; discriminate|]).
  subst d. repeat split; discriminate.
Qed.

Lemma unquote_quoted_byte (b : Z) (t rest : pystr) :
  0 <= b < 256 -> quoted_byte b t ->
  unquote_plus (t ++ rest) =
    match unquote_plus rest with
    | Some bs => Some (b :: bs)
    | None => None
    end
  /\ forallb query_safe t = true.
Proof.
  intros Hb [[-> Hs] | [[-> ->] | ->]].
  - pose proof (always_safe_plain b Hs) as Hr.
    cbn [app unquote_plus forallb].
    assert (E1 : (b =? code "%") = false).
    { apply Z.eqb_neq. intros ->. discriminate. }
    assert (E2 : (b =? code "+") = false).
    { apply Z.eqb_neq. intros ->. discriminate. }
    rewrite E1, E2. unfold query_safe. rewrite Hs. now split.
  - split; reflexivity.
  - assert (H1 : 0 <= b / 16 < 16).
    { split; [apply Z.div_pos; lia|apply Z.div_lt_upper_bound; lia]. }
    assert (H2 : 0 <= b mod 16 < 16) by (apply Z.mod_pos_bound; lia).
    destruct (hex_digit_value (b / 16) H1) as (V1 & S1 & _).
    destruct (hex_digit_value (b mod 16) H2) as (V2 & S2 & _).
    cbn [app unquote_plus forallb]. rewrite Z.eqb_refl, V1, V2.
    rewrite <- (Z.div_mod b 16) by lia.
    unfold query_safe at 2 3. rewrite S1, S2. now split.
Qed.

Lemma unquote_quoted (bs : list Z) (ts : list pystr) :
  Forall (fun b => 0 <= b < 256) bs ->
  Forall2 quoted_byte bs ts ->
  unquote_plus (concat ts) = Some bs /\ forallb query_safe (concat ts) = true.
Proof.
  intros Hbs H. induction H as [|b t bs ts Hq _ IH]; [now split|].
  inversion Hbs as [|? ? Hb Hbs']; subst.
  destruct (IH Hbs') as [IH1 IH2].
  destruct (unquote_quoted_byte b t (concat ts) Hb Hq) as [E S].
  cbn [concat]. rewrite E, IH1, forallb_app, S, IH2. now split.
Qed.

Lemma quoter_plain (bs : list Z) :
  Forall2 quoted_byte bs (map (quoter []) bs).
Proof.
  induction bs as [|b bs IH]; constructor; [|assumption].
  unfold quoter, quoted_byte. cbn [char_in existsb]. rewrite orb_false_r.
  destruct (always_safe b); auto.
Qed.

Lemma quoter_space (bs : list Z) :
  Forall (fun b => 0 <= b < 256) bs ->
  Forall2 quoted_byte bs (map (fun b => spaces_to_plus (quoter (lit " ") b)) bs).
Proof.
  induction 1 as [|b bs Hb _ IH]; constructor; [|assumption].
  unfold quoter, quoted_byte, char_in. cbn [lit list_ascii_of_string map existsb].
  rewrite orb_false_r.
  destruct (always_safe b) eqn:Hs; cbn [orb].
  - left. pose proof (always_safe_plain b Hs).
    unfold spaces_to_plus. cbn [map].
    assert (E : (b =? code " ") = false) by (apply Z.eqb_neq; cbn; lia).
    now rewrite E.
  - destruct (b =? code " ") eqn:E.
    + right. left. apply Z.eqb_eq in E. subst b. now split.
    + right. right.
      assert (H1 : 0 <= b / 16 < 16).
      { split; [apply Z.div_pos; lia|apply Z.div_lt_upper_bound; lia]. }
      assert (H2 : 0 <= b mod 16 < 16) by (apply Z.mod_pos_bound; lia).
      destruct (hex_digit_value (b / 16) H1) as (_ & _ & N1).
      destruct (hex_digit_value (b mod 16) H2) as (_ & _ & N2).
      unfold spaces_to_plus. cbn [map].
      apply Z.eqb_neq in N1, N2. now rewrite N1, N2.
Qed.

Lemma spaces_to_plus_flat_map (f : Z -> pystr) (bs : list Z) :
  spaces_to_plus (flat_map f bs) = concat (map (fun b => spaces_to_plus (f b)) bs).
Proof.
  induction bs as [|b bs IH]; [reflexivity|].
  cbn [flat_map map concat]. unfold spaces_to_plus in *.
  now rewrite map_app, IH.
Qed.

(** Quoting an encodable string succeeds, and decoding the result gives
    back the UTF-8 bytes of the string. *)
Lemma quote_plus_round_trip (q : pystr) :
  encodable q ->
  exists enc bytes,
    quote_plus q [] = Ok enc
    /\ utf8_encode q = Ok bytes
    /\ unquote_plus enc = Some bytes
    /\ forallb query_safe enc = true.
Proof.
  intros Hq. destruct (utf8_encode_bytes q Hq) as (bs & Hbs & Hrange).
  unfold quote_plus, quote. rewrite Hbs. cbn [bind app].
  destruct (char_in (code " ") q); cbn [negb].
  - exists (spaces_to_plus (flat_map (quoter (lit " ")) bs)), bs.
    rewrite spaces_to_plus_flat_map.
    destruct (unquote_quoted bs _ Hrange (quoter_space bs Hrange)) as [E S].
    auto.
  - exists (flat_map (quoter []) bs), bs. rewrite flat_map_concat_map.
    destruct (unquote_quoted bs _ Hrange (quoter_plain bs)) as [E S].
    auto.
Qed.

(** C8 (amended). For every query string made of Unicode scalar values
    (no lone surrogate), [create_search_url q 1 "price_low"] returns the
    absolute search URL whose query part is [q=<enc>] followed by
    [sort=price_low], [page=1] and [affinityOverride=default], where
    [enc] is the percent-encoding of [q]: it decodes to the UTF-8 bytes
    of [q] and is made of unreserved characters, [%] and [+].  Leaving
    page and sort out gives the same URL. *)
Theorem create_search_url_encodes (q : pystr) :
  encodable q ->
  exists enc bytes,
    create_search_url q (Some 1) (Some (lit "price_low")) =
      Ok (lit "https://www.walmart.com/search?q=" ++ enc
          ++ lit "&sort=price_low&page=1&affinityOverride=default")
    /\ create_search_url q None None =
       create_search_url q (Some 1) (Some (lit "price_low"))
    /\ utf8_encode q = Ok bytes
    /\ unquote_plus enc = Some bytes
    /\ forallb query_safe enc = true.
Proof.
  intros Hq.
  destruct (quote_plus_round_trip q Hq) as (enc & bytes & Henc & Hbytes & Hdec & Hsafe).
  exists enc, bytes.
  rewrite (create_search_url_default q enc Henc).
  rewrite (create_search_url_page q enc 1 (Some (lit "price_low")) Henc
             (or_intror eq_refl) (page_digits 1 eq_refl)).
  repeat split; assumption.
Qed.

(** ** URL resolution *)

Lemma filter_all {A} (f : A -> bool) (l : list A) :
  forallb f l = true -> filter f l = l.
Proof.
  induction l as [|x l IH]; cbn [forallb filter]; [reflexivity|].
  rewrite andb_true_iff. intros [-> H]. now rewrite IH.
Qed.

Lemma forallb_weaken {A} (f g : A -> bool) (l : list A) :
  (forall x, f x = true -> g x = true) ->
  forallb f l = true -> forallb g l = true.
Proof.
  intros Hfg. rewrite !forallb_forall. auto.
Qed.

Lemma char_in_absent (c : Z) (s : pystr) :
  forallb (fun x => negb (x =? c)) s = true -> char_in c s = false.
Proof.
  intros H. unfold char_in. apply not_true_is_false. rewrite existsb_exists.
  intros (x & Hx & E). rewrite forallb_forall in H. specialize (H x Hx).
  rewrite Z.eqb_sym in E. now rewrite E in H.
Qed.

Lemma forallb_char_absent (f : Z -> bool) (c : Z) (s : pystr) :
  f c = false -> forallb f s = true -> char_in c s = false.
Proof.
  intros Hc H. apply char_in_absent. revert H. apply forallb_weaken.
  intros x Hx. apply negb_true_iff, Z.eqb_neq. intros ->. congruence.
Qed.

Lemma char_in_app (c : Z) (s t : pystr) :
  char_in c (s ++ t) = char_in c s || char_in c t.
Proof. unfold char_in. apply existsb_app. Qed.

Lemma join_cons (sep p q : pystr) (rest : list pystr) :
  join sep (p :: q :: rest) = p ++ sep ++ join sep (q :: rest).
Proof. reflexivity. Qed.

Lemma join_split (c : Z) (s : pystr) : join [c] (split c s) = s.
Proof.
  induction s as [|x s IH]; [reflexivity|].
  cbn [split]. destruct (split c s) as [|part parts] eqn:E.
  - cbn in IH. now subst s.
  - destruct (x =? c) eqn:Ex.
    + apply Z.eqb_eq in Ex. subst x. now rewrite join_cons, IH.
    + destruct parts as [|p2 parts].
      * cbn [join] in *. now subst s.
      * rewrite join_cons in *. cbn [app] in *. now f_equal.
Qed.

Lemma split_nonempty (c : Z) (s : pystr) : split c s <> [].
Proof.
  destruct s as [|x s]; cbn [split]; [discriminate|].
  destruct (split c s); [discriminate|]. now destruct (x =? c).
Qed.

Lemma resolve_plain (segments resolved : list pystr) :
  forallb (fun s => negb (dot_segment s)) segments = true ->
  resolve_segments segments resolved = rev resolved ++ segments.
Proof.
  revert resolved; induction segments as [|seg segments IH]; intros resolved;
    cbn [forallb resolve_segments].
  - now rewrite app_nil_r.
  - rewrite andb_true_iff. intros [Hseg H].
    unfold dot_segment, str_mem in Hseg. cbn [existsb] in Hseg.
    rewrite orb_false_r, negb_orb, andb_true_iff, !negb_true_iff in Hseg.
    destruct Hseg as [-> ->]. rewrite IH by assumption.
    cbn [rev]. now rewrite <- app_assoc.
Qed.

Lemma last_plain (segments : list pystr) :
  segments <> [] ->
  forallb (fun s => negb (dot_segment s)) segments = true ->
  dot_segment (last segments []) = false.
Proof.
  intros Hne H. rewrite forallb_forall in H.
  apply negb_true_iff, H.
  destruct (exists_last Hne) as (l & x & ->). rewrite last_last.
  apply in_or_app. right. now left.
Qed.

Lemma find_first (c : Z) (s t : pystr) :
  char_in c s = false -> find c (s ++ c :: t) = Some (length s).
Proof.
  induction s as [|x s IH]; cbn [app find length char_in existsb].
  - now rewrite Z.eqb_refl.
  - rewrite orb_false_iff. intros [Hx Hs]. rewrite Z.eqb_sym, Hx.
    unfold char_in in IH. now rewrite IH.
Qed.

Lemma firstn_exact {A} (s t : list A) : firstn (length s) (s ++ t) = s.
Proof.
  induction s as [|x s IH]; cbn [length app firstn]; [now destruct t|].
  now rewrite IH.
Qed.

Lemma skipn_past {A} (s t : list A) (x : A) :
  skipn (S (length s)) (s ++ x :: t) = t.
Proof.
  induction s as [|y s IH]; [reflexivity|exact IH].
Qed.

Lemma split_at_mark (c : Z) (s t : pystr) :
  char_in c s = false -> split_at c (s ++ c :: t) = (s, t).
Proof.
  intros H. unfold split_at, split_once.
  rewrite char_in_app. cbn [char_in existsb]. rewrite Z.eqb_refl, orb_true_r.
  now rewrite (find_first c s t H), firstn_exact, skipn_past.
Qed.

Lemma split_at_none (c : Z) (s : pystr) :
  char_in c s = false -> split_at c s = (s, []).
Proof. intros H. unfold split_at. now rewrite H. Qed.

Lemma until_delim_app (n t : pystr) :
  forallb (fun c => negb (char_in c (lit "/?#"))) n = true ->
  until_delim t = ([], t) ->
  until_delim (n ++ t) = (n, t).
Proof.
  intros Hn Ht. induction n as [|c n IH]; cbn [app]; [exact Ht|].
  cbn [forallb] in Hn. rewrite andb_true_iff, negb_true_iff in Hn.
  destruct Hn as [Hc Hn]. cbn [until_delim]. now rewrite Hc, (IH Hn).
Qed.

Lemma lower_fixed (s : pystr) :
  forallb (fun c => negb (is_upper c)) s = true -> lower s = s.
Proof.
  induction s as [|c s IH]; cbn [forallb lower map]; [reflexivity|].
  rewrite andb_true_iff, negb_true_iff. intros [-> H].
  f_equal. now apply IH.
Qed.

Lemma starts_with_slash (p : pystr) :
  starts_with (lit "/") p = true -> exists rest, p = code "/" :: rest.
Proof.
  destruct p as [|c rest]; [discriminate|].
  unfold starts_with. cbn [length lit list_ascii_of_string map firstn str_eqb].
  rewrite andb_true_iff, Z.eqb_eq. intros [-> _]. now exists rest.
Qed.

(** The query and fragment of a URL written [path?query#fragment]. *)
Lemma plain_path_facts (p : pystr) :
  forallb plain_char p = true ->
  forallb kept_char p = true
  /\ char_in (code "#") p = false /\ char_in (code "?") p = false
  /\ char_in (code ";") p = false.
Proof.
  intros H. split; [|repeat split].
  - revert H. apply forallb_weaken. intros c. unfold plain_char.
    now rewrite andb_true_iff.
  - revert H. now apply forallb_char_absent.
  - revert H. now apply forallb_char_absent.
  - revert H. now apply forallb_char_absent.
Qed.

Lemma valid_query_facts (q : option pystr) :
  valid_query q = true ->
  forallb kept_char (suffix "?" q) = true
  /\ char_in (code "#") (suffix "?" q) = false
  /\ nonempty (part_or_empty q) = match q with Some _ => true | None => false end.
Proof.
  destruct q as [s|]; cbn [valid_query suffix part_or_empty]; [|now repeat split].
  rewrite andb_true_iff. intros [Hne H]. split; [|split; [|exact Hne]].
  - change (lit "?" ++ s) with (code "?" :: s). cbn [forallb].
    rewrite andb_true_iff. split; [reflexivity|].
    revert H. apply forallb_weaken. intros c. unfold query_char.
    now rewrite andb_true_iff.
  - change (lit "?" ++ s) with (code "?" :: s). cbn [char_in existsb].
    rewrite orb_false_iff. split; [reflexivity|].
    revert H. apply forallb_char_absent. unfold query_char.
    now rewrite Z.eqb_refl, andb_false_r.
Qed.

Lemma valid_fragment_facts (f : option pystr) :
  valid_fragment f = true ->
  forallb kept_char (suffix "#" f) = true
  /\ nonempty (part_or_empty f) = match f with Some _ => true | None => false end.
Proof.
  destruct f as [s|]; cbn [valid_fragment suffix part_or_empty]; [|now split].
  rewrite andb_true_iff. intros [Hne H]. split; [|exact Hne].
  change (lit "#" ++ s) with (code "#" :: s). cbn [forallb].
  rewrite andb_true_iff. now split.
Qed.

Lemma split_tail (p : pystr) (q f : option pystr) :
  forallb plain_char p = true -> valid_query q = true -> valid_fragment f = true ->
  split_at (code "#") (p ++ suffix "?" q ++ suffix "#" f)
    = (p ++ suffix "?" q, part_or_empty f)
  /\ split_at (code "?") (p ++ suffix "?" q) = (p, part_or_empty q).
Proof.
  intros Hp Hq Hf.
  destruct (plain_path_facts p Hp) as (_ & Hp1 & Hp2 & _).
  destruct (valid_query_facts q Hq) as (_ & Hq1 & _).
  assert (Hpq : char_in (code "#") (p ++ suffix "?" q) = false).
  { now rewrite char_in_app, Hp1, Hq1. }
  split.
  - destruct f as [s|]; cbn [suffix part_or_empty].
    + rewrite app_assoc. change (lit "#" ++ s) with (code "#" :: s).
      now apply split_at_mark.
    + rewrite app_nil_r. now apply split_at_none.
  - destruct q as [s|]; cbn [suffix part_or_empty].
    + change (lit "?" ++ s) with (code "?" :: s). now apply split_at_mark.
    + rewrite app_nil_r. now apply split_at_none.
Qed.

(** Reassembly of [scheme://netloc], a path, a query and a fragment. *)
Lemma urlunparse_parts (scheme netloc path : pystr) (q f : option pystr) :
  nonempty scheme = true -> nonempty netloc = true ->
  nonempty path = false \/ starts_with (lit "/") path = true ->
  valid_query q = true -> valid_fragment f = true ->
  urlunparse {| p_scheme := scheme; p_netloc := netloc; p_path := path;
                p_params := []; p_query := part_or_empty q;
                p_fragment := part_or_empty f |}
  = scheme ++ lit "://" ++ netloc ++ path ++ suffix "?" q ++ suffix "#" f.
Proof.
  intros Hs Hn Hp Hq Hf. unfold urlunparse.
  cbn [p_scheme p_netloc p_path p_params p_query p_fragment].
  change (nonempty []) with false. cbv iota.
  unfold urlunsplit. rewrite Hn, Hs. cbv zeta. cbn [orb].
  assert (E : nonempty path && negb (starts_with (lit "/") path) = false).
  { destruct Hp as [->| ->]; [reflexivity|apply andb_false_r]. }
  rewrite E.
  destruct (valid_query_facts q Hq) as (_ & _ & ->).
  destruct (valid_fragment_facts f Hf) as (_ & ->).
  destruct q as [qs|], f as [fs|]; cbn [suffix part_or_empty];
    rewrite <- ?app_assoc, ?app_nil_r; reflexivity.
Qed.

Section ResolutionProperties.

Variable lib : PyLib.

Lemma urlparse_base :
  urlparse lib base_url [] =
    Ok {| p_scheme := lit "https"; p_netloc := lit "www.walmart.com";
          p_path := lit "/"; p_params := []; p_query := []; p_fragment := [] |}.
Proof. reflexivity. Qed.

Lemma urlsplit_site_relative (p : pystr) (q f : option pystr) :
  site_relative p = true -> valid_query q = true -> valid_fragment f = true ->
  urlsplit lib (p ++ suffix "?" q ++ suffix "#" f) (lit "https")
  = Ok (lit "https", [], p, part_or_empty q, part_or_empty f).
Proof.
  unfold site_relative. rewrite !andb_true_iff, negb_true_iff.
  intros [[[Hs Hss] Hplain] _] Hq Hf.
  destruct (starts_with_slash p Hs) as [rest ->].
  set (p := code "/" :: rest) in *.
  set (u := p ++ suffix "?" q ++ suffix "#" f).
  destruct (plain_path_facts p Hplain) as (Hk & _).
  destruct (valid_query_facts q Hq) as (Hqk & _).
  destruct (valid_fragment_facts f Hf) as (Hfk & _).
  unfold urlsplit.
  change (lstrip_c0 u) with u.
  change (remove_unsafe (strip_c0 (lit "https"))) with (lit "https").
  assert (Hsafe : remove_unsafe u = u).
  { apply filter_all. change (forallb kept_char u = true).
    unfold u. now rewrite !forallb_app, Hk, Hqk, Hfk. }
  rewrite Hsafe.
  assert (Hscheme : split_scheme u (lit "https") = (lit "https", u)).
  { unfold split_scheme.
    destruct (find (code ":") u) as [i|]; [|reflexivity].
    change (hd 0 u) with (code "/"). change (is_ascii_alpha (code "/")) with false.
    now rewrite andb_false_r. }
  rewrite Hscheme.
  assert (Hnet : split_netloc lib u = Ok ([], u)).
  { unfold split_netloc.
    assert (E : starts_with (lit "//") u = false).
    { unfold u, p in *. destruct rest as [|c rest]; [|exact Hss].
      destruct q as [qs|]; [reflexivity|]. now destruct f. }
    now rewrite E. }
  rewrite Hnet. cbn [bind]. unfold u.
  destruct (split_tail p q f Hplain Hq Hf) as [E1 E2].
  rewrite E1. cbv beta iota. rewrite E2. reflexivity.
Qed.

Lemma urlparse_site_relative (p : pystr) (q f : option pystr) :
  site_relative p = true -> valid_query q = true -> valid_fragment f = true ->
  urlparse lib (p ++ suffix "?" q ++ suffix "#" f) (lit "https") =
    Ok {| p_scheme := lit "https"; p_netloc := []; p_path := p;
          p_params := []; p_query := part_or_empty q;
          p_fragment := part_or_empty f |}.
Proof.
  intros H Hq Hf. unfold urlparse.
  rewrite (urlsplit_site_relative p q f H Hq Hf). cbn [bind].
  unfold site_relative in H. rewrite !andb_true_iff in H.
  destruct H as [[_ Hplain] _].
  destruct (plain_path_facts p Hplain) as (_ & _ & _ & ->).
  now rewrite andb_false_r.
Qed.

(** A site-relative canonical URL resolves to the base followed by it. *)
Lemma urljoin_site_relative (p : pystr) (q f : option pystr) :
  site_relative p = true -> valid_query q = true -> valid_fragment f = true ->
  urljoin lib base_url (p ++ suffix "?" q ++ suffix "#" f)
  = Ok (lit "https://www.walmart.com" ++ p ++ suffix "?" q ++ suffix "#" f).
Proof.
  intros H Hq Hf. unfold urljoin. rewrite urlparse_base. cbn [bind].
  cbn [p_scheme p_netloc p_path p_params p_query p_fragment].
  rewrite (urlparse_site_relative p q f H Hq Hf). cbn [bind].
  cbn [p_scheme p_netloc p_path p_params p_query p_fragment].
  unfold site_relative in H. rewrite !andb_true_iff in H.
  destruct H as [[[Hs _] _] Hseg].
  assert (Hne : nonempty p = true) by (destruct p; [discriminate|reflexivity]).
  assert (Hu : nonempty (p ++ suffix "?" q ++ suffix "#" f) = true).
  { destruct p; [discriminate|reflexivity]. }
  change (nonempty base_url) with true. rewrite Hu, Hne, Hs.
  change (str_eqb (lit "https") (lit "https")) with true.
  change (str_mem (lit "https") uses_relative) with true.
  change (str_mem (lit "https") uses_netloc) with true.
  change (nonempty []) with false.
  cbn [negb orb andb].
  rewrite (resolve_plain _ [] Hseg).
  pose proof (last_plain _ (split_nonempty (code "/") p) Hseg) as Hlast.
  unfold dot_segment in Hlast. rewrite Hlast.
  cbn [rev app].
  rewrite (join_split (code "/") p : join (lit "/") (split (code "/") p) = p), Hne.
  rewrite urlunparse_parts; auto.
Qed.

Lemma scheme_name_char_facts (c : Z) :
  scheme_name_char c = true ->
  scheme_char c = true /\ is_upper c = false /\ c <> code ":"
  /\ kept_char c = true /\ 0x20 < c.
Proof.
  unfold scheme_name_char, scheme_char, kept_char, is_lower, is_upper, is_digit,
    in_range, char_in.
  cbn.
  repeat progress
    rewrite ?orb_true_iff, ?orb_false_iff, ?andb_true_iff, ?andb_false_iff,
      ?negb_true_iff, ?Z.leb_le, ?Z.leb_gt, ?Z.eqb_eq, ?Z.eqb_neq.
  lia.
Qed.

Lemma authority_char_facts (c : Z) :
  (0x20 <? c) && (c <? 0x80) && negb (char_in c (lit "/?#[]")) = true ->
  negb (char_in c (lit "/?#")) = true /\ c <> code "[" /\ c <> code "]"
  /\ (0 <=? c) && (c <? 0x80) = true /\ kept_char c = true.
Proof.
  unfold kept_char, char_in. cbn.
  repeat progress
    rewrite ?andb_true_iff, ?negb_true_iff, ?orb_false_iff, ?Z.ltb_lt, ?Z.leb_le,
      ?Z.eqb_neq.
  lia.
Qed.

Lemma until_delim_rest (p : pystr) (q f : option pystr) :
  nonempty p = false \/ starts_with (lit "/") p = true ->
  until_delim (p ++ suffix "?" q ++ suffix "#" f)
  = ([], p ++ suffix "?" q ++ suffix "#" f).
Proof.
  intros [Hp|Hp].
  - destruct p; [|discriminate]. destruct q as [qs|]; [reflexivity|].
    now destruct f.
  - destruct (starts_with_slash p Hp) as [rest ->]. reflexivity.
Qed.

Lemma urlsplit_absolute (scheme netloc path dflt : pystr) (q f : option pystr) :
  scheme_name scheme = true -> authority netloc = true ->
  absolute_path path = true -> valid_query q = true -> valid_fragment f = true ->
  urlsplit lib (scheme ++ lit "://" ++ netloc ++ path
                ++ suffix "?" q ++ suffix "#" f) dflt
  = Ok (scheme, netloc, path, part_or_empty q, part_or_empty f).
Proof.
  unfold scheme_name, authority, absolute_path.
  rewrite !andb_true_iff. intros [Hhd Hsch] [Hnn Hnet] [Hpath Hplain] Hq Hf.
  rewrite forallb_forall in Hsch, Hnet.
  destruct scheme as [|c0 scheme]; [discriminate|]. cbn [hd] in Hhd.
  assert (Hc0 : 0x20 < c0).
  { apply (scheme_name_char_facts c0), Hsch. now left. }
  set (tail := path ++ suffix "?" q ++ suffix "#" f).
  set (u := (c0 :: scheme) ++ lit "://" ++ netloc ++ tail).
  destruct (plain_path_facts path Hplain) as (Hk & _).
  destruct (valid_query_facts q Hq) as (Hqk & _).
  destruct (valid_fragment_facts f Hf) as (Hfk & _).
  unfold urlsplit.
  assert (Hstrip : lstrip_c0 u = u).
  { unfold u. cbn [app lstrip_c0]. unfold is_c0_or_space.
    assert (E : (c0 <=? 0x20) = false) by (apply Z.leb_gt; lia).
    now rewrite E, andb_false_r. }
  assert (Hsafe : remove_unsafe u = u).
  { assert (Hsk : forallb kept_char (c0 :: scheme) = true).
    { apply forallb_forall. intros c Hc.
      apply (scheme_name_char_facts c), Hsch, Hc. }
    assert (Hnk : forallb kept_char netloc = true).
    { apply forallb_forall. intros c Hc.
      apply (authority_char_facts c), Hnet, Hc. }
    apply filter_all. change (forallb kept_char u = true).
    unfold u, tail. now rewrite !forallb_app, Hsk, Hnk, Hk, Hqk, Hfk. }
  rewrite Hstrip, Hsafe.
  assert (Hscheme : split_scheme u (remove_unsafe (strip_c0 dflt))
                    = (c0 :: scheme, lit "//" ++ netloc ++ tail)).
  { unfold split_scheme, u.
    change (lit "://" ++ netloc ++ tail) with (code ":" :: lit "//" ++ netloc ++ tail).
    rewrite find_first.
    - rewrite firstn_exact, skipn_past.
      cbn [length Nat.ltb Nat.leb app hd andb].
      assert (Ha : is_ascii_alpha c0 = true).
      { unfold is_ascii_alpha. now rewrite Hhd. }
      assert (Hs : forallb scheme_char (c0 :: scheme) = true).
      { apply forallb_forall. intros c Hc.
        apply (scheme_name_char_facts c), Hsch, Hc. }
      rewrite Ha, Hs. cbn [andb]. rewrite lower_fixed; [reflexivity|].
      apply forallb_forall. intros c Hc. apply negb_true_iff.
      apply (scheme_name_char_facts c), Hsch, Hc.
    - apply char_in_absent, forallb_forall. intros c Hc.
      apply negb_true_iff, Z.eqb_neq.
      apply (scheme_name_char_facts c), Hsch, Hc. }
  rewrite Hscheme.
  assert (Hnetloc : split_netloc lib (lit "//" ++ netloc ++ tail) = Ok (netloc, tail)).
  { unfold split_netloc, _splitnetloc.
    change (starts_with (lit "//") (lit "//" ++ netloc ++ tail))
      with (str_eqb (lit "//") (lit "//")).
    change (skipn 2 (lit "//" ++ netloc ++ tail)) with (netloc ++ tail).
    cbn [str_eqb lit list_ascii_of_string map Z.eqb code andb].
    rewrite until_delim_app.
    - assert (Ho : char_in (code "[") netloc = false).
      { apply char_in_absent, forallb_forall. intros c Hc.
        apply negb_true_iff, Z.eqb_neq. apply (authority_char_facts c), Hnet, Hc. }
      assert (Hcl : char_in (code "]") netloc = false).
      { apply char_in_absent, forallb_forall. intros c Hc.
        apply negb_true_iff, Z.eqb_neq. apply (authority_char_facts c), Hnet, Hc. }
      rewrite Ho, Hcl. reflexivity.
    - apply forallb_forall. intros c Hc. apply (authority_char_facts c), Hnet, Hc.
    - apply until_delim_rest.
      rewrite orb_true_iff, negb_true_iff in Hpath. exact Hpath. }
  rewrite Hnetloc. cbn [bind]. unfold tail.
  destruct (split_tail path q f Hplain Hq Hf) as [E1 E2].
  rewrite E1. cbv beta iota. rewrite E2. cbv beta iota.
  unfold _checknetloc.
  assert (Hascii : is_ascii netloc = true).
  { apply forallb_forall. intros c Hc. apply (authority_char_facts c), Hnet, Hc. }
  rewrite Hascii, orb_true_r. reflexivity.
Qed.

(** An absolute URL resolves to itself. *)
Lemma urljoin_absolute (scheme netloc path : pystr) (q f : option pystr) :
  scheme_name scheme = true -> authority netloc = true ->
  absolute_path path = true -> valid_query q = true -> valid_fragment f = true ->
  urljoin lib base_url (scheme ++ lit "://" ++ netloc ++ path
                        ++ suffix "?" q ++ suffix "#" f)
  = Ok (scheme ++ lit "://" ++ netloc ++ path ++ suffix "?" q ++ suffix "#" f).
Proof.
  intros Hs Hn Hp Hq Hf. unfold urljoin. rewrite urlparse_base. cbn [bind].
  cbn [p_scheme].
  unfold urlparse.
  rewrite (urlsplit_absolute scheme netloc path _ q f Hs Hn Hp Hq Hf).
  cbn [bind].
  assert (Hne : nonempty scheme = true).
  { destruct scheme; [discriminate|reflexivity]. }
  assert (Hnn : nonempty netloc = true).
  { unfold authority in Hn. now rewrite andb_true_iff in Hn. }
  unfold absolute_path in Hp.
  rewrite andb_true_iff, orb_true_iff, negb_true_iff in Hp.
  destruct Hp as [Hpp Hplain].
  destruct (plain_path_facts path Hplain) as (_ & _ & _ & ->).
  rewrite andb_false_r.
  cbn [bind p_scheme p_netloc p_path p_params p_query p_fragment].
  assert (Hu : nonempty (scheme ++ lit "://" ++ netloc ++ path
                         ++ suffix "?" q ++ suffix "#" f) = true).
  { destruct scheme; [discriminate|reflexivity]. }
  change (nonempty base_url) with true. rewrite Hu. cbn [negb].
  destruct (str_eqb scheme (lit "https")) eqn:E; cbn [negb orb]; [|reflexivity].
  apply str_eqb_eq in E. subst scheme.
  change (str_mem (lit "https") uses_relative) with true.
  change (str_mem (lit "https") uses_netloc) with true.
  rewrite Hnn. cbn [negb andb].
  now rewrite urlunparse_parts.
Qed.


End ResolutionProperties.

(** ** Evaluations

    The model run on inputs whose outcome in CPython is known. *)

Example ceil_of_1050 :
  (q <- py_truediv (JInt 1050) 40;; math_ceil q) = Ok 27.
Proof. reflexivity. Qed.

Example ceil_of_small_counts :
  map (fun n => q <- py_truediv (JInt n) 40;; math_ceil q) [-1; 0; 1; 40; 41; 80; 81]
  = [Ok 0; Ok 0; Ok 1; Ok 1; Ok 2; Ok 2; Ok 3].
Proof. reflexivity. Qed.

Example quotient_overflows :
  py_truediv (JInt (40 * 2 ^ 1024)) 40 = Raise OverflowError
  /\ py_truediv (JInt (40 * (2 ^ 1024 - 2 ^ 970))) 40 = Raise OverflowError
  /\ (q <- py_truediv (JInt (40 * (2 ^ 1024 - 2 ^ 970) - 1)) 40;; math_ceil q)
     = Ok (2 ^ 1024 - 2 ^ 971).
Proof. repeat split; vm_compute; reflexivity. Qed.

Example ceil_of_negative_count :
  (q <- py_truediv (JInt (- (40 * (2 ^ 53 + 1)))) 40;; math_ceil q) = Ok (- 2 ^ 53)
  /\ ceil_div (- (40 * (2 ^ 53 + 1))) 40 = - (2 ^ 53 + 1).
Proof. split; vm_compute; reflexivity. Qed.

Example count_of_other_types :
  py_truediv JNull 40 = Raise TypeError
  /\ py_truediv (JStr (lit "1050")) 40 = Raise TypeError
  /\ (q <- py_truediv (JBool true) 40;; math_ceil q) = Ok 1.
Proof. repeat split; reflexivity. Qed.

Example search_url_of_widgets :
  create_search_url (lit "widgets") None None
  = Ok (lit "https://www.walmart.com/search?q=widgets&sort=price_low&page=1&affinityOverride=default").
Proof. reflexivity. Qed.

Example search_url_quoting :
  create_search_url [0x63; 0x61; 0x66; 0xE9; 0x20; 0x2B; 0x2F] (Some 3) None
  = Ok (lit "https://www.walmart.com/search?q=caf%C3%A9+%2B%2F&sort=price_low&page=3&affinityOverride=default").
Proof. reflexivity. Qed.

Example urljoin_normalises :
  urljoin Sample.lib base_url (lit "/ip/../anvil")
    = Ok (lit "https://www.walmart.com/anvil")
  /\ urljoin Sample.lib base_url (lit "ip/anvil/1")
    = Ok (lit "https://www.walmart.com/ip/anvil/1")
  /\ urljoin Sample.lib base_url (lit "//cdn.example/x")
    = Ok (lit "https://cdn.example/x")
  /\ urljoin Sample.lib base_url (lit "HTTPS://shop.example/p")
    = Ok (lit "https://shop.example/p")
  /\ urljoin Sample.lib base_url (lit "https://[::1/x") = Raise ValueError.
Proof. repeat split; vm_compute; reflexivity. Qed.

Example subscripts :
  getindex (JArr []) 0 = Raise IndexError
  /\ getindex (JObj []) 0 = Raise KeyError
  /\ getitem (JStr (lit "abc")) (lit "__typename") = Raise TypeError
  /\ getitem JNull (lit "count") = Raise TypeError
  /\ getindex (JArr [JInt 1; JInt 2]) (-1) = Ok (JInt 2).
Proof. repeat split; reflexivity. Qed.

(** ** The properties on the sample documents *)

Lemma sample_delivers : delivers Sample.session.
Proof.
  intros cs. apply Permutation_sym, Permutation_rev.
Qed.

Lemma discover_requests_pages_witness :
  exists c others,
    (q <- py_truediv (JInt 1050) 40;; math_ceil q) = Ok c
    /\ (0 <= 1050 -> (if 25 <? c then 25 else c) = max_page_of 1050)
    /\ (1050 < 0 -> (if 25 <? c then 25 else c) <= 0 /\ max_page_of 1050 <= 0)
    /\ fst (discover_walmart Sample.lib (lit "widgets") Sample.session []) =
         [] ++ map (fun i => scrape_config (page_url (lit "widgets") i))
                   (1 :: others)
    /\ others = py_range 2 ((if 25 <? c then 25 else c) + 1)
    /\ others = py_range 2 (max_page_of 1050 + 1)
    /\ (forall i, In i others <-> 2 <= i <= max_page_of 1050)
    /\ length others = Z.to_nat (max_page_of 1050 - 1)
    /\ (max_page_of 1050 <= 1 -> others = [])
    /\ (1050 = 1050 -> max_page_of 1050 = 25 /\ length others = 24%nat)
    /\ (1050 <= 40 -> others = []).
Proof.
  apply (proj2 (proj2 (discover_requests_pages Sample.lib Sample.session
                         (lit "widgets") []))
           (lit "widgets") (JArr [Sample.product_a; Sample.product_b]) 1050).
  - reflexivity.
  - vm_compute. reflexivity.
  - vm_compute. discriminate.
Defined.

(** Against C1 as stated: on a count whose quotient by 40 is beyond the
    doubles the division raises, and no page after the first is
    requested although [max_page_of] is 25. *)
Lemma discover_overflow_counterexample :
  parse_search Sample.huge_lib Sample.search_page
    = Ok (JArr [Sample.product_a; Sample.product_b], JInt (40 * 2 ^ 1024))
  /\ max_page_of (40 * 2 ^ 1024) = 25
  /\ discover_walmart Sample.huge_lib (lit "widgets") Sample.session []
     = ([scrape_config (page_url (lit "widgets") 1)], Raise OverflowError)
  /\ fst (discover_walmart Sample.huge_lib (lit "widgets") Sample.session [])
     <> map (fun i => scrape_config (page_url (lit "widgets") i))
            (1 :: py_range 2 (max_page_of (40 * 2 ^ 1024) + 1)).
Proof.
  split; [vm_compute; reflexivity|].
  split; [vm_compute; reflexivity|].
  split; [vm_compute; reflexivity|].
  intros H. apply (f_equal (@length ScrapeConfig)) in H.
  vm_compute in H. discriminate.
Defined.

Lemma parse_search_keeps_products_witness :
  parse_search Sample.lib Sample.search_page =
    Ok (JArr (filter typed_product
                [Sample.product_a; Sample.advert; Sample.product_b]),
        JInt 1050)
  /\ (forall v,
        In v (filter typed_product
                [Sample.product_a; Sample.advert; Sample.product_b]) <->
        In v [Sample.product_a; Sample.advert; Sample.product_b]
        /\ exists t, discriminator v = Some (JStr t) /\ t = lit "Product").
Proof.
  apply (parse_search_keeps_products Sample.lib Sample.search_page
           (lit "search") (Sample.search_doc (JInt 1050)) (JInt 1050)
           [ (lit "count", JInt 1050);
             (lit "items",
              JArr [Sample.product_a; Sample.advert; Sample.product_b]) ]
           [Sample.product_a; Sample.advert; Sample.product_b]);
    try reflexivity.
  repeat (apply Forall_cons; [discriminate|]). apply Forall_nil.
Defined.

Lemma scrape_walmart_collects_witness :
  exists records,
    scrape_walmart Sample.lib (lit "widgets") Sample.session [] =
      (fst (discover_walmart Sample.lib (lit "widgets") Sample.session [])
       ++ map scrape_config
            [ lit "https://www.walmart.com/ip/anvil/1";
              lit "https://www.walmart.com/ip/bolt/2" ],
       Ok records)
    /\ Permutation
         (map Ok records)
         (map (parse_product Sample.lib)
              (filter has_blob
                 (map (fun u => async_scrape Sample.session (scrape_config u))
                      [ lit "https://www.walmart.com/ip/anvil/1";
                        lit "https://www.walmart.com/ip/bolt/2" ])))
    /\ length records =
       length (filter has_blob
                 (map (fun u => async_scrape Sample.session (scrape_config u))
                      [ lit "https://www.walmart.com/ip/anvil/1";
                        lit "https://www.walmart.com/ip/bolt/2" ]))
    /\ Forall (fun v => is_not_None v = true) records.
Proof.
  apply (scrape_walmart_collects Sample.lib Sample.session (lit "widgets") []
           (fst (discover_walmart Sample.lib (lit "widgets") Sample.session []))
           (JArr [Sample.product_a; Sample.product_b])
           [Sample.product_a; Sample.product_b]).
  - exact sample_delivers.
  - vm_compute. reflexivity.
  - reflexivity.
  - vm_compute. reflexivity.
  - repeat (apply Forall_cons; [eexists; vm_compute; reflexivity|]).
    apply Forall_nil.
Defined.

Lemma parse_product_allow_list_witness :
  exists product,
    parse_product Sample.lib Sample.anvil_page =
      Ok (JObj [ (lit "product", JObj product);
                 (lit "reviews", Sample.reviews) ])
    /\ (forall k, In k (keys product) -> In k wanted_product_keys)
    /\ product = filter wanted Sample.raw_product.
Proof.
  destruct (parse_product_allow_list Sample.lib Sample.anvil_page (lit "anvil")
              Sample.product_doc Sample.reviews
              [ (lit "product", JObj Sample.raw_product);
                (lit "reviews", Sample.reviews) ]
              Sample.raw_product eq_refl eq_refl eq_refl eq_refl eq_refl)
    as (product & Hparse & Hkeys & Hfilter).
  exists product. split; [exact Hparse|]. split; [exact Hkeys|].
  apply Hfilter. unfold dict_wf.
  repeat (apply NoDup_cons; [cbn; intuition discriminate|]). apply NoDup_nil.
Defined.

Lemma parse_search_no_script_witness :
  exists previews,
    parse_search Sample.lib Sample.bolt_page = Ok (previews, JInt 0)
    /\ py_iter previews = Ok []
    /\ truthy previews = false.
Proof.
  apply (parse_search_no_script Sample.lib Sample.bolt_page). reflexivity.
Defined.

Lemma parse_product_no_script_skipped_witness :
  parse_product Sample.lib Sample.bolt_page = Ok JNull
  /\ (forall results,
        append_product Sample.lib results Sample.bolt_page = Ok results)
  /\ snd (_scrape_products_by_url Sample.lib
            [ lit "https://www.walmart.com/ip/anvil/1";
              lit "https://www.walmart.com/ip/bolt/2" ]
            Sample.session []) =
       for_each (append_product Sample.lib) ([] ++ [Sample.anvil_page]) [].
Proof.
  apply (parse_product_no_script_skipped Sample.lib Sample.bolt_page
           Sample.session
           [ lit "https://www.walmart.com/ip/anvil/1";
             lit "https://www.walmart.com/ip/bolt/2" ]
           [] [] [Sample.anvil_page]);
    reflexivity.
Defined.

Lemma parsers_raise_on_missing_field_witness :
  (raises (parse_search Sample.lib Sample.broken_page)
   /\ forall batch previews,
        In Sample.broken_page batch ->
        raises (for_each (extend_previews Sample.lib) batch previews))
  /\ (raises (parse_product Sample.lib Sample.broken_page)
      /\ forall session urls log,
           In Sample.broken_page
              (concurrent_scrape session (map scrape_config urls)) ->
           raises (snd (_scrape_products_by_url Sample.lib urls session log))).
Proof.
  destruct (parsers_raise_on_missing_field Sample.lib Sample.broken_page
              (lit "truncated") Sample.truncated_doc eq_refl eq_refl)
    as [Hsearch Hproduct].
  split.
  - apply Hsearch. left. vm_compute.
    eapply missing_below; [reflexivity|]. apply missing_key. reflexivity.
  - apply Hproduct. left. vm_compute.
    eapply missing_below; [reflexivity|]. apply missing_key. reflexivity.
Defined.

Lemma create_search_url_encodes_witness :
  exists enc bytes,
    create_search_url [0x63; 0x61; 0x66; 0xE9; 0x20; 0x2B] (Some 1)
      (Some (lit "price_low")) =
      Ok (lit "https://www.walmart.com/search?q=" ++ enc
          ++ lit "&sort=price_low&page=1&affinityOverride=default")
    /\ create_search_url [0x63; 0x61; 0x66; 0xE9; 0x20; 0x2B] None None =
       create_search_url [0x63; 0x61; 0x66; 0xE9; 0x20; 0x2B] (Some 1)
         (Some (lit "price_low"))
    /\ utf8_encode [0x63; 0x61; 0x66; 0xE9; 0x20; 0x2B] = Ok bytes
    /\ unquote_plus enc = Some bytes
    /\ forallb query_safe enc = true.
Proof.
  apply (create_search_url_encodes [0x63; 0x61; 0x66; 0xE9; 0x20; 0x2B]).
  repeat (apply Forall_cons; [split; [lia|reflexivity]|]). apply Forall_nil.
Defined.

(** Against C8 as stated: on a string that holds a lone surrogate,
    UTF-8 cannot encode it and [urlencode] raises. *)
Lemma create_search_url_surrogate_counterexample :
  create_search_url [0xD800] (Some 1) (Some (lit "price_low"))
  = Raise UnicodeEncodeError.
Proof. reflexivity. Defined.

Lemma discover_without_blob_witness :
  discover_walmart Sample.lib (lit "nothing") Sample.session [] =
    ([] ++ [scrape_config (page_url (lit "nothing") 1)], Ok (JObj []))
  /\ py_iter (JObj []) = Ok []
  /\ raises (py_extend (JObj [])).
Proof.
  apply (discover_without_blob Sample.lib Sample.session
           (lit "nothing") (lit "nothing") [] sample_delivers);
    reflexivity.
Defined.



(** * Further properties

    Beyond the properties above: the failure and the inverse of the URL
    builder, what the parsers return and raise, the course of a
    discovery run and of the collection, other forms of canonical URL,
    the entry point, and the part the order of delivery plays. *)

(** ** The URL builder

    UTF-8 decoding undoes [utf8_char]; the encoder is first rewritten
    with additions in place of the bitwise operations. *)

Lemma lor_high (h x k : Z) :
  0 <= k -> 0 <= x < 2 ^ k -> Z.lor (h * 2 ^ k) x = h * 2 ^ k + x.
Proof.
  intros Hk Hx.
  assert (E : Z.land (h * 2 ^ k) x = 0).
  { apply Z.bits_inj'. intros m Hm. rewrite Z.land_spec, Z.bits_0.
    destruct (Z.lt_ge_cases m k) as [Hlt|Hge].
    - now rewrite Z.mul_pow2_bits_low.
    - destruct (Z.eq_dec x 0) as [->|Hnz]; [now rewrite Z.bits_0, andb_false_r|].
      rewrite (Z.bits_above_log2 x m), andb_false_r; [reflexivity|lia|].
      apply Z.lt_le_trans with k; [|exact Hge].
      apply Z.log2_lt_pow2; lia. }
  pose proof (Z.add_lor_land (h * 2 ^ k) x). lia.
Qed.

Lemma utf8_char_arith (c : Z) :
  scalar_value c ->
  utf8_char c =
    Ok (if c <? 0x80 then [c]
        else if c <? 0x800 then [0xC0 + c / 64; 0x80 + c mod 64]
        else if c <? 0x10000 then
          [0xE0 + c / 4096; 0x80 + (c / 64) mod 64; 0x80 + c mod 64]
        else [0xF0 + c / 262144; 0x80 + (c / 4096) mod 64;
              0x80 + (c / 64) mod 64; 0x80 + c mod 64]).
Proof.
  intros [[Hlo Hhi] Hsur]. unfold utf8_char. rewrite Hsur.
  assert (Hcont : forall x, Z.lor 0x80 (Z.land x 0x3F) = 0x80 + x mod 64).
  { intros x. change 0x3F with (Z.ones 6). rewrite Z.land_ones by lia.
    change 0x80 with (2 * 2 ^ 6) at 1. rewrite lor_high; [reflexivity|lia|].
    apply Z.mod_pos_bound. lia. }
  assert (Hlead : forall lead k s, 0 <= k -> 0 <= s -> c < 2 ^ k * 2 ^ s ->
            Z.lor (lead * 2 ^ k) (Z.shiftr c s) = lead * 2 ^ k + c / 2 ^ s).
  { intros lead k s Hk Hs Hc. rewrite Z.shiftr_div_pow2 by lia.
    assert (0 < 2 ^ s) by pow_pos.
    apply lor_high; [lia|].
    split; [apply Z.div_pos; lia|apply Z.div_lt_upper_bound; lia]. }
  rewrite !Hcont, !Z.shiftr_div_pow2 by lia.
  destruct (c <? 0x80) eqn:E1; [reflexivity|apply Z.ltb_ge in E1].
  destruct (c <? 0x800) eqn:E2; [apply Z.ltb_lt in E2|apply Z.ltb_ge in E2].
  - rewrite <- (Z.shiftr_div_pow2 c 6) by lia.
    change 0xC0 with (3 * 2 ^ 6) at 1. rewrite (Hlead 3 6 6) by (cbn; lia).
    reflexivity.
  - destruct (c <? 0x10000) eqn:E3; [apply Z.ltb_lt in E3|apply Z.ltb_ge in E3].
    + rewrite <- (Z.shiftr_div_pow2 c 12) by lia.
      change 0xE0 with (14 * 2 ^ 4) at 1. rewrite (Hlead 14 4 12) by (cbn; lia).
      reflexivity.
    + rewrite <- (Z.shiftr_div_pow2 c 18) by lia.
      change 0xF0 with (15 * 2 ^ 4) at 1. rewrite (Hlead 15 4 18) by (cbn; lia).
      reflexivity.
Qed.

Lemma continuation_of (x : Z) : 0 <= x < 64 -> continuation (0x80 + x) = Some x.
Proof.
  intros H. unfold continuation.
  replace ((0x80 <=? 0x80 + x) && (0x80 + x <? 0xC0)) with true.
  - f_equal. lia.
  - symmetry. rewrite andb_true_iff, Z.leb_le, Z.ltb_lt. lia.
Qed.

Lemma decoded_scalar (least c : Z) :
  least <= c -> scalar_value c -> decoded least c = Some c.
Proof.
  intros Hl [[_ Hhi] Hs]. unfold decoded. rewrite Hs.
  replace ((least <=? c) && (c <? 0x110000)) with true; [reflexivity|].
  symmetry. rewrite andb_true_iff, Z.leb_le, Z.ltb_lt. lia.
Qed.

Ltac cond_false :=
  match goal with
  | |- context [if ?b then _ else _] =>
      let E := fresh "E" in
      lazymatch type of b with bool => idtac end;
      destruct b eqn:E;
      [exfalso; revert E; rewrite ?andb_true_iff, ?Z.leb_le, ?Z.ltb_lt; lia
      |clear E]
  end.

Ltac cond_true :=
  match goal with
  | |- context [if ?b then _ else _] =>
      let E := fresh "E" in
      lazymatch type of b with bool => idtac end;
      destruct b eqn:E;
      [clear E
      |exfalso; revert E; rewrite ?andb_false_iff, ?Z.leb_gt, ?Z.ltb_ge; lia]
  end.

Lemma utf8_decode_char (c : Z) (bs rest : list Z) :
  scalar_value c -> utf8_char c = Ok bs ->
  utf8_decode (bs ++ rest) =
    match utf8_decode rest with
    | Some s => Some (c :: s)
    | None => None
    end.
Proof.
  intros Hc E. rewrite (utf8_char_arith c Hc) in E.
  apply (f_equal (fun r => match r with Ok x => x | Raise _ => bs end)) in E.
  cbv beta iota in E. subst bs.
  pose proof Hc as [[Hlo Hhi] _].
  pose proof (Z.div_mod c 64 ltac:(lia)) as D1.
  pose proof (Z.mod_pos_bound c 64 ltac:(lia)) as M1.
  pose proof (Z.div_mod (c / 64) 64 ltac:(lia)) as D2.
  pose proof (Z.mod_pos_bound (c / 64) 64 ltac:(lia)) as M2.
  pose proof (Z.div_mod (c / 64 / 64) 64 ltac:(lia)) as D3.
  pose proof (Z.mod_pos_bound (c / 64 / 64) 64 ltac:(lia)) as M3.
  replace (c / 4096) with (c / 64 / 64) by (rewrite Z.div_div by lia; reflexivity).
  replace (c / 262144) with (c / 64 / 64 / 64) by (rewrite !Z.div_div by lia; reflexivity).
  destruct (c <? 0x80) eqn:E1; [apply Z.ltb_lt in E1|apply Z.ltb_ge in E1].
  - cbn [app utf8_decode]. cond_true. reflexivity.
  - destruct (c <? 0x800) eqn:E2; [apply Z.ltb_lt in E2|apply Z.ltb_ge in E2].
    + remember (0xC0 + c / 64) as b0 eqn:B0.
      remember (0x80 + c mod 64) as b1 eqn:B1.
      cbn [app utf8_decode]. cond_false. cond_true.
      rewrite B1, continuation_of by lia.
      replace ((b0 - 0xC0) * 64 + c mod 64) with c by lia.
      now rewrite (decoded_scalar 0x80 c) by (assumption || lia).
    + destruct (c <? 0x10000) eqn:E3; [apply Z.ltb_lt in E3|apply Z.ltb_ge in E3].
      * remember (0xE0 + c / 64 / 64) as b0 eqn:B0.
        remember (0x80 + (c / 64) mod 64) as b1 eqn:B1.
        remember (0x80 + c mod 64) as b2 eqn:B2.
        cbn [app utf8_decode]. cond_false. cond_false. cond_true.
        rewrite B1, B2, !continuation_of by lia.
        replace (((b0 - 0xE0) * 64 + (c / 64) mod 64) * 64 + c mod 64)
          with c by lia.
        now rewrite (decoded_scalar 0x800 c) by (assumption || lia).
      * remember (0xF0 + c / 64 / 64 / 64) as b0 eqn:B0.
        remember (0x80 + (c / 64 / 64) mod 64) as b1 eqn:B1.
        remember (0x80 + (c / 64) mod 64) as b2 eqn:B2.
        remember (0x80 + c mod 64) as b3 eqn:B3.
        cbn [app utf8_decode]. cond_false. cond_false. cond_false. cond_true.
        rewrite B1, B2, B3, !continuation_of by lia.
        replace ((((b0 - 0xF0) * 64 + (c / 64 / 64) mod 64) * 64
                  + (c / 64) mod 64) * 64 + c mod 64)
          with c by lia.
        now rewrite (decoded_scalar 0x10000 c) by (assumption || lia).
Qed.

Lemma utf8_round_trip (s : pystr) (bs : list Z) :
  encodable s -> utf8_encode s = Ok bs -> utf8_decode bs = Some s.
Proof.
  intros Hs. revert bs. induction Hs as [|c s Hc _ IH]; intros bs.
  - now intros [= <-].
  - cbn [utf8_encode].
    destruct (utf8_char c) as [cs|] eqn:Ec; [cbn [bind]|discriminate].
    destruct (utf8_encode s) as [more|]; [cbn [bind]|discriminate].
    intros [= <-]. rewrite (utf8_decode_char c cs more Hc Ec).
    now rewrite (IH more eq_refl).
Qed.

Lemma split_once_mark (c : Z) (s t : pystr) :
  char_in c s = false -> split_once c (s ++ c :: t) = (s, t).
Proof.
  intros H. unfold split_once.
  now rewrite (find_first c s t H), firstn_exact, skipn_past.
Qed.

Lemma split_plain (c : Z) (s : pystr) : char_in c s = false -> split c s = [s].
Proof.
  induction s as [|x s IH]; [reflexivity|].
  unfold char_in. cbn [existsb split]. rewrite orb_false_iff. intros [Hx Hs].
  rewrite (IH Hs), Z.eqb_sym, Hx. reflexivity.
Qed.

Lemma split_mark (c : Z) (s t : pystr) :
  char_in c s = false -> split c (s ++ c :: t) = s :: split c t.
Proof.
  induction s as [|x s IH].
  - intros _. cbn [app split]. rewrite Z.eqb_refl.
    destruct (split c t) eqn:E; [now apply split_nonempty in E|reflexivity].
  - unfold char_in. cbn [existsb app split]. rewrite orb_false_iff. intros [Hx Hs].
    rewrite (IH Hs), Z.eqb_sym, Hx. reflexivity.
Qed.

Lemma split_join (c : Z) (parts : list pystr) :
  parts <> [] -> Forall (fun p => char_in c p = false) parts ->
  split c (join [c] parts) = parts.
Proof.
  intros Hne H. induction H as [|p parts Hp Hparts IH]; [contradiction|].
  destruct parts as [|p' parts]; [now apply split_plain|].
  rewrite join_cons. cbn [app]. rewrite (split_mark c p _ Hp).
  f_equal. apply IH. discriminate.
Qed.

Lemma forallb_join (f : Z -> bool) (sep : pystr) (parts : list pystr) :
  forallb f sep = true -> Forall (fun p => forallb f p = true) parts ->
  forallb f (join sep parts) = true.
Proof.
  intros Hsep H. induction H as [|p parts Hp Hparts IH]; [reflexivity|].
  destruct parts as [|p' parts]; [exact Hp|].
  rewrite join_cons, !forallb_app, Hp, Hsep. exact IH.
Qed.

Lemma query_safe_no_delimiter (s : pystr) :
  forallb query_safe s = true ->
  char_in (code "&") s = false /\ char_in (code "=") s = false.
Proof.
  intros H. split; apply (forallb_char_absent query_safe); trivial.
Qed.

Lemma query_safe_url_char (s : pystr) :
  forallb query_safe s = true -> forallb url_char s = true.
Proof.
  apply forallb_weaken. intros c H. unfold url_char. now rewrite H.
Qed.

Lemma always_safe_encodable (s : pystr) :
  forallb always_safe s = true -> encodable s.
Proof.
  intros H. apply Forall_forall. intros c Hc.
  rewrite forallb_forall in H. pose proof (always_safe_plain c (H c Hc)).
  split; [lia|]. unfold is_surrogate.
  apply andb_false_iff. left. apply Z.leb_gt. lia.
Qed.

(** Unquoting what [quote_plus] produced gives the string back. *)
Lemma unquote_quote_plus (s enc : pystr) :
  encodable s -> quote_plus s [] = Ok enc ->
  unquote_str enc = Some s /\ forallb query_safe enc = true.
Proof.
  intros Hs Henc.
  destruct (quote_plus_round_trip s Hs) as (enc' & bytes & E & Hbytes & Hdec & Hsafe).
  rewrite Henc in E. injection E as <-.
  unfold unquote_str. rewrite Hdec. split; [|exact Hsafe].
  now apply utf8_round_trip.
Qed.

Lemma parse_pair_quoted (k v ek ev : pystr) :
  encodable k -> encodable v ->
  quote_plus k [] = Ok ek -> quote_plus v [] = Ok ev ->
  parse_pair (ek ++ lit "=" ++ ev) = Some (k, v)
  /\ char_in (code "&") (ek ++ lit "=" ++ ev) = false
  /\ forallb url_char (ek ++ lit "=" ++ ev) = true
  /\ nonempty (ek ++ lit "=" ++ ev) = true.
Proof.
  intros Hk Hv Ek Ev.
  destruct (unquote_quote_plus k ek Hk Ek) as [Uk Sk].
  destruct (unquote_quote_plus v ev Hv Ev) as [Uv Sv].
  destruct (query_safe_no_delimiter ek Sk) as [Ak Qk].
  destruct (query_safe_no_delimiter ev Sv) as [Av _].
  split; [|split; [|split; [|now destruct ek]]].
  - unfold parse_pair. change (ek ++ lit "=" ++ ev) with (ek ++ code "=" :: ev).
    rewrite (split_once_mark _ ek ev Qk). now rewrite Uk, Uv.
  - now rewrite !char_in_app, Ak, Av.
  - rewrite !forallb_app, (query_safe_url_char ek Sk), (query_safe_url_char ev Sv).
    reflexivity.
Qed.

(** The URL [create_search_url] builds from the quoted components. *)
Lemma create_search_url_parts (q sort eq es : pystr) (page : Z) :
  quote_plus q [] = Ok eq -> quote_plus sort [] = Ok es ->
  int_digits page <= int_max_str_digits ->
  create_search_url q (Some page) (Some sort) =
    Ok (lit "https://www.walmart.com/search?"
        ++ join (lit "&") [ lit "q" ++ lit "=" ++ eq;
                            lit "sort" ++ lit "=" ++ es;
                            lit "page" ++ lit "=" ++ decimal page;
                            lit "affinityOverride" ++ lit "=" ++ lit "default" ]).
Proof.
  intros Hq Hs Hp. unfold create_search_url, urlencode.
  cbn [urlencode_pairs py_str bind]. rewrite Hq, Hs, (str_of_int_ok page Hp).
  cbn [bind].
  rewrite (quote_plus_safe (decimal page)) by apply decimal_safe.
  change (quote_plus (lit "q") []) with (Ok (lit "q")).
  change (quote_plus (lit "sort") []) with (Ok (lit "sort")).
  change (quote_plus (lit "page") []) with (Ok (lit "page")).
  change (quote_plus (lit "affinityOverride") []) with (Ok (lit "affinityOverride")).
  change (quote_plus (lit "default") []) with (Ok (lit "default")).
  reflexivity.
Qed.

Lemma search_url_read_back (q sort : pystr) (page : Z) :
  encodable q -> encodable sort ->
  int_digits page <= int_max_str_digits ->
  exists query,
    create_search_url q (Some page) (Some sort)
      = Ok (lit "https://www.walmart.com/search?" ++ query)
    /\ forallb url_char query = true
    /\ parse_qsl query =
         Some [ (lit "q", q); (lit "sort", sort);
                (lit "page", decimal page);
                (lit "affinityOverride", lit "default") ].
Proof.
  intros Hq Hs Hpage.
  destruct (quote_plus_round_trip q Hq) as (eq & _ & Eq & _).
  destruct (quote_plus_round_trip sort Hs) as (es & _ & Es & _).
  pose proof (decimal_safe page) as Hp.
  assert (Hkey : forall k, forallb always_safe k = true ->
            encodable k /\ quote_plus k [] = Ok k).
  { intros k Hk. split; [now apply always_safe_encodable|now apply quote_plus_safe]. }
  destruct (Hkey (lit "q") eq_refl) as [K1 Q1].
  destruct (Hkey (lit "sort") eq_refl) as [K2 Q2].
  destruct (Hkey (lit "page") eq_refl) as [K3 Q3].
  destruct (Hkey (lit "affinityOverride") eq_refl) as [K4 Q4].
  destruct (Hkey (lit "default") eq_refl) as [K5 Q5].
  destruct (Hkey (decimal page) Hp) as [K6 Q6].
  destruct (parse_pair_quoted _ _ _ _ K1 Hq Q1 Eq) as (P1 & A1 & U1 & N1).
  destruct (parse_pair_quoted _ _ _ _ K2 Hs Q2 Es) as (P2 & A2 & U2 & N2).
  destruct (parse_pair_quoted _ _ _ _ K3 K6 Q3 Q6) as (P3 & A3 & U3 & N3).
  destruct (parse_pair_quoted _ _ _ _ K4 K5 Q4 Q5) as (P4 & A4 & U4 & N4).
  eexists. split; [apply (create_search_url_parts q sort eq es page Eq Es Hpage)|].
  split.
  - apply forallb_join; [reflexivity|].
    repeat (constructor; [assumption|]). constructor.
  - unfold parse_qsl.
    rewrite (split_join (code "&")) by
      (try discriminate; repeat (constructor; [assumption|]); constructor).
    cbn [parse_pairs]. now rewrite N1, P1, N2, P2, N3, P3, N4, P4.
Qed.

Lemma create_search_url_raise (q : pystr) (page : option Z) (e : exn) :
  quote_plus q [] = Raise e -> create_search_url q page None = Raise e.
Proof.
  intros H. unfold create_search_url, urlencode. cbn [urlencode_pairs py_str].
  change (quote_plus (lit "q") []) with (Ok (lit "q")).
  cbn [bind]. now rewrite H.
Qed.

Lemma starts_with_app (p s : pystr) : starts_with p (p ++ s) = true.
Proof. unfold starts_with. rewrite firstn_exact. apply str_eqb_refl. Qed.

Lemma page_url_request (enc : pystr) (i : Z) :
  search_request (scrape_config (page_url enc i)).
Proof.
  unfold search_request. cbn [country asp url scrape_config].
  split; [reflexivity|]. split; [reflexivity|]. unfold page_url.
  change (lit "https://www.walmart.com/search?q=" ++ ?x)
    with (lit "https://www.walmart.com/search?" ++ (lit "q=" ++ x)).
  apply starts_with_app.
Qed.

Lemma code_inj (a b : ascii) : code a = code b -> a = b.
Proof.
  unfold code. intros H. apply N2Z.inj in H.
  rewrite <- (ascii_N_embedding a), <- (ascii_N_embedding b). now rewrite H.
Qed.

Lemma lit_inj (s t : string) : lit s = lit t -> s = t.
Proof.
  unfold lit. intros H.
  rewrite <- (string_of_list_ascii_of_string s), <- (string_of_list_ascii_of_string t).
  f_equal. revert H. generalize (list_ascii_of_string s) (list_ascii_of_string t).
  induction l as [|a l IH]; intros [|b l']; cbn [map]; try discriminate; trivial.
  intros [= Hab Hl]. f_equal; [now apply code_inj|now apply IH].
Qed.

(** The decimal form of an int determines the int. *)
Lemma decimal_inj (i j : Z) : decimal i = decimal j -> i = j.
Proof.
  unfold decimal. intros H. apply lit_inj in H.
  assert (E : Z.to_int i = Z.to_int j).
  { pose proof (NilEmpty.isi (Z.to_int i)) as Hi. rewrite H in Hi.
    rewrite NilEmpty.isi in Hi. now injection Hi. }
  rewrite <- (DecimalZ.of_to i), <- (DecimalZ.of_to j). now rewrite E.
Qed.

Lemma decimal_no_amp (i : Z) : char_in (code "&") (decimal i) = false.
Proof.
  apply (forallb_char_absent always_safe); [reflexivity|apply decimal_safe].
Qed.

(** The page number can be read off a page URL. *)
Lemma page_url_inj (enc : pystr) (i j : Z) : page_url enc i = page_url enc j -> i = j.
Proof.
  unfold page_url. intros H.
  apply app_inv_head in H. apply app_inv_head in H. apply app_inv_head in H.
  apply app_inv_tail in H. now apply decimal_inj.
Qed.

Lemma utf8_char_cases (c : Z) :
  if is_surrogate c then utf8_char c = Raise UnicodeEncodeError
  else exists bs, utf8_char c = Ok bs.
Proof.
  unfold utf8_char.
  destruct (is_surrogate c) eqn:Hs.
  - unfold is_surrogate in Hs. rewrite andb_true_iff, !Z.leb_le in Hs.
    assert (E1 : (c <? 0x80) = false) by (apply Z.ltb_ge; lia).
    assert (E2 : (c <? 0x800) = false) by (apply Z.ltb_ge; lia).
    assert (E3 : (c <? 0x10000) = true) by (apply Z.ltb_lt; lia).
    now rewrite E1, E2, E3.
  - destruct (c <? 0x80); [now eexists|].
    destruct (c <? 0x800); [now eexists|].
    destruct (c <? 0x10000); now eexists.
Qed.

Lemma utf8_encode_cases (s : pystr) :
  if existsb is_surrogate s then utf8_encode s = Raise UnicodeEncodeError
  else exists bs, utf8_encode s = Ok bs.
Proof.
  induction s as [|c s IH]; cbn [existsb utf8_encode]; [now exists []|].
  pose proof (utf8_char_cases c) as Hc.
  destruct (is_surrogate c); cbn [orb].
  - now rewrite Hc.
  - destruct Hc as [bs ->]. cbn [bind].
    destruct (existsb is_surrogate s).
    + now rewrite IH.
    + destruct IH as [more ->]. now eexists.
Qed.

(** Quoting fails on a string with a surrogate, and only there. *)
Lemma quote_plus_cases (s : pystr) :
  if existsb is_surrogate s then quote_plus s [] = Raise UnicodeEncodeError
  else exists enc, quote_plus s [] = Ok enc.
Proof.
  pose proof (utf8_encode_cases s) as H. unfold quote_plus, quote.
  destruct (existsb is_surrogate s).
  - rewrite H. now destruct (negb _).
  - destruct H as [bs ->]. destruct (negb _); now eexists.
Qed.

(** The three outcomes of [create_search_url]: the pairs are quoted in
    the order q, sort, page, so a surrogate is met before the page number
    is written out. *)
Lemma create_search_url_cases (q s : pystr) (p : Z) :
  if existsb is_surrogate q || existsb is_surrogate s
  then create_search_url q (Some p) (Some s) = Raise UnicodeEncodeError
  else if int_max_str_digits <? int_digits p
       then create_search_url q (Some p) (Some s) = Raise ValueError
       else exists u, create_search_url q (Some p) (Some s) = Ok u.
Proof.
  pose proof (quote_plus_cases q) as Hq. pose proof (quote_plus_cases s) as Hs.
  pose proof (str_of_int_cases p) as Hp.
  unfold create_search_url, urlencode. cbn [urlencode_pairs py_str].
  change (quote_plus (lit "q") []) with (Ok (lit "q")).
  change (quote_plus (lit "sort") []) with (Ok (lit "sort")).
  change (quote_plus (lit "page") []) with (Ok (lit "page")).
  cbn [bind].
  destruct (existsb is_surrogate q); cbn [orb]; [now rewrite Hq|].
  destruct Hq as [enc ->]. cbn [bind].
  destruct (existsb is_surrogate s); [now rewrite Hs|].
  destruct Hs as [es ->]. cbn [bind].
  destruct (int_max_str_digits <? int_digits p); rewrite Hp; [reflexivity|].
  cbn [bind].
  rewrite (quote_plus_safe (decimal p)) by apply decimal_safe.
  now eexists.
Qed.

Lemma create_search_url_ok_page (q s u : pystr) (p : Z) :
  create_search_url q (Some p) (Some s) = Ok u ->
  int_digits p <= int_max_str_digits.
Proof.
  intros H. pose proof (create_search_url_cases q s p) as C. rewrite H in C.
  destruct (_ || _); [discriminate|].
  destruct (int_max_str_digits <? int_digits p) eqn:E; [discriminate|].
  now apply Z.ltb_ge.
Qed.

(** More than [int_max_str_digits] digits, as a bound on the number. *)
Lemma beyond_limit (p : Z) :
  (int_max_str_digits <? int_digits p) = true
  <-> 10 ^ int_max_str_digits <= Z.abs p.
Proof.
  rewrite Z.ltb_lt.
  pose proof (int_digits_spec p int_max_str_digits eq_refl). lia.
Qed.

Lemma utf8_char_length (c : Z) (bs : list Z) :
  utf8_char c = Ok bs -> (1 <= length bs <= 4)%nat.
Proof.
  unfold utf8_char.
  destruct (c <? 0x80); [intros [= <-]; cbn; lia|].
  destruct (c <? 0x800); [intros [= <-]; cbn; lia|].
  destruct (c <? 0x10000); [|intros [= <-]; cbn; lia].
  destruct (is_surrogate c); [discriminate|intros [= <-]; cbn; lia].
Qed.

Lemma utf8_encode_length (s : pystr) (bs : list Z) :
  utf8_encode s = Ok bs -> (length s <= length bs <= 4 * length s)%nat.
Proof.
  revert bs. induction s as [|c s IH]; intros bs; cbn [utf8_encode].
  - intros [= <-]. cbn. lia.
  - destruct (utf8_char c) as [cs|] eqn:Ec; [cbn [bind]|discriminate].
    destruct (utf8_encode s) as [more|]; [cbn [bind]|discriminate].
    intros [= <-]. pose proof (utf8_char_length c cs Ec).
    pose proof (IH more eq_refl). rewrite length_app. cbn [length]. lia.
Qed.

Lemma quoted_length (safe : pystr) (bs : list Z) :
  (length bs <= length (flat_map (quoter safe) bs) <= 3 * length bs)%nat.
Proof.
  induction bs as [|b bs IH]; cbn [flat_map length]; [lia|].
  rewrite length_app.
  assert (H : (1 <= length (quoter safe b) <= 3)%nat).
  { unfold quoter. destruct (always_safe b || char_in b safe); cbn; lia. }
  lia.
Qed.

Lemma quote_plus_length (s enc : pystr) :
  quote_plus s [] = Ok enc -> (length s <= length enc <= 12 * length s)%nat.
Proof.
  unfold quote_plus, quote.
  destruct (utf8_encode s) as [bs|] eqn:E;
    [|destruct (negb _); discriminate].
  pose proof (utf8_encode_length s bs E) as Hb. cbn [bind].
  destruct (negb _); intros [= <-].
  - pose proof (quoted_length [] bs). lia.
  - unfold spaces_to_plus. rewrite length_map.
    match goal with
    | |- context [flat_map (quoter ?safe) bs] => pose proof (quoted_length safe bs)
    end.
    lia.
Qed.

(** X1. [create_search_url] fails in two cases only: the query or the
    sort mode holds a surrogate code point, or the page number has more
    than 4300 digits ([10 ^ 4300] or more in magnitude).  The exception
    is [UnicodeEncodeError] whenever a surrogate is there, whatever the
    page number, and [ValueError] otherwise. *)
Theorem create_search_url_failure
    (q : pystr) (page : option Z) (sort : option pystr) :
  (raises (create_search_url q page sort) <->
     existsb is_surrogate q = true
     \/ existsb is_surrogate
          (match sort with Some s => s | None => default_sort end) = true
     \/ 10 ^ int_max_str_digits
        <= Z.abs (match page with Some p => p | None => default_page end))
  /\ (forall e, create_search_url q page sort = Raise e ->
        e = if existsb is_surrogate q
               || existsb is_surrogate
                    (match sort with Some s => s | None => default_sort end)
            then UnicodeEncodeError else ValueError).
Proof.
  assert (H : forall s p,
    (raises (create_search_url q (Some p) (Some s)) <->
       existsb is_surrogate q = true \/ existsb is_surrogate s = true
       \/ 10 ^ int_max_str_digits <= Z.abs p)
    /\ (forall e, create_search_url q (Some p) (Some s) = Raise e ->
          e = if existsb is_surrogate q || existsb is_surrogate s
              then UnicodeEncodeError else ValueError)).
  { intros s p. pose proof (create_search_url_cases q s p) as H.
    rewrite <- (beyond_limit p), <- or_assoc, <- orb_true_iff.
    destruct (existsb is_surrogate q || existsb is_surrogate s).
    - rewrite H. split.
      + split; [now left|now exists UnicodeEncodeError].
      + now intros e [= <-].
    - destruct (int_max_str_digits <? int_digits p).
      + rewrite H. split.
        * split; [now right|now exists ValueError].
        * now intros e [= <-].
      + destruct H as [u ->]. split.
        * split; [intros [e He]; discriminate|intros [|]; discriminate].
        * discriminate. }
  destruct page as [p|], sort as [s|]; apply H.
Qed.

(** X2. For a query and a sort mode without surrogates and a page
    number below [10 ^ 4300] in magnitude, the URL built is the search
    endpoint followed by a query string of URL characters only, and
    reading that query string back (cut at [&] and [=], unquote, decode
    UTF-8) returns the four parameters in order with the values passed
    in, the page number in decimal. *)
Theorem create_search_url_reads_back (q sort : pystr) (page : Z) :
  encodable q -> encodable sort ->
  Z.abs page < 10 ^ int_max_str_digits ->
  exists u,
    create_search_url q (Some page) (Some sort) = Ok u
    /\ starts_with (lit "https://www.walmart.com/search?") u = true
    /\ forallb url_char u = true
    /\ parse_qsl (url_query u) =
         Some [ (lit "q", q); (lit "sort", sort);
                (lit "page", decimal page);
                (lit "affinityOverride", lit "default") ].
Proof.
  intros Hq Hs Hpage.
  apply (int_digits_spec page int_max_str_digits eq_refl) in Hpage.
  destruct (search_url_read_back q sort page Hq Hs Hpage)
    as (query & Hu & Hsafe & Hback).
  exists (lit "https://www.walmart.com/search?" ++ query).
  split; [exact Hu|]. split; [apply starts_with_app|]. split.
  - rewrite forallb_app, Hsafe. reflexivity.
  - unfold url_query.
    change (lit "https://www.walmart.com/search?" ++ query)
      with (lit "https://www.walmart.com/search" ++ code "?" :: query).
    rewrite split_once_mark by reflexivity. exact Hback.
Qed.

(** X3. Two calls that return the same URL were given the same query,
    the same sort mode and the same page number (queries and sort modes
    without surrogates): the URL determines its three arguments. *)
Theorem create_search_url_injective (q1 q2 s1 s2 u : pystr) (p1 p2 : Z) :
  encodable q1 -> encodable s1 -> encodable q2 -> encodable s2 ->
  create_search_url q1 (Some p1) (Some s1) = Ok u ->
  create_search_url q2 (Some p2) (Some s2) = Ok u ->
  q1 = q2 /\ s1 = s2 /\ p1 = p2.
Proof.
  intros Hq1 Hs1 Hq2 Hs2 R1 R2.
  pose proof (create_search_url_ok_page _ _ _ _ R1) as Hp1.
  pose proof (create_search_url_ok_page _ _ _ _ R2) as Hp2.
  destruct (search_url_read_back q1 s1 p1 Hq1 Hs1 Hp1) as (u1 & E1 & _ & B1).
  destruct (search_url_read_back q2 s2 p2 Hq2 Hs2 Hp2) as (u2 & E2 & _ & B2).
  rewrite R1 in E1. rewrite R2 in E2.
  assert (Hu : u1 = u2).
  { apply (app_inv_head (lit "https://www.walmart.com/search?")). congruence. }
  subst u2. rewrite B1 in B2. injection B2 as -> -> Hp.
  apply decimal_inj in Hp. now subst.
Qed.

(** X4. The URL of a search page is 80 characters longer than the
    quoted query (for a one-digit page number and the default sort), and
    the quoted query has between one and twelve characters for each
    character of the query; a query of unreserved characters (letters,
    digits, [_], [.], [-], [~]) is embedded as it is. *)
Theorem create_search_url_length (q u : pystr) :
  create_search_url q None None = Ok u ->
  exists enc,
    quote_plus q [] = Ok enc
    /\ u = lit "https://www.walmart.com/search?q=" ++ enc
           ++ lit "&sort=price_low&page=1&affinityOverride=default"
    /\ length u = (80 + length enc)%nat
    /\ (length q <= length enc <= 12 * length q)%nat
    /\ (forallb always_safe q = true -> enc = q).
Proof.
  intros H. destruct (quote_plus q []) as [enc|e] eqn:Henc.
  - rewrite (create_search_url_default q enc Henc) in H. injection H as <-.
    exists enc. split; [reflexivity|]. split; [reflexivity|]. split; [|split].
    + unfold page_url. rewrite !length_app. cbn. lia.
    + now apply quote_plus_length.
    + intros Hsafe. rewrite (quote_plus_safe q Hsafe) in Henc. now injection Henc.
  - rewrite (create_search_url_raise q None e Henc) in H. discriminate.
Qed.

(** ** The parsers *)

Lemma getsub_error (v : json) (s : subscript) (e : exn) :
  getsub v s = Raise e -> lookup_error e.
Proof.
  unfold lookup_error. destruct s as [k|i]; cbn [getsub].
  - unfold getitem. destruct v as [| | | | |l|d]; try (intros [= <-]; auto).
    destruct (dict_get k d); [discriminate|intros [= <-]; auto].
  - unfold getindex.
    destruct v as [| | | |s|l|d]; try (intros [= <-]; auto).
    + destruct ((0 <=? i) && (i <? Z.of_nat (length s)));
        [|destruct ((- Z.of_nat (length s) <=? i) && (i <? 0))];
        try (intros [= <-]; auto);
        match goal with |- context [nth_error ?l ?n] => destruct (nth_error l n) end;
        try discriminate; intros [= <-]; auto.
    + destruct ((0 <=? i) && (i <? Z.of_nat (length l)));
        [|destruct ((- Z.of_nat (length l) <=? i) && (i <? 0))];
        try (intros [= <-]; auto);
        match goal with |- context [nth_error ?l ?n] => destruct (nth_error l n) end;
        try discriminate; intros [= <-]; auto.
Qed.

Lemma getpath_error (v : json) (path : list subscript) (e : exn) :
  getpath v path = Raise e -> lookup_error e.
Proof.
  revert v. induction path as [|s path IH]; intros v; cbn [getpath]; [discriminate|].
  destruct (getsub v s) as [x|e'] eqn:E; cbn [bind].
  - apply IH.
  - intros [= <-]. exact (getsub_error v s e' E).
Qed.

(** A chain of string keys fails with [KeyError] or [TypeError] only. *)
Lemma getpath_keys_error (v : json) (path : list subscript) (e : exn) :
  Forall (fun s => exists k, s = Key k) path ->
  getpath v path = Raise e -> e = KeyError \/ e = TypeError.
Proof.
  intros H. revert v. induction H as [|s path [k ->] _ IH]; intros v;
    cbn [getpath getsub]; [discriminate|].
  destruct (getitem v k) as [x|e'] eqn:E; cbn [bind]; [apply IH|].
  intros [= <-]. unfold getitem in E.
  destruct v as [| | | | |l|d]; try (injection E as <-; auto).
  destruct (dict_get k d); [discriminate|injection E as <-; auto].
Qed.

Lemma getitem_ok (v x : json) (k : pystr) :
  getitem v k = Ok x <-> exists d, v = JObj d /\ dict_get k d = Some x.
Proof.
  unfold getitem. split.
  - destruct v as [| | | | |l|d]; try discriminate.
    destruct (dict_get k d) as [y|] eqn:E; [|discriminate].
    intros [= <-]. now exists d.
  - intros (d & -> & ->). reflexivity.
Qed.

(** The comprehension of [parse_search] ends normally exactly when every
    element has a [__typename]; it then keeps the products. *)
Lemma keep_products_ok (items kept : list json) :
  keep_products items = Ok kept ->
  kept = filter typed_product items
  /\ Forall (fun v => discriminator v <> None) items.
Proof.
  revert kept. induction items as [|v items IH]; intros kept; cbn [keep_products].
  - intros [= <-]. now split.
  - destruct (getitem v (lit "__typename")) as [t|] eqn:Et; [cbn [bind]|discriminate].
    destruct (keep_products items) as [kept'|]; [cbn [bind]|discriminate].
    destruct (IH kept' eq_refl) as [-> Hall].
    apply getitem_ok in Et. destruct Et as (d & -> & Hd).
    assert (Ht : typed_product (JObj d) = eq_str t (lit "Product")).
    { unfold typed_product, discriminator. now rewrite Hd. }
    intros [= <-]. split.
    + cbn [filter]. now rewrite Ht.
    + constructor; [|assumption]. cbn [discriminator]. now rewrite Hd.
Qed.

Lemma keep_products_error (items : list json) (e : exn) :
  keep_products items = Raise e -> e = KeyError \/ e = TypeError.
Proof.
  induction items as [|v items IH]; cbn [keep_products]; [discriminate|].
  destruct (getitem v (lit "__typename")) as [t|e'] eqn:Et; cbn [bind].
  - destruct (keep_products items) as [kept|e']; cbn [bind]; [discriminate|].
    intros [= <-]. now apply IH.
  - intros [= <-]. unfold getitem in Et.
    destruct v as [| | | | |l|d]; try (injection Et as <-; auto).
    destruct (dict_get _ d); [discriminate|injection Et as <-; auto].
Qed.

Lemma typed_product_spec (v : json) :
  typed_product v = true <->
  exists d, v = JObj d /\ dict_get (lit "__typename") d = Some (JStr (lit "Product")).
Proof.
  unfold typed_product, discriminator. split.
  - destruct v as [| | | | |l|d]; try discriminate.
    destruct (dict_get _ d) as [t|] eqn:E; [|discriminate].
    destruct t as [| | | |s| |]; try discriminate.
    cbn [eq_str]. intros H. apply str_eqb_eq in H. subst s. now exists d.
  - intros (d & -> & ->). reflexivity.
Qed.

Lemma keys_dict_set_known (k : pystr) (v : json) (d : dict) :
  In k (keys d) -> keys (dict_set k v d) = keys d.
Proof.
  induction d as [|[k' v'] d IH]; [contradiction|].
  cbn [keys map fst dict_set]. intros H.
  destruct (str_eqb k k') eqn:E.
  - apply str_eqb_eq in E. now subst.
  - cbn [map fst]. f_equal. apply IH. destruct H as [->|H]; [|exact H].
    now rewrite str_eqb_refl in E.
Qed.

Lemma dict_set_wf (k : pystr) (v : json) (d : dict) :
  dict_wf d -> dict_wf (dict_set k v d).
Proof.
  unfold dict_wf. intros H.
  destruct (in_dec (list_eq_dec Z.eq_dec) k (keys d)) as [Hin|Hout].
  - now rewrite keys_dict_set_known.
  - rewrite (dict_set_fresh k v d Hout). unfold keys. rewrite map_app.
    cbn [map fst]. apply NoDup_app; [exact H|repeat constructor; intros []|].
    intros x Hx [<-|[]]. now apply Hout.
Qed.

Lemma fold_keep_wf (items acc : dict) :
  dict_wf acc -> dict_wf (fold_left keep_step items acc).
Proof.
  revert acc. induction items as [|kv items IH]; intros acc H; [exact H|].
  cbn [fold_left]. apply IH. unfold keep_step.
  destruct (wanted kv); [now apply dict_set_wf|exact H].
Qed.

Lemma keep_wanted_wf (raw : dict) : dict_wf (keep_wanted raw).
Proof. apply fold_keep_wf. constructor. Qed.

Lemma keep_wanted_keys (raw : dict) :
  incl (keys (keep_wanted raw)) wanted_product_keys.
Proof.
  intros k Hk. destruct (keys_fold_keep raw [] k Hk) as [[]|H]. exact H.
Qed.

Lemma dict_get_absent (k : pystr) (d : dict) :
  ~ In k (keys d) -> dict_get k d = None.
Proof.
  induction d as [|[k' v] d IH]; [reflexivity|].
  cbn [keys map fst dict_get]. intros H.
  destruct (str_eqb k k') eqn:E.
  - apply str_eqb_eq in E. exfalso. apply H. now left.
  - apply IH. intros Hin. apply H. now right.
Qed.

Lemma dict_get_filter_wanted (k : pystr) (d : dict) :
  In k wanted_product_keys -> dict_get k (filter wanted d) = dict_get k d.
Proof.
  intros Hk. induction d as [|[k' v] d IH]; [reflexivity|].
  cbn [filter dict_get]. destruct (str_eqb k k') eqn:E.
  - apply str_eqb_eq in E. subst k'.
    assert (Hw : wanted (k, v) = true) by (apply str_mem_In; exact Hk).
    rewrite Hw. cbn [dict_get]. now rewrite str_eqb_refl.
  - destruct (wanted (k', v)); [cbn [dict_get]; now rewrite E|exact IH].
Qed.

Lemma filter_wanted_all (d : dict) :
  incl (keys d) wanted_product_keys -> filter wanted d = d.
Proof.
  intros H. apply filter_all, forallb_forall. intros [k v] Hin.
  apply str_mem_In, H. unfold keys. now apply (in_map fst) in Hin.
Qed.

Section ParserOutcomes.

Variable lib : PyLib.

Lemma parse_search_ok (r : ScrapeApiResponse) (previews total : json) :
  parse_search lib r = Ok (previews, total) ->
  (next_data_text r = None /\ previews = JObj [] /\ total = JInt 0)
  \/ (exists text data results elements,
        next_data_text r = Some text
        /\ json_loads lib text = Ok data
        /\ getpath data count_path = Ok total
        /\ getpath data items_path = Ok results
        /\ py_iter results = Ok elements
        /\ Forall (fun v => discriminator v <> None) elements
        /\ previews = JArr (filter typed_product elements)).
Proof.
  unfold parse_search.
  destruct (next_data_text r) as [text|]; [|intros [= <- <-]; now left].
  destruct (json_loads lib text) as [data|] eqn:El; [cbn [bind]|discriminate].
  destruct (getpath data count_path) as [total'|] eqn:Ec; [cbn [bind]|discriminate].
  destruct (getpath data items_path) as [results|] eqn:Ei; [cbn [bind]|discriminate].
  destruct (py_iter results) as [elements|] eqn:Ee; [cbn [bind]|discriminate].
  destruct (keep_products elements) as [kept|] eqn:Ek; [cbn [bind]|discriminate].
  intros [= <- <-]. right. exists text, data, results, elements.
  destruct (keep_products_ok elements kept Ek) as [-> Hall].
  repeat split; trivial.
Qed.

Lemma previews_of_typed (r : ScrapeApiResponse) :
  Forall (fun v => typed_product v = true) (previews_of lib r).
Proof.
  unfold previews_of.
  destruct (parse_search lib r) as [[previews total]|] eqn:E; [|constructor].
  destruct (parse_search_ok r previews total E)
    as [(_ & -> & _)|(text & data & results & elements & _ & _ & _ & _ & _ & _ & ->)];
    [constructor|].
  apply Forall_forall. intros v Hv. now apply filter_In in Hv.
Qed.

Lemma parse_search_iter (r : ScrapeApiResponse) (previews total : json) :
  parse_search lib r = Ok (previews, total) ->
  py_iter previews = Ok (previews_of lib r).
Proof.
  intros E. unfold previews_of. rewrite E.
  destruct (parse_search_ok r previews total E)
    as [(_ & -> & _)|(text & data & results & elements & _ & _ & _ & _ & _ & _ & ->)];
    reflexivity.
Qed.

Lemma parse_product_ok (r : ScrapeApiResponse) (v : json) :
  parse_product lib r = Ok v ->
  (next_data_text r = None /\ v = JNull)
  \/ (exists text data raw reviews,
        next_data_text r = Some text
        /\ json_loads lib text = Ok data
        /\ getpath data product_path = Ok (JObj raw)
        /\ getpath data reviews_path = Ok reviews
        /\ v = JObj [ (lit "product", JObj (keep_wanted raw));
                      (lit "reviews", reviews) ]).
Proof.
  unfold parse_product.
  destruct (next_data_text r) as [text|]; [|intros [= <-]; now left].
  destruct (json_loads lib text) as [data|] eqn:El; [cbn [bind]|discriminate].
  destruct (getpath data product_path) as [raw|] eqn:Ep; [cbn [bind]|discriminate].
  destruct raw as [| | | | | |raw]; try discriminate. cbn [py_items bind].
  destruct (getpath data reviews_path) as [reviews|] eqn:Er; [cbn [bind]|discriminate].
  intros [= <-]. right. now exists text, data, raw, reviews.
Qed.

Lemma parse_product_shape (r : ScrapeApiResponse) (v : json) :
  parse_product lib r = Ok v -> v = JNull \/ product_record v.
Proof.
  intros H.
  destruct (parse_product_ok r v H)
    as [[_ ->]|(text & data & raw & reviews & _ & _ & _ & _ & ->)]; [now left|].
  right. exists (keep_wanted raw), reviews.
  split; [reflexivity|]. split; [apply keep_wanted_wf|apply keep_wanted_keys].
Qed.

Lemma records_of_shape (pages : list ScrapeApiResponse) :
  Forall product_record (records_of lib pages).
Proof.
  induction pages as [|r pages IH]; cbn [records_of flat_map]; [constructor|].
  apply Forall_app. split; [|exact IH].
  destruct (parse_product lib r) as [v|] eqn:E; [|constructor].
  destruct (parse_product_shape r v E) as [->|H]; [constructor|].
  destruct v; repeat constructor; exact H.
Qed.

Lemma records_of_length (pages : list ScrapeApiResponse) :
  (length (records_of lib pages) <= length pages)%nat.
Proof.
  induction pages as [|r pages IH]; cbn [records_of flat_map]; [constructor|].
  rewrite length_app. fold (records_of lib pages). cbn [length].
  destruct (parse_product lib r) as [v|]; [destruct (is_not_None v)|]; cbn [length]; lia.
Qed.

End ParserOutcomes.

Section ParserExtras.

Variable lib : PyLib.

(** X5. Whenever [parse_search] returns, either the document had no
    blob and the result is the empty dict with count 0, or every element
    of the first stack's items carried a [__typename] and the previews
    are exactly the elements typed ["Product"], in their order: each
    preview is a dict whose [__typename] is the string ["Product"], and
    the count is the value found in the first stack, untouched. *)
Theorem parse_search_success (r : ScrapeApiResponse) (previews total : json) :
  parse_search lib r = Ok (previews, total) ->
  (next_data_text r = None /\ previews = JObj [] /\ total = JInt 0)
  \/ (exists text data elements,
        next_data_text r = Some text
        /\ json_loads lib text = Ok data
        /\ getpath data count_path = Ok total
        /\ (exists results, getpath data items_path = Ok results
                            /\ py_iter results = Ok elements)
        /\ Forall (fun v => discriminator v <> None) elements
        /\ previews = JArr (filter typed_product elements)
        /\ Forall (fun v => exists d,
                     v = JObj d
                     /\ dict_get (lit "__typename") d = Some (JStr (lit "Product")))
                  (filter typed_product elements)
        /\ (length (filter typed_product elements) <= length elements)%nat).
Proof.
  intros H.
  destruct (parse_search_ok lib r previews total H)
    as [Hnone|(text & data & results & elements & Ht & Hl & Hc & Hi & He & Hall & ->)];
    [now left|right].
  exists text, data, elements.
  split; [exact Ht|]. split; [exact Hl|]. split; [exact Hc|].
  split; [now exists results|]. split; [exact Hall|]. split; [reflexivity|].
  split.
  - apply Forall_forall. intros v Hv. apply filter_In in Hv.
    now apply typed_product_spec.
  - apply filter_length_le.
Qed.

(** X6. [parse_search] raises only on a document with a blob: either
    the exception of [json.loads], or, once the blob is decoded, one of
    [KeyError], [IndexError] and [TypeError] from a failing subscript or
    iteration. *)
Theorem parse_search_errors (r : ScrapeApiResponse) (e : exn) :
  parse_search lib r = Raise e ->
  exists text,
    next_data_text r = Some text
    /\ (json_loads lib text = Raise e
        \/ (exists data, json_loads lib text = Ok data) /\ lookup_error e).
Proof.
  unfold parse_search.
  destruct (next_data_text r) as [text|]; [|discriminate].
  intros H. exists text. split; [reflexivity|].
  destruct (json_loads lib text) as [data|e'] eqn:El; cbn [bind] in H;
    [right|left; congruence].
  split; [now exists data|].
  destruct (getpath data count_path) as [total|e'] eqn:Ec; cbn [bind] in H;
    [|injection H as <-; exact (getpath_error _ _ _ Ec)].
  destruct (getpath data items_path) as [results|e'] eqn:Ei; cbn [bind] in H;
    [|injection H as <-; exact (getpath_error _ _ _ Ei)].
  destruct (py_iter results) as [elements|e'] eqn:Ee; cbn [bind] in H.
  - destruct (keep_products elements) as [kept|e'] eqn:Ek; cbn [bind] in H;
      [discriminate|]. injection H as <-.
    destruct (keep_products_error _ _ Ek) as [->| ->]; unfold lookup_error; auto.
  - injection H as <-. destruct results; try discriminate;
      injection Ee as <-; unfold lookup_error; auto.
Qed.

(** X7. [parse_product] raises only on a document with a blob: the
    exception of [json.loads], or [KeyError], [TypeError] or
    [AttributeError]; it is [AttributeError] exactly when the product
    field is there but holds something else than an object. *)
Theorem parse_product_errors (r : ScrapeApiResponse) (e : exn) :
  parse_product lib r = Raise e ->
  exists text,
    next_data_text r = Some text
    /\ (json_loads lib text = Raise e
        \/ exists data,
             json_loads lib text = Ok data
             /\ (e = KeyError \/ e = TypeError \/ e = AttributeError)
             /\ (e = AttributeError <->
                 exists raw, getpath data product_path = Ok raw
                             /\ forall d, raw <> JObj d)).
Proof.
  assert (Hkeys : forall p, p = product_path \/ p = reviews_path ->
            Forall (fun s => exists k, s = Key k) p).
  { intros p [-> | ->]; repeat (constructor; [now eexists|]); constructor. }
  unfold parse_product.
  destruct (next_data_text r) as [text|]; [|discriminate].
  intros H. exists text. split; [reflexivity|].
  destruct (json_loads lib text) as [data|e'] eqn:El; cbn [bind] in H;
    [right; exists data; split; [reflexivity|]|left; congruence].
  destruct (getpath data product_path) as [raw|e'] eqn:Ep; cbn [bind] in H.
  - destruct raw as [| | | | | |raw]; cbn [py_items bind] in H;
      try (injection H as <-; split; [auto|];
           split; [intros _; eexists; split; [reflexivity|discriminate]|reflexivity]).
    destruct (getpath data reviews_path) as [reviews|e'] eqn:Er; cbn [bind] in H;
      [discriminate|]. injection H as <-.
    destruct (getpath_keys_error _ _ _ (Hkeys _ (or_intror eq_refl)) Er) as [->| ->];
      (split; [auto|]; split; [discriminate|]);
      intros (raw' & [= <-] & Hraw); now destruct (Hraw raw).
  - injection H as <-.
    destruct (getpath_keys_error _ _ _ (Hkeys _ (or_introl eq_refl)) Ep) as [->| ->];
      (split; [auto|]; split; [discriminate|]);
      intros (raw' & Hd & _); discriminate.
Qed.

(** X8. The product mapping of a record is a dict of at most 12
    entries without repeated keys; it has no key outside the allow-list,
    holds for every allow-listed key what the raw product holds, equals
    the raw product when that has allow-listed keys only, and filtering
    it once more changes nothing. *)
Theorem parse_product_mapping (r : ScrapeApiResponse) (v : json) :
  parse_product lib r = Ok v -> is_not_None v = true ->
  exists raw product reviews,
    (exists text data,
       next_data_text r = Some text /\ json_loads lib text = Ok data
       /\ getpath data product_path = Ok (JObj raw)
       /\ getpath data reviews_path = Ok reviews)
    /\ v = JObj [ (lit "product", JObj product); (lit "reviews", reviews) ]
    /\ dict_wf product
    /\ (length product <= 12)%nat
    /\ (forall k, ~ In k wanted_product_keys -> dict_get k product = None)
    /\ (dict_wf raw -> forall k, In k wanted_product_keys ->
                       dict_get k product = dict_get k raw)
    /\ (dict_wf raw -> incl (keys raw) wanted_product_keys -> product = raw)
    /\ keep_wanted product = product.
Proof.
  intros H Hv.
  destruct (parse_product_ok lib r v H)
    as [[_ ->]|(text & data & raw & reviews & Ht & Hl & Hp & Hr & ->)];
    [discriminate|].
  pose proof (keep_wanted_wf raw) as Hwf.
  pose proof (keep_wanted_keys raw) as Hincl.
  exists raw, (keep_wanted raw), reviews.
  split; [now exists text, data|]. split; [reflexivity|]. split; [exact Hwf|].
  split; [|split; [|split; [|split]]].
  - rewrite <- (length_map fst). change (map fst (keep_wanted raw)) with (keys (keep_wanted raw)).
    apply (NoDup_incl_length Hwf Hincl).
  - intros k Hk. apply dict_get_absent. intros Hin. apply Hk, Hincl, Hin.
  - intros Hraw k Hk. rewrite (keep_wanted_filter raw Hraw).
    now apply dict_get_filter_wanted.
  - intros Hraw Hall. rewrite (keep_wanted_filter raw Hraw).
    now apply filter_wanted_all.
  - rewrite (keep_wanted_filter _ Hwf). now apply filter_wanted_all.
Qed.

End ParserExtras.

(** ** Discovery *)

Lemma NoDup_map_inj {A B} (f : A -> B) (l : list A) :
  (forall x y, In x l -> In y l -> f x = f y -> x = y) ->
  NoDup l -> NoDup (map f l).
Proof.
  intros Hinj H. induction H as [|x l Hx Hl IH]; cbn [map]; constructor.
  - rewrite in_map_iff. intros (y & Hy & Hin). apply Hx.
    assert (E : x = y) by (apply Hinj; [now left|now right|now symmetry]).
    now rewrite E.
  - apply IH. intros a b Ha Hb. apply Hinj; now right.
Qed.

Lemma py_range_NoDup (a b : Z) : NoDup (py_range a b).
Proof.
  unfold py_range. apply NoDup_map_inj; [|apply seq_NoDup].
  intros x y _ _ H. lia.
Qed.

Lemma flat_map_Forall {A B} (P : B -> Prop) (f : A -> list B) (l : list A) :
  (forall a, Forall P (f a)) -> Forall P (flat_map f l).
Proof.
  intros H. induction l as [|a l IH]; cbn [flat_map]; [constructor|].
  apply Forall_app. now split.
Qed.

Section DiscoverOutcomes.

Variable lib : PyLib.
Variable session : ScrapflyClient.

(** The course of a discovery run, stage by stage. *)
Lemma discover_cases (search : pystr) (log : list ScrapeConfig) :
  match quote_plus search [] with
  | Raise e => discover_walmart lib search session log = (log, Raise e)
  | Ok enc =>
      let request i := scrape_config (page_url enc i) in
      match parse_search lib (async_scrape session (request 1)) with
      | Raise e =>
          discover_walmart lib search session log = (log ++ [request 1], Raise e)
      | Ok (previews, total) =>
          match q <- py_truediv total 40;; math_ceil q with
          | Raise e =>
              discover_walmart lib search session log
                = (log ++ [request 1], Raise e)
          | Ok c =>
              let others := py_range 2 ((if 25 <? c then 25 else c) + 1) in
              discover_walmart lib search session log
                = (log ++ map request (1 :: others),
                   for_each (extend_previews lib)
                     (concurrent_scrape session (map request others)) previews)
          end
      end
  end.
Proof.
  unfold discover_walmart, io_bind, lift, await_scrape, await_concurrent.
  destruct (quote_plus search []) as [enc|e] eqn:Henc.
  - rewrite (create_search_url_default search enc Henc). cbv zeta.
    destruct (parse_search lib _) as [[previews total]|e]; [|reflexivity].
    destruct (py_truediv total 40) as [q|e]; cbn [bind]; [|reflexivity].
    destruct (math_ceil q) as [c|e]; [|reflexivity].
    rewrite (map_py_page_urls search enc _ Henc
               (later_pages_small _ (clamp_25 c))).
    rewrite map_map, <- app_assoc. cbn [map app].
    now destruct (for_each _ _ _).
  - now rewrite (create_search_url_raise search None e Henc).
Qed.

Lemma extend_previews_list (l : list json) (r : ScrapeApiResponse) :
  extend_previews lib (JArr l) r =
    match parse_search lib r with
    | Ok _ => Ok (JArr (l ++ previews_of lib r))
    | Raise e => Raise e
    end.
Proof.
  unfold extend_previews. cbn [py_extend bind].
  destruct (parse_search lib r) as [[previews total]|e] eqn:E; [|reflexivity].
  cbn [bind fst]. now rewrite (parse_search_iter lib r previews total E).
Qed.

Lemma extend_loop (batch : list ScrapeApiResponse) (l : list json) :
  Forall (fun r => exists p, parse_search lib r = Ok p) batch ->
  for_each (extend_previews lib) batch (JArr l)
    = Ok (JArr (l ++ flat_map (previews_of lib) batch)).
Proof.
  intros H. revert l. induction H as [|r batch [p Hp] _ IH]; intros l;
    cbn [for_each flat_map].
  - now rewrite app_nil_r.
  - rewrite extend_previews_list, Hp. cbn [bind]. now rewrite IH, <- app_assoc.
Qed.

Lemma extend_loop_ok (batch : list ScrapeApiResponse) (l : list json) (found : json) :
  for_each (extend_previews lib) batch (JArr l) = Ok found ->
  found = JArr (l ++ flat_map (previews_of lib) batch).
Proof.
  revert l. induction batch as [|r batch IH]; intros l; cbn [for_each flat_map].
  - intros [= <-]. now rewrite app_nil_r.
  - rewrite extend_previews_list.
    destruct (parse_search lib r); [cbn [bind]|discriminate].
    intros H. apply IH in H. now rewrite H, <- app_assoc.
Qed.

End DiscoverOutcomes.

Section DiscoverExtras.

Variable lib : PyLib.
Variable session : ScrapflyClient.

(** X9. When every further page parses, discovery returns the previews
    of page 1 followed by those of the other pages in the order the
    batch delivers them; a page without blob adds nothing, and a page
    with previews adds them whatever count it reports. *)
Theorem discover_collects_previews
    (search enc : pystr) (log : list ScrapeConfig) (first : list json)
    (n : Z) (q : spec_float) :
  quote_plus search [] = Ok enc ->
  parse_search lib (async_scrape session (scrape_config (page_url enc 1)))
    = Ok (JArr first, JInt n) ->
  int_true_divide n 40 = Ok q ->
  Forall (fun r => exists p, parse_search lib r = Ok p)
    (concurrent_scrape session
       (map (fun i => scrape_config (page_url enc i))
            (py_range 2 (max_page_of n + 1)))) ->
  snd (discover_walmart lib search session log) =
    Ok (JArr (first ++
              flat_map (previews_of lib)
                (concurrent_scrape session
                   (map (fun i => scrape_config (page_url enc i))
                        (py_range 2 (max_page_of n + 1))))))
  /\ (forall r, next_data_text r = None -> previews_of lib r = [])
  /\ (forall r l t, parse_search lib r = Ok (JArr l, t) -> previews_of lib r = l).
Proof.
  intros Henc Hfirst Hq Hbatch.
  rewrite (discover_log lib session search enc log (JArr first) n q Henc Hfirst Hq).
  cbn [snd]. split; [now apply extend_loop|]. split.
  - intros r Hr. unfold previews_of. now rewrite (parse_search_absent lib r Hr).
  - intros r l t Hr. unfold previews_of. now rewrite Hr.
Qed.

(** X10. Whatever the pages hold, a discovery run that returns does so
    with a list whose entries are all typed ["Product"], or, only when
    page 1 had no blob, with the empty dict. *)
Theorem discover_only_products
    (search : pystr) (log : list ScrapeConfig) (found : json) :
  snd (discover_walmart lib search session log) = Ok found ->
  (exists l, found = JArr l /\ Forall (fun v => typed_product v = true) l)
  \/ (found = JObj []
      /\ exists enc, quote_plus search [] = Ok enc
           /\ next_data_text
                (async_scrape session (scrape_config (page_url enc 1))) = None).
Proof.
  pose proof (discover_cases lib session search log) as H. cbv zeta in H.
  destruct (quote_plus search []) as [enc|e]; [|rewrite H; discriminate].
  destruct (parse_search lib _) as [[previews total]|e] eqn:Hfirst;
    [|rewrite H; discriminate].
  destruct (q <- py_truediv total 40;; math_ceil q) as [c|e];
    [|rewrite H; discriminate].
  rewrite H. cbn [snd]. clear H. intros Hloop.
  destruct (parse_search_ok lib _ _ _ Hfirst)
    as [(Hnone & -> & _)
       |(text & data & results & elements & _ & _ & _ & _ & _ & _ & ->)].
  - right. destruct (concurrent_scrape session _) as [|r batch].
    + injection Hloop as <-. split; [reflexivity|]. now exists enc.
    + discriminate.
  - left. apply extend_loop_ok in Hloop. eexists. split; [exact Hloop|].
    apply Forall_app. split.
    + apply Forall_forall. intros v Hv. now apply filter_In in Hv.
    + apply flat_map_Forall, previews_of_typed.
Qed.

(** X11. The requests a discovery run adds to the log are search
    requests for country US with protection on, no URL among them is
    requested twice, and page 1 comes first; nothing is requested when
    the query cannot be quoted. *)
Theorem discover_requests_distinct (search : pystr) (log : list ScrapeConfig) :
  exists added,
    fst (discover_walmart lib search session log) = log ++ added
    /\ NoDup (map url added)
    /\ Forall search_request added
    /\ (forall enc, quote_plus search [] = Ok enc ->
          exists others, added = scrape_config (page_url enc 1) :: others)
    /\ (raises (quote_plus search []) -> added = []).
Proof.
  pose proof (discover_cases lib session search log) as H. cbv zeta in H.
  destruct (quote_plus search []) as [enc|e].
  - assert (Hone : exists added,
              added = [scrape_config (page_url enc 1)]
              /\ NoDup (map url added) /\ Forall search_request added).
    { eexists. split; [reflexivity|]. split.
      - repeat constructor. intros [].
      - repeat constructor; apply page_url_request. }
    destruct Hone as (one & Hone & Hnd & Hreq).
    destruct (parse_search lib _) as [[previews total]|e].
    + destruct (q <- py_truediv total 40;; math_ceil q) as [c|e].
      * eexists. rewrite H. cbn [fst]. split; [reflexivity|].
        split; [|split; [|split]].
        -- rewrite map_map. cbn [url scrape_config].
           apply NoDup_map_inj.
           ++ intros x y _ _. apply page_url_inj.
           ++ constructor; [|apply py_range_NoDup].
              rewrite py_range_In. lia.
        -- apply Forall_forall. intros cfg Hin. apply in_map_iff in Hin.
           destruct Hin as (i & <- & _). apply page_url_request.
        -- intros enc' [= <-]. cbn [map]. now eexists.
        -- intros [e He]. discriminate.
      * exists one. rewrite H, Hone. cbn [fst].
        split; [reflexivity|]. rewrite <- Hone.
        split; [exact Hnd|]. split; [exact Hreq|]. split.
        -- intros enc' [= <-]. rewrite Hone. now exists [].
        -- intros [e' He]. discriminate.
    + exists one. rewrite H, Hone. cbn [fst].
      split; [reflexivity|]. rewrite <- Hone.
      split; [exact Hnd|]. split; [exact Hreq|]. split.
      * intros enc' [= <-]. rewrite Hone. now exists [].
      * intros [e' He]. discriminate.
  - exists []. rewrite H, app_nil_r. cbn [fst map].
    split; [reflexivity|]. split; [constructor|]. split; [constructor|].
    split; [discriminate|reflexivity].
Qed.

(** X12. When page 1 reports a count that is no number ([null], a
    string, a list, a dict), discovery ends in [TypeError]; a count of
    NaN ends in [ValueError], an infinite one in [OverflowError].  In
    each case page 1 is the only page requested. *)
Theorem discover_bad_count
    (search enc : pystr) (log : list ScrapeConfig) (previews total : json)
    (e : exn) :
  quote_plus search [] = Ok enc ->
  parse_search lib (async_scrape session (scrape_config (page_url enc 1)))
    = Ok (previews, total) ->
  count_error total = Some e ->
  discover_walmart lib search session log
    = (log ++ [scrape_config (page_url enc 1)], Raise e).
Proof.
  intros Henc Hfirst He.
  pose proof (discover_cases lib session search log) as H. cbv zeta in H.
  rewrite Henc, Hfirst in H.
  assert (Hc : (q <- py_truediv total 40;; math_ceil q) = Raise e).
  { destruct total as [| | |f|s|l|d]; try discriminate;
      try (injection He as <-; reflexivity).
    destruct f as [| | |]; try discriminate; injection He as <-; reflexivity. }
  now rewrite Hc in H.
Qed.

End DiscoverExtras.

(** X13. For every integer count [n] with [|n| < 40 * 2 ^ 1022], the
    computation [math.ceil(n / 40)] ends normally: it is the exact ceiling
    for [0 <= n <= 2000], at least 26 beyond and at most 0 for a negative
    count, so that the clamped bound is [min (ceil (n / 40)) 25] for
    every count [n >= 0] and the pages requested are those of the exact
    bound for every [n]. *)
Theorem page_bound_total (n : Z) :
  Z.abs n < 40 * 2 ^ 1022 ->
  exists c,
    (q <- py_truediv (JInt n) 40;; math_ceil q) = Ok c
    /\ (0 <= n <= 2000 -> c = ceil_div n 40)
    /\ (2000 < n -> 26 <= c)
    /\ (n < 0 -> c <= 0)
    /\ (0 <= n -> (if 25 <? c then 25 else c) = Z.min (ceil_div n 40) 25)
    /\ py_range 2 ((if 25 <? c then 25 else c) + 1)
       = py_range 2 (max_page_of n + 1).
Proof.
  intros Hn. destruct (int_true_divide_finite n Hn) as [q Hq].
  destruct (ceil_quotient n q Hq) as (c & Hc & Hrange & Hclamp).
  exists c. cbn [py_truediv]. rewrite Hq. cbn [bind].
  split; [exact Hc|]. split; [|split; [|split; [|split]]].
  - intros Hsmall. pose proof (ceil_quotient_small n q Hsmall Hq) as E.
    rewrite Hc in E. now injection E.
  - intros Hlarge. destruct n as [|p|p]; try lia.
    destruct (ceil_quotient_large p q Hlarge Hq) as (c' & E & Hc').
    rewrite Hc in E. injection E as <-. exact Hc'.
  - intros Hneg. destruct n as [|p|p]; try lia.
    destruct (ceil_quotient_negative p q Hq) as (c' & E & Hc').
    rewrite Hc in E. injection E as <-. exact Hc'.
  - exact Hclamp.
  - exact Hrange.
Qed.

(** ** Collection *)

Lemma map_py_app {A B} (f : A -> pyresult B) (l1 l2 : list A) :
  map_py f (l1 ++ l2) =
    (a <- map_py f l1;; b <- map_py f l2;; Ok (a ++ b)).
Proof.
  induction l1 as [|x l1 IH]; cbn [app map_py bind].
  - now destruct (map_py f l2).
  - destruct (f x); cbn [bind]; [|reflexivity]. rewrite IH.
    destruct (map_py f l1); cbn [bind]; [|reflexivity].
    now destruct (map_py f l2).
Qed.

Lemma map_py_perm {A B} (f : A -> pyresult B) (l1 l2 : list A) :
  Permutation l1 l2 ->
  forall u1, map_py f l1 = Ok u1 ->
  exists u2, map_py f l2 = Ok u2 /\ Permutation u1 u2.
Proof.
  induction 1 as [|x l l' _ IH|x y l|l l' l'' _ IH1 _ IH2]; intros u1.
  - intros [= <-]. now exists [].
  - cbn [map_py]. destruct (f x) as [b|]; [cbn [bind]|discriminate].
    destruct (map_py f l) as [bs|]; [cbn [bind]|discriminate].
    intros [= <-]. destruct (IH bs eq_refl) as (bs' & -> & Hp).
    exists (b :: bs'). split; [reflexivity|now constructor].
  - cbn [map_py]. destruct (f y) as [b|]; [cbn [bind]|discriminate].
    destruct (f x) as [a|]; [cbn [bind]|discriminate].
    destruct (map_py f l) as [bs|]; [cbn [bind]|discriminate].
    intros [= <-]. exists (a :: b :: bs). split; [reflexivity|constructor].
  - intros H1. destruct (IH1 u1 H1) as (u' & H' & P1).
    destruct (IH2 u' H') as (u2 & H2 & P2).
    exists u2. split; [exact H2|now transitivity u'].
Qed.

Section CollectOutcomes.

Variable lib : PyLib.
Variable session : ScrapflyClient.

Lemma collect_loop_ok (pages : list ScrapeApiResponse) (acc records : list json) :
  for_each (append_product lib) pages acc = Ok records ->
  Forall (fun r => exists v, parse_product lib r = Ok v) pages
  /\ records = acc ++ records_of lib pages.
Proof.
  revert acc. induction pages as [|r pages IH]; intros acc;
    cbn [for_each records_of flat_map].
  - intros [= <-]. split; [constructor|now rewrite app_nil_r].
  - unfold append_product at 1.
    destruct (parse_product lib r) as [v|] eqn:E; [cbn [bind]|discriminate].
    intros H. apply IH in H. destruct H as [Hall ->].
    split; [constructor; [now exists v|exact Hall]|].
    fold (records_of lib pages).
    destruct (is_not_None v); [now rewrite <- app_assoc|reflexivity].
Qed.

Lemma collect_loop_raise (before after : list ScrapeApiResponse)
    (r : ScrapeApiResponse) (acc : list json) (e : exn) :
  Forall (fun r => exists v, parse_product lib r = Ok v) before ->
  parse_product lib r = Raise e ->
  for_each (append_product lib) (before ++ r :: after) acc = Raise e.
Proof.
  intros Hb Hr. rewrite for_each_app, (collect_loop lib before acc Hb).
  cbn [bind for_each]. unfold append_product at 1. now rewrite Hr.
Qed.

(** The course of [scrape_walmart], stage by stage. *)
Lemma scrape_walmart_cases (search : pystr) (log : list ScrapeConfig) :
  match discover_walmart lib search session log with
  | (log', Raise e) => scrape_walmart lib search session log = (log', Raise e)
  | (log', Ok found) =>
      match previews <- py_iter found;; map_py (product_url lib) previews with
      | Raise e => scrape_walmart lib search session log = (log', Raise e)
      | Ok urls =>
          scrape_walmart lib search session log
            = (log' ++ map scrape_config urls,
               for_each (append_product lib)
                 (concurrent_scrape session (map scrape_config urls)) [])
      end
  end.
Proof.
  unfold scrape_walmart, _scrape_products_by_url, io_bind, lift, await_concurrent.
  destruct (discover_walmart lib search session log) as [log' [found|e]];
    [|reflexivity].
  destruct (previews <- py_iter found;; map_py (product_url lib) previews);
    [|reflexivity].
  now destruct (for_each _ _ _).
Qed.

End CollectOutcomes.

Section CollectExtras.

Variable lib : PyLib.
Variable session : ScrapflyClient.

(** X14. [_scrape_products_by_url] hands the client one batch with one
    request per URL, in the order given, whatever the pages hold.  It
    returns exactly when every delivered page parses, and then with the
    records of the delivered pages in delivery order, never more of them
    than pages; otherwise it ends in the exception of the first
    delivered page that fails to parse. *)
Theorem scrape_products_outcome (urls : list pystr) (log : list ScrapeConfig) :
  fst (_scrape_products_by_url lib urls session log)
    = log ++ map scrape_config urls
  /\ (forall records,
        snd (_scrape_products_by_url lib urls session log) = Ok records <->
        Forall (fun r => exists v, parse_product lib r = Ok v)
               (concurrent_scrape session (map scrape_config urls))
        /\ records
           = records_of lib (concurrent_scrape session (map scrape_config urls)))
  /\ (forall before r after e,
        concurrent_scrape session (map scrape_config urls)
          = before ++ r :: after ->
        Forall (fun r => exists v, parse_product lib r = Ok v) before ->
        parse_product lib r = Raise e ->
        snd (_scrape_products_by_url lib urls session log) = Raise e)
  /\ (length (records_of lib (concurrent_scrape session (map scrape_config urls)))
      <= length (concurrent_scrape session (map scrape_config urls)))%nat.
Proof.
  unfold _scrape_products_by_url, io_bind, await_concurrent, lift.
  set (batch := concurrent_scrape session (map scrape_config urls)).
  cbn [fst snd]. split; [reflexivity|]. split; [|split].
  - intros records. split.
    + intros H. apply collect_loop_ok in H. exact H.
    + intros [Hall ->]. exact (collect_loop lib batch [] Hall).
  - intros before r after e -> Hb Hr. now apply collect_loop_raise.
  - apply records_of_length.
Qed.

(** X15. Every record [scrape_walmart] returns is a dict with exactly
    the keys [product] and [reviews], in this order, whose product is a
    dict without repeated keys and without a key outside the
    allow-list. *)
Theorem scrape_walmart_records
    (search : pystr) (log : list ScrapeConfig) (records : list json) :
  snd (scrape_walmart lib search session log) = Ok records ->
  Forall product_record records.
Proof.
  pose proof (scrape_walmart_cases lib session search log) as H.
  destruct (discover_walmart lib search session log) as [log' [found|e]];
    [|rewrite H; discriminate].
  destruct (previews <- py_iter found;; map_py (product_url lib) previews)
    as [urls|e]; [|rewrite H; discriminate].
  rewrite H. cbn [snd]. intros Hloop.
  apply collect_loop_ok in Hloop. destruct Hloop as [_ ->].
  apply records_of_shape.
Qed.

(** X16. A preview without [canonicalUrl] ends the run in [KeyError],
    one whose [canonicalUrl] is a truthy non-string in [TypeError]; in
    both cases no product page has been requested: the log is the one
    discovery left. *)
Theorem scrape_walmart_bad_canonical
    (search : pystr) (log log' : list ScrapeConfig) (found : json)
    (before after : list json) (d : dict) :
  discover_walmart lib search session log = (log', Ok found) ->
  py_iter found = Ok (before ++ JObj d :: after) ->
  Forall (fun p => exists u, product_url lib p = Ok u) before ->
  (dict_get (lit "canonicalUrl") d = None ->
   scrape_walmart lib search session log = (log', Raise KeyError))
  /\ (forall v, dict_get (lit "canonicalUrl") d = Some v ->
        truthy v = true -> (forall s, v <> JStr s) ->
        scrape_walmart lib search session log = (log', Raise TypeError)).
Proof.
  intros Hdisc Hiter Hbefore.
  pose proof (scrape_walmart_cases lib session search log) as H.
  rewrite Hdisc, Hiter in H. cbn [bind] in H. rewrite map_py_app in H.
  assert (Hb : exists urls, map_py (product_url lib) before = Ok urls).
  { clear H Hiter. induction Hbefore as [|p before [u Hu] _ [urls IH]];
      [now exists []|].
    exists (u :: urls). cbn [map_py]. now rewrite Hu, IH. }
  destruct Hb as [urls Hb]. rewrite Hb in H. cbn [bind map_py] in H.
  split.
  - intros Hd. unfold product_url at 1 in H. cbn [getitem] in H.
    now rewrite Hd in H.
  - intros v Hd Hv Hs. unfold product_url at 1 in H. cbn [getitem] in H.
    rewrite Hd in H. cbn [bind] in H. unfold urljoin_value in H.
    rewrite Hv in H. cbn [negb] in H.
    destruct v; try exact H. now destruct (Hs s).
Qed.

(** X17. A preview whose [canonicalUrl] is falsy ([null], the empty
    string, 0, [false], an empty list or dict) resolves to the base URL,
    so the root of the site is requested as its product page, in the
    preview's place among the product requests. *)
Theorem scrape_walmart_falsy_canonical
    (search : pystr) (log log' : list ScrapeConfig) (found : json)
    (before after : list json) (d : dict) (v : json)
    (urls_before urls_after : list pystr) :
  discover_walmart lib search session log = (log', Ok found) ->
  py_iter found = Ok (before ++ JObj d :: after) ->
  map_py (product_url lib) before = Ok urls_before ->
  map_py (product_url lib) after = Ok urls_after ->
  dict_get (lit "canonicalUrl") d = Some v ->
  truthy v = false ->
  product_url lib (JObj d) = Ok (lit "https://www.walmart.com/")
  /\ fst (scrape_walmart lib search session log)
     = log' ++ map scrape_config
                 (urls_before ++ lit "https://www.walmart.com/" :: urls_after).
Proof.
  intros Hdisc Hiter Hb Ha Hd Hv.
  assert (Hp : product_url lib (JObj d) = Ok (lit "https://www.walmart.com/")).
  { unfold product_url. cbn [getitem]. rewrite Hd. cbn [bind].
    unfold urljoin_value. now rewrite Hv. }
  split; [exact Hp|].
  pose proof (scrape_walmart_cases lib session search log) as H.
  rewrite Hdisc, Hiter in H. cbn [bind] in H.
  rewrite map_py_app, Hb in H. cbn [bind map_py] in H.
  rewrite Hp, Ha in H. cbn [bind] in H. now rewrite H.
Qed.

Lemma discover_added (search : pystr) (log : list ScrapeConfig) :
  exists added,
    fst (discover_walmart lib search session log) = log ++ added
    /\ Forall search_request added.
Proof.
  pose proof (discover_cases lib session search log) as H. cbv zeta in H.
  assert (Hone : forall enc, Forall search_request [scrape_config (page_url enc 1)]).
  { intros enc. repeat constructor; apply page_url_request. }
  destruct (quote_plus search []) as [enc|e].
  - destruct (parse_search lib _) as [[previews total]|e].
    + destruct (q <- py_truediv total 40;; math_ceil q) as [c|e].
      * eexists. rewrite H. split; [reflexivity|].
        apply Forall_forall. intros cfg Hin. apply in_map_iff in Hin.
        destruct Hin as (i & <- & _). apply page_url_request.
      * eexists. rewrite H. split; [reflexivity|apply Hone].
    + eexists. rewrite H. split; [reflexivity|apply Hone].
  - exists []. rewrite H, app_nil_r. split; [reflexivity|constructor].
Qed.

(** X18. The log of a run of [scrape_walmart] is the old log followed
    by the search requests of discovery, at most 25, and then by the
    product requests, all made for country US with protection on; a
    failed discovery leaves no product request, and the run never
    returns more records than product pages were delivered. *)
Theorem scrape_walmart_requests (search : pystr) (log : list ScrapeConfig) :
  exists searches products,
    fst (discover_walmart lib search session log) = log ++ searches
    /\ fst (scrape_walmart lib search session log) = log ++ searches ++ products
    /\ Forall search_request searches
    /\ (length searches <= 25)%nat
    /\ Forall (fun c => country c = lit "US" /\ asp c = true) products
    /\ (raises (snd (discover_walmart lib search session log)) -> products = [])
    /\ (forall records,
          snd (scrape_walmart lib search session log) = Ok records ->
          (length records <= length (concurrent_scrape session products))%nat).
Proof.
  destruct (discover_added search log) as (searches & Hs & Hreq).
  pose proof (discover_at_most_25 lib session search log) as Hlen.
  rewrite Hs, length_app in Hlen.
  pose proof (scrape_walmart_cases lib session search log) as H.
  destruct (discover_walmart lib search session log) as [log' [found|e]];
    cbn [fst snd] in *; subst log'.
  - destruct (previews <- py_iter found;; map_py (product_url lib) previews)
      as [urls|e].
    + exists searches, (map scrape_config urls). rewrite H, app_assoc. cbn [fst snd].
      split; [reflexivity|]. split; [reflexivity|]. split; [exact Hreq|].
      split; [lia|]. split; [|split].
      * apply Forall_forall. intros c Hc. apply in_map_iff in Hc.
        destruct Hc as (u & <- & _). now split.
      * intros [e He]. discriminate.
      * intros records Hr. apply collect_loop_ok in Hr. destruct Hr as [_ ->].
        apply records_of_length.
    + exists searches, []. rewrite H, app_nil_r. cbn [fst snd].
      split; [reflexivity|]. split; [reflexivity|]. split; [exact Hreq|].
      split; [lia|]. split; [constructor|]. split; [reflexivity|discriminate].
  - exists searches, []. rewrite H, app_nil_r. cbn [fst snd].
    split; [reflexivity|]. split; [reflexivity|]. split; [exact Hreq|].
    split; [lia|]. split; [constructor|]. split; [reflexivity|discriminate].
Qed.

End CollectExtras.

(** X19. When page 1 of a search has no blob, [scrape_walmart] over a
    client that serves fixed documents requests that page only and
    returns the empty list: the empty dict discovery returns yields no
    product URL, and the empty batch no record. *)
Theorem scrape_walmart_without_blob
    (lib : PyLib) (session : ScrapflyClient) (search enc : pystr)
    (log : list ScrapeConfig) :
  delivers session ->
  quote_plus search [] = Ok enc ->
  next_data_text (async_scrape session (scrape_config (page_url enc 1))) = None ->
  scrape_walmart lib search session log
    = (log ++ [scrape_config (page_url enc 1)], Ok [])
  /\ snd (discover_walmart lib search session log) = Ok (JObj [])
  /\ (previews <- py_iter (JObj []);; map_py (product_url lib) previews) = Ok [].
Proof.
  intros Hdel Henc Hnone.
  pose proof (scrape_walmart_cases lib session search log) as H.
  pose proof (discover_cases lib session search log) as D.
  rewrite Henc in D. cbv beta zeta in D.
  rewrite (parse_search_absent lib _ Hnone) in D. cbv beta iota in D.
  change (q <- py_truediv (JInt 0) 40;; math_ceil q) with (@Ok Z 0) in D.
  cbv beta iota in D.
  change (py_range 2 ((if 25 <? 0 then 25 else 0) + 1)) with (@nil Z) in D.
  cbn [map] in D. rewrite (permutation_of_nil _ (Hdel [])) in D.
  cbn [for_each] in D. rewrite D in H |- *.
  cbn [py_iter keys map bind map_py snd] in H |- *.
  rewrite (permutation_of_nil _ (Hdel [])) in H. cbn [for_each] in H.
  rewrite H, app_nil_r. repeat split.
Qed.

(** ** Other forms of canonical URL *)

Lemma find_app_absent (c : Z) (s t : pystr) :
  char_in c s = false ->
  find c (s ++ t) = option_map (Nat.add (length s)) (find c t).
Proof.
  induction s as [|x s IH]; cbn [app find length].
  - intros _. now destruct (find c t).
  - unfold char_in. cbn [existsb]. rewrite orb_false_iff. intros [Hx Hs].
    rewrite Z.eqb_sym, Hx, (IH Hs). now destruct (find c t).
Qed.

(** A relative reference is not taken for a URL with a scheme: the
    first colon, if any, comes after the [?] or [#] that ends the path. *)
Lemma split_scheme_relative (p dflt : pystr) (q f : option pystr) :
  char_in (code ":") p = false ->
  split_scheme (p ++ suffix "?" q ++ suffix "#" f) dflt
    = (dflt, p ++ suffix "?" q ++ suffix "#" f).
Proof.
  intros Hp. unfold split_scheme. rewrite (find_app_absent _ p _ Hp).
  assert (H : suffix "?" q ++ suffix "#" f = []
              \/ exists m rest, suffix "?" q ++ suffix "#" f = m :: rest
                                /\ scheme_char m = false /\ m <> code ":").
  { destruct q as [qs|]; [right; exists (code "?"), (qs ++ suffix "#" f)|].
    - repeat split. discriminate.
    - destruct f as [fs|]; [right; exists (code "#"), fs|now left].
      repeat split. discriminate. }
  destruct H as [->|(m & rest & -> & Hm & Hcolon)]; [reflexivity|].
  cbn [find]. apply Z.eqb_neq in Hcolon. rewrite Hcolon.
  destruct (find (code ":") rest) as [j|]; [|reflexivity].
  cbn [option_map]. rewrite <- plus_n_Sm, <- (Nat.add_succ_r (length p) j).
  rewrite firstn_app_2. cbn [firstn].
  rewrite forallb_app. cbn [forallb]. rewrite Hm.
  now rewrite andb_false_r, andb_false_r.
Qed.

Section ResolutionOutcomes.

Variable lib : PyLib.

Lemma split_netloc_authority (netloc tail : pystr) :
  authority netloc = true -> until_delim tail = ([], tail) ->
  split_netloc lib (lit "//" ++ netloc ++ tail) = Ok (netloc, tail).
Proof.
  unfold authority. rewrite andb_true_iff. intros [_ Hnet] Htail.
  rewrite forallb_forall in Hnet.
  unfold split_netloc, _splitnetloc.
  change (starts_with (lit "//") (lit "//" ++ netloc ++ tail))
    with (str_eqb (lit "//") (lit "//")).
  change (skipn 2 (lit "//" ++ netloc ++ tail)) with (netloc ++ tail).
  cbn [str_eqb lit list_ascii_of_string map Z.eqb code andb].
  rewrite until_delim_app.
  - assert (Ho : char_in (code "[") netloc = false).
    { apply char_in_absent, forallb_forall. intros c Hc.
      apply negb_true_iff, Z.eqb_neq. apply (authority_char_facts c), Hnet, Hc. }
    assert (Hcl : char_in (code "]") netloc = false).
    { apply char_in_absent, forallb_forall. intros c Hc.
      apply negb_true_iff, Z.eqb_neq. apply (authority_char_facts c), Hnet, Hc. }
    rewrite Ho, Hcl. reflexivity.
  - apply forallb_forall. intros c Hc. apply (authority_char_facts c), Hnet, Hc.
  - exact Htail.
Qed.

Lemma urlsplit_network_path (netloc path : pystr) (q f : option pystr) :
  authority netloc = true -> absolute_path path = true ->
  valid_query q = true -> valid_fragment f = true ->
  urlsplit lib (lit "//" ++ netloc ++ path ++ suffix "?" q ++ suffix "#" f)
           (lit "https")
  = Ok (lit "https", netloc, path, part_or_empty q, part_or_empty f).
Proof.
  intros Hn Hp Hq Hf. pose proof Hn as Hauth.
  unfold authority in Hn. unfold absolute_path in Hp.
  rewrite andb_true_iff in Hn, Hp. destruct Hn as [_ Hnet].
  destruct Hp as [Hpath Hplain]. rewrite forallb_forall in Hnet.
  set (tail := path ++ suffix "?" q ++ suffix "#" f).
  set (u := lit "//" ++ netloc ++ tail).
  destruct (plain_path_facts path Hplain) as (Hk & _).
  destruct (valid_query_facts q Hq) as (Hqk & _).
  destruct (valid_fragment_facts f Hf) as (Hfk & _).
  unfold urlsplit.
  change (lstrip_c0 u) with u.
  change (remove_unsafe (strip_c0 (lit "https"))) with (lit "https").
  assert (Hsafe : remove_unsafe u = u).
  { assert (Hnk : forallb kept_char netloc = true).
    { apply forallb_forall. intros c Hc.
      apply (authority_char_facts c), Hnet, Hc. }
    apply filter_all. change (forallb kept_char u = true).
    unfold u, tail. rewrite !forallb_app, Hnk, Hk, Hqk, Hfk. reflexivity. }
  rewrite Hsafe.
  assert (Hscheme : split_scheme u (lit "https") = (lit "https", u)).
  { unfold split_scheme.
    destruct (find (code ":") u) as [i|]; [|reflexivity].
    change (hd 0 u) with (code "/"). change (is_ascii_alpha (code "/")) with false.
    now rewrite andb_false_r. }
  rewrite Hscheme. unfold u.
  rewrite (split_netloc_authority netloc tail Hauth).
  - cbn [bind]. unfold tail.
    destruct (split_tail path q f Hplain Hq Hf) as [E1 E2].
    rewrite E1. cbv beta iota. rewrite E2. cbv beta iota.
    unfold _checknetloc.
    assert (Hascii : is_ascii netloc = true).
    { apply forallb_forall. intros c Hc. apply (authority_char_facts c), Hnet, Hc. }
    rewrite Hascii, orb_true_r. reflexivity.
  - apply until_delim_rest.
    rewrite orb_true_iff, negb_true_iff in Hpath. exact Hpath.
Qed.

(** A network-path reference [//host/path] keeps its host and takes the
    scheme of the base. *)
Lemma urljoin_network_path (netloc path : pystr) (q f : option pystr) :
  authority netloc = true -> absolute_path path = true ->
  valid_query q = true -> valid_fragment f = true ->
  urljoin lib base_url (lit "//" ++ netloc ++ path
                        ++ suffix "?" q ++ suffix "#" f)
  = Ok (lit "https://" ++ netloc ++ path ++ suffix "?" q ++ suffix "#" f).
Proof.
  intros Hn Hp Hq Hf. unfold urljoin. rewrite urlparse_base. cbn [bind].
  cbn [p_scheme]. unfold urlparse.
  rewrite (urlsplit_network_path netloc path q f Hn Hp Hq Hf). cbn [bind].
  assert (Hnn : nonempty netloc = true).
  { unfold authority in Hn. now rewrite andb_true_iff in Hn. }
  unfold absolute_path in Hp.
  rewrite andb_true_iff, orb_true_iff, negb_true_iff in Hp.
  destruct Hp as [Hpp Hplain].
  destruct (plain_path_facts path Hplain) as (_ & _ & _ & ->).
  rewrite andb_false_r.
  cbn [bind p_scheme p_netloc p_path p_params p_query p_fragment].
  change (nonempty base_url) with true.
  change (nonempty (lit "//" ++ ?x)) with true.
  change (str_eqb (lit "https") (lit "https")) with true.
  change (str_mem (lit "https") uses_relative) with true.
  change (str_mem (lit "https") uses_netloc) with true.
  rewrite Hnn. cbn [negb andb orb].
  now rewrite urlunparse_parts.
Qed.

Lemma urlsplit_relative_path (p : pystr) (q f : option pystr) :
  relative_path p = true -> valid_query q = true -> valid_fragment f = true ->
  urlsplit lib (p ++ suffix "?" q ++ suffix "#" f) (lit "https")
  = Ok (lit "https", [], p, part_or_empty q, part_or_empty f).
Proof.
  unfold relative_path. rewrite !andb_true_iff, !negb_true_iff.
  intros [[[[[[Hne Hs] Hc0] Hplain] Hcolon] _] _] Hq Hf.
  destruct p as [|c rest]; [discriminate|]. cbn [hd] in Hc0.
  set (p := c :: rest) in *.
  set (u := p ++ suffix "?" q ++ suffix "#" f).
  destruct (plain_path_facts p Hplain) as (Hk & _).
  destruct (valid_query_facts q Hq) as (Hqk & _).
  destruct (valid_fragment_facts f Hf) as (Hfk & _).
  unfold urlsplit.
  assert (Hstrip : lstrip_c0 u = u).
  { unfold u, p. cbn [app lstrip_c0]. now rewrite Hc0. }
  change (remove_unsafe (strip_c0 (lit "https"))) with (lit "https").
  assert (Hsafe : remove_unsafe u = u).
  { apply filter_all. change (forallb kept_char u = true).
    unfold u. now rewrite !forallb_app, Hk, Hqk, Hfk. }
  rewrite Hstrip, Hsafe. unfold u.
  rewrite (split_scheme_relative p (lit "https") q f Hcolon).
  assert (Hnet : split_netloc lib u = Ok ([], u)).
  { unfold split_netloc.
    assert (E : starts_with (lit "//") u = false).
    { unfold u, p in *. unfold starts_with in *. cbn [length lit list_ascii_of_string map firstn app str_eqb] in *.
      rewrite andb_true_r in Hs. now rewrite Hs. }
    now rewrite E. }
  fold u. rewrite Hnet. cbn [bind]. unfold u.
  destruct (split_tail p q f Hplain Hq Hf) as [E1 E2].
  rewrite E1. cbv beta iota. rewrite E2. reflexivity.
Qed.

(** A canonical URL written without the leading slash resolves against
    the root of the site. *)
Lemma urljoin_relative_path (p : pystr) (q f : option pystr) :
  relative_path p = true -> valid_query q = true -> valid_fragment f = true ->
  urljoin lib base_url (p ++ suffix "?" q ++ suffix "#" f)
  = Ok (base_url ++ p ++ suffix "?" q ++ suffix "#" f).
Proof.
  intros H Hq Hf. unfold urljoin. rewrite urlparse_base. cbn [bind].
  cbn [p_scheme p_netloc p_path p_params p_query p_fragment].
  unfold urlparse. rewrite (urlsplit_relative_path p q f H Hq Hf). cbn [bind].
  unfold relative_path in H. rewrite !andb_true_iff, !negb_true_iff in H.
  destruct H as [[[[[[Hne Hs] _] Hplain] _] Hseg] Hinner].
  destruct (plain_path_facts p Hplain) as (_ & _ & _ & Hsemi).
  rewrite Hsemi, andb_false_r.
  cbn [bind p_scheme p_netloc p_path p_params p_query p_fragment].
  assert (Hu : nonempty (p ++ suffix "?" q ++ suffix "#" f) = true).
  { destruct p; [discriminate|reflexivity]. }
  change (nonempty base_url) with true. rewrite Hu, Hne, Hs.
  change (str_eqb (lit "https") (lit "https")) with true.
  change (str_mem (lit "https") uses_relative) with true.
  change (str_mem (lit "https") uses_netloc) with true.
  change (nonempty []) with false.
  cbn [negb orb andb].
  change (split (code "/") (lit "/")) with [@nil Z; @nil Z].
  cbn [last nonempty length Nat.eqb negb app].
  pose proof (split_nonempty (code "/") p) as Hsplit.
  set (segs := split (code "/") p) in *.
  match goal with
  | |- context [drop_inner_empties ?x] =>
      assert (Hdrop : drop_inner_empties x = [] :: segs)
  end.
  { destruct segs as [|s0 segs']; [contradiction|].
    unfold drop_inner_empties.
    change (removelast ([] :: s0 :: segs')) with ([] :: removelast (s0 :: segs')).
    change (last ([] :: s0 :: segs') []) with (last (s0 :: segs') []).
    cbn [filter nonempty length Nat.eqb negb].
    rewrite (filter_all nonempty _ Hinner).
    f_equal. symmetry. apply app_removelast_last. discriminate. }
  rewrite Hdrop.
  assert (Hseg' : forallb (fun s => negb (dot_segment s)) ([] :: segs) = true).
  { cbn [forallb]. now rewrite Hseg. }
  rewrite (resolve_plain _ [] Hseg').
  match goal with
  | |- context [str_mem ?l [lit "."; lit ".."]] =>
      assert (Hlast : str_mem l [lit "."; lit ".."] = false)
  end.
  { apply (last_plain ([] :: segs)); [discriminate|exact Hseg']. }
  rewrite Hlast. cbn [rev app].
  match goal with
  | |- context [join ?sep ?x] =>
      assert (Hjoin : join sep x = lit "/" ++ p)
  end.
  { destruct segs as [|s0 segs'] eqn:E; [contradiction|].
    rewrite join_cons. cbn [app]. f_equal.
    rewrite <- E. exact (join_split (code "/") p). }
  rewrite Hjoin. change (nonempty (lit "/" ++ p)) with true. cbv iota.
  rewrite urlunparse_parts; auto.
Qed.

End ResolutionOutcomes.

Section ResolutionExtras.

Variable lib : PyLib.

Lemma product_url_str (preview : dict) (canonical : pystr) :
  dict_get (lit "canonicalUrl") preview = Some (JStr canonical) ->
  nonempty canonical = true ->
  product_url lib (JObj preview) = urljoin lib base_url canonical.
Proof.
  intros Hget Hne. unfold product_url. cbn [getitem]. rewrite Hget. cbn [bind].
  unfold urljoin_value. cbn [truthy]. unfold nonempty in Hne. now rewrite Hne.
Qed.

Lemma site_relative_absolute (path : pystr) :
  site_relative path = true ->
  absolute_path path = true /\ nonempty path = true.
Proof.
  unfold site_relative, absolute_path. rewrite !andb_true_iff.
  intros [[[Hs _] Hplain] _]. rewrite Hs, Hplain, orb_true_r.
  destruct path; [discriminate|now split].
Qed.

(** X20. Resolution is stable: the product URL of a site-relative
    canonical URL resolves to itself, so a preview that already carries
    the resolved URL gets the same product URL. *)
Theorem product_url_stable
    (preview : dict) (path : pystr) (q f : option pystr) :
  dict_get (lit "canonicalUrl") preview
    = Some (JStr (path ++ suffix "?" q ++ suffix "#" f)) ->
  site_relative path = true -> valid_query q = true -> valid_fragment f = true ->
  exists u,
    product_url lib (JObj preview) = Ok u
    /\ urljoin lib base_url u = Ok u
    /\ product_url lib (JObj [(lit "canonicalUrl", JStr u)]) = Ok u.
Proof.
  intros Hget Hrel Hq Hf.
  destruct (site_relative_absolute path Hrel) as [Habs Hne].
  exists (lit "https://www.walmart.com" ++ path ++ suffix "?" q ++ suffix "#" f).
  assert (Hfix : urljoin lib base_url
                   (lit "https" ++ lit "://" ++ lit "www.walmart.com" ++ path
                    ++ suffix "?" q ++ suffix "#" f)
                 = Ok (lit "https" ++ lit "://" ++ lit "www.walmart.com" ++ path
                       ++ suffix "?" q ++ suffix "#" f)).
  { now apply urljoin_absolute. }
  split; [|split].
  - rewrite (product_url_str preview _ Hget).
    + now apply urljoin_site_relative.
    + destruct path; [discriminate|reflexivity].
  - exact Hfix.
  - rewrite (product_url_str
               [(lit "canonicalUrl",
                 JStr (lit "https://www.walmart.com" ++ path
                       ++ suffix "?" q ++ suffix "#" f))]
               (lit "https://www.walmart.com" ++ path
                ++ suffix "?" q ++ suffix "#" f) eq_refl eq_refl).
    exact Hfix.
Qed.

(** X21. A canonical URL of the form [//host/path] is not resolved
    against the site: it keeps its host and takes the scheme of the
    base, so the product page is requested from that host over https. *)
Theorem product_url_network_path
    (preview : dict) (netloc path : pystr) (q f : option pystr) :
  dict_get (lit "canonicalUrl") preview
    = Some (JStr (lit "//" ++ netloc ++ path ++ suffix "?" q ++ suffix "#" f)) ->
  authority netloc = true -> absolute_path path = true ->
  valid_query q = true -> valid_fragment f = true ->
  product_url lib (JObj preview)
    = Ok (lit "https://" ++ netloc ++ path ++ suffix "?" q ++ suffix "#" f)
  /\ urlsplit lib (lit "https://" ++ netloc ++ path
                   ++ suffix "?" q ++ suffix "#" f) []
     = Ok (lit "https", netloc, path, part_or_empty q, part_or_empty f).
Proof.
  intros Hget Hn Hp Hq Hf. split.
  - rewrite (product_url_str preview _ Hget eq_refl).
    now apply urljoin_network_path.
  - apply (urlsplit_absolute lib (lit "https") netloc path [] q f); trivial.
Qed.

(** X22. A canonical URL written without the leading slash resolves
    against the root of the site: the product URL is the base URL
    followed by it, the same as for the canonical URL with the slash. *)
Theorem product_url_relative_path
    (preview : dict) (path : pystr) (q f : option pystr) :
  dict_get (lit "canonicalUrl") preview
    = Some (JStr (path ++ suffix "?" q ++ suffix "#" f)) ->
  relative_path path = true -> valid_query q = true -> valid_fragment f = true ->
  product_url lib (JObj preview)
    = Ok (lit "https://www.walmart.com/" ++ path ++ suffix "?" q ++ suffix "#" f)
  /\ product_url lib
       (JObj [(lit "canonicalUrl",
               JStr (lit "/" ++ path ++ suffix "?" q ++ suffix "#" f))])
     = product_url lib (JObj preview).
Proof.
  intros Hget Hrel Hq Hf.
  assert (Hfirst : product_url lib (JObj preview)
            = Ok (lit "https://www.walmart.com/" ++ path
                  ++ suffix "?" q ++ suffix "#" f)).
  { rewrite (product_url_str preview _ Hget).
    - now apply urljoin_relative_path.
    - unfold relative_path in Hrel. rewrite !andb_true_iff in Hrel.
      destruct path; [now destruct Hrel as [[[[[[? _] _] _] _] _] _]|reflexivity]. }
  split; [exact Hfirst|]. rewrite Hfirst.
  rewrite (product_url_str
             [(lit "canonicalUrl",
               JStr (lit "/" ++ path ++ suffix "?" q ++ suffix "#" f))]
             (lit "/" ++ path ++ suffix "?" q ++ suffix "#" f) eq_refl eq_refl).
  change (lit "/" ++ path ++ suffix "?" q ++ suffix "#" f)
    with ((code "/" :: path) ++ suffix "?" q ++ suffix "#" f).
  rewrite urljoin_site_relative; trivial.
  unfold relative_path in Hrel. rewrite !andb_true_iff, !negb_true_iff in Hrel.
  destruct Hrel as [[[[[[Hne Hs] _] Hplain] _] Hseg] _].
  destruct path as [|c rest]; [discriminate|].
  unfold site_relative. rewrite !andb_true_iff, negb_true_iff.
  split; [split; [split; [reflexivity|]|]|].
  - unfold starts_with in *.
    cbn [length lit list_ascii_of_string map firstn str_eqb] in *.
    rewrite andb_true_r in Hs. rewrite Hs. reflexivity.
  - change (forallb plain_char (code "/" :: c :: rest))
      with (plain_char (code "/") && forallb plain_char (c :: rest)).
    now rewrite Hplain.
  - pose proof (split_mark (code "/") [] (c :: rest) eq_refl) as E.
    cbn [app] in E. rewrite E.
    change (forallb ?g ([] :: ?l)) with (g [] && forallb g l).
    now rewrite Hseg.
Qed.

End ResolutionExtras.

(** ** The entry point *)

(** X23. Whatever the client serves, [run] first requests page 1 of the
    search for "spider" with the default sort; when that page has no
    blob and the client serves fixed documents, [run] makes no other
    request and returns the empty list. *)
Theorem run_requests (lib : PyLib) (scrapfly : ScrapflyClient)
    (log : list ScrapeConfig) :
  (exists rest,
     fst (run lib scrapfly log) =
       log ++ scrape_config (lit "https://www.walmart.com/search?q=spider&sort=price_low&page=1&affinityOverride=default") :: rest)
  /\ (delivers scrapfly ->
      next_data_text
        (async_scrape scrapfly
           (scrape_config (lit "https://www.walmart.com/search?q=spider&sort=price_low&page=1&affinityOverride=default")))
        = None ->
      run lib scrapfly log =
        (log ++ [scrape_config (lit "https://www.walmart.com/search?q=spider&sort=price_low&page=1&affinityOverride=default")],
         Ok [])).
Proof.
  unfold run.
  change (lit "https://www.walmart.com/search?q=spider&sort=price_low&page=1&affinityOverride=default")
    with (page_url (lit "spider") 1).
  assert (Henc : quote_plus (lit "spider") [] = Ok (lit "spider")) by reflexivity.
  pose proof (scrape_walmart_cases lib scrapfly (lit "spider") log) as H.
  pose proof (discover_cases lib scrapfly (lit "spider") log) as D.
  rewrite Henc in D. cbv beta zeta in D.
  split.
  - assert (Hd : exists others,
              fst (discover_walmart lib (lit "spider") scrapfly log)
                = log ++ scrape_config (page_url (lit "spider") 1) :: others).
    { destruct (parse_search lib _) as [[previews total]|e];
        [|rewrite D; now exists []].
      destruct (q <- py_truediv total 40;; math_ceil q) as [c|e];
        [|rewrite D; now exists []].
      rewrite D. cbn [map fst]. now eexists. }
    destruct Hd as [others Hd].
    destruct (discover_walmart lib (lit "spider") scrapfly log)
      as [log' [found|e]]; cbn [fst] in Hd; subst log'.
    + destruct (previews <- py_iter found;; map_py (product_url lib) previews)
        as [urls|e]; rewrite H; cbn [fst].
      * rewrite <- app_assoc. cbn [app]. now eexists.
      * now eexists.
    + rewrite H. now eexists.
  - intros Hdel Hnone.
    rewrite (parse_search_absent lib _ Hnone) in D. cbv beta iota in D.
    change (q <- py_truediv (JInt 0) 40;; math_ceil q) with (@Ok Z 0) in D.
    cbv beta iota in D.
    change (py_range 2 ((if 25 <? 0 then 25 else 0) + 1)) with (@nil Z) in D.
    cbn [map] in D. rewrite (permutation_of_nil _ (Hdel [])) in D.
    cbn [for_each] in D. rewrite D in H. cbn [py_iter keys map bind map_py] in H.
    rewrite (permutation_of_nil _ (Hdel [])) in H. cbn [for_each] in H.
    now rewrite H, app_nil_r.
Qed.

(** ** The order of delivery *)

Section DeliveryOrder.

Variable lib : PyLib.

Lemma extend_loop_all (batch : list ScrapeApiResponse) (l : list json) (found : json) :
  for_each (extend_previews lib) batch (JArr l) = Ok found ->
  Forall (fun r => exists p, parse_search lib r = Ok p) batch.
Proof.
  revert l. induction batch as [|r batch IH]; intros l; cbn [for_each];
    [constructor|].
  rewrite extend_previews_list.
  destruct (parse_search lib r) as [p|] eqn:E; [cbn [bind]|discriminate].
  intros H. constructor; [now exists p|]. exact (IH _ H).
Qed.

Lemma batches_permuted (s1 s2 : ScrapflyClient) (cs1 cs2 : list ScrapeConfig) :
  same_documents s1 s2 -> delivers s1 -> delivers s2 ->
  Permutation cs1 cs2 ->
  Permutation (concurrent_scrape s1 cs1) (concurrent_scrape s2 cs2).
Proof.
  intros Hsame H1 H2 Hp.
  transitivity (map (async_scrape s1) cs1); [apply H1|].
  transitivity (map (async_scrape s2) cs2); [|symmetry; apply H2].
  rewrite (map_ext _ _ Hsame). now apply Permutation_map.
Qed.

(** Discovery over two clients that serve the same documents. *)
Lemma discover_permuted (s1 s2 : ScrapflyClient) (search : pystr)
    (log log' : list ScrapeConfig) (found1 : json) :
  same_documents s1 s2 -> delivers s1 -> delivers s2 ->
  discover_walmart lib search s1 log = (log', Ok found1) ->
  exists found2 l1 l2,
    discover_walmart lib search s2 log = (log', Ok found2)
    /\ py_iter found1 = Ok l1 /\ py_iter found2 = Ok l2
    /\ Permutation l1 l2.
Proof.
  intros Hsame H1 H2.
  pose proof (discover_cases lib s1 search log) as D1.
  pose proof (discover_cases lib s2 search log) as D2.
  cbv beta zeta in D1, D2.
  destruct (quote_plus search []) as [enc|e]; [|rewrite D1; discriminate].
  rewrite <- (Hsame (scrape_config (page_url enc 1))) in D2.
  destruct (parse_search lib _) as [[previews total]|e] eqn:Hfirst;
    [|rewrite D1; discriminate].
  destruct (q <- py_truediv total 40;; math_ceil q) as [c|e] eqn:Hc;
    [|rewrite D1; discriminate].
  rewrite D1, D2. clear D1 D2.
  set (requests := map _ (py_range 2 _)).
  assert (Hbatch : Permutation (concurrent_scrape s1 requests)
                               (concurrent_scrape s2 requests)).
  { now apply batches_permuted. }
  intros [= <- Hloop].
  destruct (parse_search_ok lib _ _ _ Hfirst)
    as [(_ & -> & ->)
       |(text & data & results & elements & _ & _ & _ & _ & _ & _ & ->)].
  - injection Hc as <-.
    assert (E : requests = []) by reflexivity.
    rewrite E in *.
    rewrite (permutation_of_nil _ (H1 [])) in Hloop.
    rewrite (permutation_of_nil _ (H2 [])).
    cbn [for_each] in *. injection Hloop as <-.
    exists (JObj []), [], []. repeat split. constructor.
  - pose proof (extend_loop_all _ _ _ Hloop) as Hall.
    apply extend_loop_ok in Hloop. subst found1.
    assert (Hall2 : Forall (fun r => exists p, parse_search lib r = Ok p)
                           (concurrent_scrape s2 requests)).
    { eapply Permutation_Forall; [exact Hbatch|exact Hall]. }
    rewrite (extend_loop lib _ _ Hall2).
    eexists _, _, _. split; [reflexivity|]. split; [reflexivity|].
    split; [reflexivity|].
    apply Permutation_app_head. now apply Permutation_flat_map.
Qed.

(** X24. The order in which the client delivers a batch decides the
    order of the outcome and nothing else: over two clients that serve
    the same documents, a discovery that returns on one returns on the
    other after the same requests with the same previews up to order,
    and a run of [scrape_walmart] that returns on one returns on the
    other with the same records and the same requests up to order. *)
Theorem delivery_order_independent
    (s1 s2 : ScrapflyClient) (search : pystr) (log : list ScrapeConfig) :
  same_documents s1 s2 -> delivers s1 -> delivers s2 ->
  (forall log' found1,
     discover_walmart lib search s1 log = (log', Ok found1) ->
     exists found2 l1 l2,
       discover_walmart lib search s2 log = (log', Ok found2)
       /\ py_iter found1 = Ok l1 /\ py_iter found2 = Ok l2
       /\ Permutation l1 l2)
  /\ (forall log1 records1,
        scrape_walmart lib search s1 log = (log1, Ok records1) ->
        exists log2 records2,
          scrape_walmart lib search s2 log = (log2, Ok records2)
          /\ Permutation records1 records2
          /\ Permutation log1 log2).
Proof.
  intros Hsame H1 H2. split.
  - intros log' found1. now apply discover_permuted.
  - intros log1 records1.
    pose proof (scrape_walmart_cases lib s1 search log) as C1.
    pose proof (scrape_walmart_cases lib s2 search log) as C2.
    destruct (discover_walmart lib search s1 log) as [log' [found1|e]] eqn:Hd;
      [|rewrite C1; discriminate].
    destruct (discover_permuted s1 s2 search log log' found1 Hsame H1 H2 Hd)
      as (found2 & l1 & l2 & Hd2 & I1 & I2 & Hp).
    rewrite Hd2 in C2. rewrite I1 in C1. rewrite I2 in C2. cbn [bind] in C1, C2.
    destruct (map_py (product_url lib) l1) as [urls1|e] eqn:U1;
      [|rewrite C1; discriminate].
    destruct (map_py_perm (product_url lib) l1 l2 Hp urls1 U1) as (urls2 & U2 & Hu).
    rewrite U2 in C2. rewrite C1, C2. clear C1 C2.
    intros [= <- Hloop].
    assert (Hbatch : Permutation (concurrent_scrape s1 (map scrape_config urls1))
                                 (concurrent_scrape s2 (map scrape_config urls2))).
    { apply batches_permuted; trivial. now apply Permutation_map. }
    apply collect_loop_ok in Hloop. destruct Hloop as [Hall ->].
    assert (Hall2 : Forall (fun r => exists v, parse_product lib r = Ok v)
                           (concurrent_scrape s2 (map scrape_config urls2))).
    { eapply Permutation_Forall; [exact Hbatch|exact Hall]. }
    rewrite (collect_loop lib _ [] Hall2).
    eexists _, _. split; [reflexivity|]. split.
    + cbn [app]. unfold records_of. now apply Permutation_flat_map.
    + apply Permutation_app_head. now apply Permutation_map.
Qed.

End DeliveryOrder.

(** ** The further properties on sample inputs *)

Lemma encodable_check (s : pystr) :
  forallb (fun c => (0 <=? c) && (c <? 0x110000) && negb (is_surrogate c)) s = true ->
  encodable s.
Proof.
  rewrite forallb_forall. intros H. apply Forall_forall. intros c Hc.
  specialize (H c Hc). rewrite !andb_true_iff, negb_true_iff in H.
  destruct H as [[H1 H2] H3]. apply Z.leb_le in H1. apply Z.ltb_lt in H2.
  now split.
Qed.

Lemma below_limit (n : Z) : Z.abs n < 100 -> Z.abs n < 10 ^ int_max_str_digits.
Proof.
  intros H. apply (int_digits_spec n int_max_str_digits eq_refl).
  now apply page_digits.
Qed.

Lemma cases_delivers : delivers Cases.session.
Proof.
  intros cs. cbn [concurrent_scrape async_scrape Cases.session].
  symmetry. apply Permutation_rev.
Qed.

Lemma ordered_delivers : delivers Cases.ordered_session.
Proof. intros cs. reflexivity. Qed.

Lemma create_search_url_reads_back_witness :
  exists u,
    create_search_url [0x63; 0x61; 0x66; 0xE9; 0x20; 0x26; 0x3D] (Some (-3))
      (Some (lit "best match")) = Ok u
    /\ starts_with (lit "https://www.walmart.com/search?") u = true
    /\ forallb url_char u = true
    /\ parse_qsl (url_query u) =
         Some [ (lit "q", [0x63; 0x61; 0x66; 0xE9; 0x20; 0x26; 0x3D]);
                (lit "sort", lit "best match");
                (lit "page", lit "-3");
                (lit "affinityOverride", lit "default") ].
Proof.
  apply (create_search_url_reads_back
           [0x63; 0x61; 0x66; 0xE9; 0x20; 0x26; 0x3D] (lit "best match") (-3));
    [apply encodable_check; reflexivity
    |apply encodable_check; reflexivity
    |apply below_limit; reflexivity].
Defined.

Lemma create_search_url_injective_witness :
  Cases.cafe = [0x63; 0x61; 0x66; 0xE9; 0x20; 0x1F600]
  /\ lit "best match" = lit "best match"
  /\ 12 = 12.
Proof.
  apply (create_search_url_injective
           Cases.cafe [0x63; 0x61; 0x66; 0xE9; 0x20; 0x1F600]
           (lit "best match") (lit "best match")
           (lit "https://www.walmart.com/search?q=caf%C3%A9+%F0%9F%98%80&sort=best+match&page=12&affinityOverride=default")
           12 12);
    try (apply encodable_check; reflexivity);
    vm_compute; reflexivity.
Defined.

Lemma create_search_url_length_witness :
  exists enc,
    quote_plus Cases.cafe [] = Ok enc
    /\ lit "https://www.walmart.com/search?q=caf%C3%A9+%F0%9F%98%80&sort=price_low&page=1&affinityOverride=default"
       = lit "https://www.walmart.com/search?q=" ++ enc
           ++ lit "&sort=price_low&page=1&affinityOverride=default"
    /\ length (lit "https://www.walmart.com/search?q=caf%C3%A9+%F0%9F%98%80&sort=price_low&page=1&affinityOverride=default")
       = (80 + length enc)%nat
    /\ (length Cases.cafe <= length enc
        <= 12 * length Cases.cafe)%nat
    /\ (forallb always_safe Cases.cafe = true ->
        enc = Cases.cafe).
Proof.
  apply (create_search_url_length Cases.cafe).
  reflexivity.
Defined.

Lemma parse_search_success_witness :
  (next_data_text Sample.search_page = None
   /\ JArr [Sample.product_a; Sample.product_b] = JObj [] /\ JInt 1050 = JInt 0)
  \/ (exists text data elements,
        next_data_text Sample.search_page = Some text
        /\ json_loads Sample.lib text = Ok data
        /\ getpath data count_path = Ok (JInt 1050)
        /\ (exists results, getpath data items_path = Ok results
                            /\ py_iter results = Ok elements)
        /\ Forall (fun v => discriminator v <> None) elements
        /\ JArr [Sample.product_a; Sample.product_b]
           = JArr (filter typed_product elements)
        /\ Forall (fun v => exists d,
                     v = JObj d
                     /\ dict_get (lit "__typename") d = Some (JStr (lit "Product")))
                  (filter typed_product elements)
        /\ (length (filter typed_product elements) <= length elements)%nat).
Proof.
  apply (parse_search_success Sample.lib Sample.search_page
           (JArr [Sample.product_a; Sample.product_b]) (JInt 1050)).
  reflexivity.
Defined.

Lemma parse_search_errors_witness :
  exists text,
    next_data_text Sample.broken_page = Some text
    /\ (json_loads Sample.lib text = Raise KeyError
        \/ (exists data, json_loads Sample.lib text = Ok data)
           /\ lookup_error KeyError).
Proof.
  apply (parse_search_errors Sample.lib Sample.broken_page KeyError).
  reflexivity.
Defined.

Lemma parse_product_errors_witness :
  exists text,
    next_data_text (Cases.serve (scrape_config (lit "https://www.walmart.com/ip/odd")))
      = Some text
    /\ (json_loads Cases.lib text = Raise AttributeError
        \/ exists data,
             json_loads Cases.lib text = Ok data
             /\ (AttributeError = KeyError \/ AttributeError = TypeError
                 \/ AttributeError = AttributeError)
             /\ (AttributeError = AttributeError <->
                 exists raw, getpath data product_path = Ok raw
                             /\ forall d, raw <> JObj d)).
Proof.
  apply (parse_product_errors Cases.lib
           (Cases.serve (scrape_config (lit "https://www.walmart.com/ip/odd")))
           AttributeError).
  reflexivity.
Defined.

Lemma parse_product_mapping_witness :
  exists raw product reviews,
    (exists text data,
       next_data_text Sample.anvil_page = Some text
       /\ json_loads Sample.lib text = Ok data
       /\ getpath data product_path = Ok (JObj raw)
       /\ getpath data reviews_path = Ok reviews)
    /\ JObj [ (lit "product", JObj (filter wanted Sample.raw_product));
              (lit "reviews", Sample.reviews) ]
       = JObj [ (lit "product", JObj product); (lit "reviews", reviews) ]
    /\ dict_wf product
    /\ (length product <= 12)%nat
    /\ (forall k, ~ In k wanted_product_keys -> dict_get k product = None)
    /\ (dict_wf raw -> forall k, In k wanted_product_keys ->
                       dict_get k product = dict_get k raw)
    /\ (dict_wf raw -> incl (keys raw) wanted_product_keys -> product = raw)
    /\ keep_wanted product = product.
Proof.
  apply (parse_product_mapping Sample.lib Sample.anvil_page
           (JObj [ (lit "product", JObj (filter wanted Sample.raw_product));
                   (lit "reviews", Sample.reviews) ]));
    reflexivity.
Defined.

Lemma discover_collects_previews_witness :
  snd (discover_walmart Cases.lib (lit "gears") Cases.session []) =
    Ok (JArr ([Sample.product_a; Sample.product_b] ++
              flat_map (previews_of Cases.lib)
                (concurrent_scrape Cases.session
                   (map (fun i => scrape_config (page_url (lit "gears") i))
                        (py_range 2 (max_page_of 80 + 1))))))
  /\ (forall r, next_data_text r = None -> previews_of Cases.lib r = [])
  /\ (forall r l t, parse_search Cases.lib r = Ok (JArr l, t) ->
                    previews_of Cases.lib r = l).
Proof.
  apply (discover_collects_previews Cases.lib Cases.session
           (lit "gears") (lit "gears") []
           [Sample.product_a; Sample.product_b] 80
           (S754_finite false 4503599627370496 (-51)));
    try reflexivity.
  apply Forall_cons; [|apply Forall_nil].
  exists (JArr [Cases.product_c], JInt 7). reflexivity.
Defined.

Lemma discover_only_products_witness :
  (exists l, JArr [Sample.product_a; Sample.product_b; Cases.product_c] = JArr l
             /\ Forall (fun v => typed_product v = true) l)
  \/ (JArr [Sample.product_a; Sample.product_b; Cases.product_c] = JObj []
      /\ exists enc, quote_plus (lit "gears") [] = Ok enc
           /\ next_data_text
                (async_scrape Cases.session (scrape_config (page_url enc 1)))
              = None).
Proof.
  apply (discover_only_products Cases.lib Cases.session (lit "gears") []
           (JArr [Sample.product_a; Sample.product_b; Cases.product_c])).
  reflexivity.
Defined.

Lemma discover_bad_count_witness :
  discover_walmart Cases.lib (lit "bare") Cases.session []
    = ([] ++ [scrape_config (page_url (lit "bare") 1)], Raise TypeError).
Proof.
  apply (discover_bad_count Cases.lib Cases.session (lit "bare") (lit "bare") []
           (JArr [Sample.product_a]) JNull TypeError); reflexivity.
Defined.

Lemma page_bound_total_witness :
  exists c,
    (q <- py_truediv (JInt 1050) 40;; math_ceil q) = Ok c
    /\ (0 <= 1050 <= 2000 -> c = ceil_div 1050 40)
    /\ (2000 < 1050 -> 26 <= c)
    /\ (1050 < 0 -> c <= 0)
    /\ (0 <= 1050 -> (if 25 <? c then 25 else c) = Z.min (ceil_div 1050 40) 25)
    /\ py_range 2 ((if 25 <? c then 25 else c) + 1)
       = py_range 2 (max_page_of 1050 + 1).
Proof.
  apply (page_bound_total 1050). reflexivity.
Defined.

Lemma scrape_walmart_records_witness :
  Forall product_record
    [ JObj [ (lit "product", JObj (filter wanted Sample.raw_product));
             (lit "reviews", Sample.reviews) ] ].
Proof.
  apply (scrape_walmart_records Sample.lib Sample.session (lit "widgets") []).
  reflexivity.
Defined.

Lemma scrape_walmart_bad_canonical_witness :
  (dict_get (lit "canonicalUrl") [ (lit "__typename", JStr (lit "Product")) ] = None ->
   scrape_walmart Cases.lib (lit "loose") Cases.session []
     = ([scrape_config (page_url (lit "loose") 1)], Raise KeyError))
  /\ (forall v,
        dict_get (lit "canonicalUrl") [ (lit "__typename", JStr (lit "Product")) ]
          = Some v ->
        truthy v = true -> (forall s, v <> JStr s) ->
        scrape_walmart Cases.lib (lit "loose") Cases.session []
          = ([scrape_config (page_url (lit "loose") 1)], Raise TypeError)).
Proof.
  apply (scrape_walmart_bad_canonical Cases.lib Cases.session (lit "loose") []
           [scrape_config (page_url (lit "loose") 1)]
           (JArr [Sample.product_a; Cases.no_url; Sample.product_b])
           [Sample.product_a] [Sample.product_b]
           [ (lit "__typename", JStr (lit "Product")) ]);
    try reflexivity.
  apply Forall_cons; [|apply Forall_nil].
  exists (lit "https://www.walmart.com/ip/anvil/1"). reflexivity.
Defined.

Lemma scrape_walmart_falsy_canonical_witness :
  product_url Cases.lib Cases.null_url = Ok (lit "https://www.walmart.com/")
  /\ fst (scrape_walmart Cases.lib (lit "root") Cases.session [])
     = [scrape_config (page_url (lit "root") 1)]
       ++ map scrape_config ([] ++ lit "https://www.walmart.com/" :: []).
Proof.
  apply (scrape_walmart_falsy_canonical Cases.lib Cases.session (lit "root") []
           [scrape_config (page_url (lit "root") 1)]
           (JArr [Cases.null_url]) [] []
           [ (lit "__typename", JStr (lit "Product")); (lit "canonicalUrl", JNull) ]
           JNull [] []);
    reflexivity.
Defined.

Lemma scrape_walmart_without_blob_witness :
  scrape_walmart Sample.lib (lit "nothing") Sample.session []
    = ([] ++ [scrape_config (page_url (lit "nothing") 1)], Ok [])
  /\ snd (discover_walmart Sample.lib (lit "nothing") Sample.session [])
     = Ok (JObj [])
  /\ (previews <- py_iter (JObj []);; map_py (product_url Sample.lib) previews)
     = Ok [].
Proof.
  apply (scrape_walmart_without_blob Sample.lib Sample.session
           (lit "nothing") (lit "nothing") []).
  - exact sample_delivers.
  - reflexivity.
  - reflexivity.
Defined.

Lemma product_url_stable_witness :
  exists u,
    product_url Sample.lib
      (Sample.entry "Product" "/ip/bolt/2?athbdg=L1600#reviews") = Ok u
    /\ urljoin Sample.lib base_url u = Ok u
    /\ product_url Sample.lib (JObj [(lit "canonicalUrl", JStr u)]) = Ok u.
Proof.
  apply (product_url_stable Sample.lib
           [ (lit "__typename", JStr (lit "Product"));
             (lit "canonicalUrl", JStr (lit "/ip/bolt/2?athbdg=L1600#reviews")) ]
           (lit "/ip/bolt/2") (Some (lit "athbdg=L1600")) (Some (lit "reviews")));
    reflexivity.
Defined.

Lemma product_url_network_path_witness :
  product_url Sample.lib (Sample.entry "Product" "//cdn.example:8080/x?y#z")
    = Ok (lit "https://" ++ lit "cdn.example:8080" ++ lit "/x"
          ++ suffix "?" (Some (lit "y")) ++ suffix "#" (Some (lit "z")))
  /\ urlsplit Sample.lib
       (lit "https://" ++ lit "cdn.example:8080" ++ lit "/x"
        ++ suffix "?" (Some (lit "y")) ++ suffix "#" (Some (lit "z"))) []
     = Ok (lit "https", lit "cdn.example:8080", lit "/x",
           part_or_empty (Some (lit "y")), part_or_empty (Some (lit "z"))).
Proof.
  apply (product_url_network_path Sample.lib
           [ (lit "__typename", JStr (lit "Product"));
             (lit "canonicalUrl", JStr (lit "//cdn.example:8080/x?y#z")) ]
           (lit "cdn.example:8080") (lit "/x") (Some (lit "y")) (Some (lit "z")));
    reflexivity.
Defined.

Lemma product_url_relative_path_witness :
  product_url Sample.lib (Sample.entry "Product" "ip/anvil/?x=a:b")
    = Ok (lit "https://www.walmart.com/" ++ lit "ip/anvil/"
          ++ suffix "?" (Some (lit "x=a:b")) ++ suffix "#" None)
  /\ product_url Sample.lib
       (JObj [(lit "canonicalUrl",
               JStr (lit "/" ++ lit "ip/anvil/"
                     ++ suffix "?" (Some (lit "x=a:b")) ++ suffix "#" None))])
     = product_url Sample.lib (Sample.entry "Product" "ip/anvil/?x=a:b").
Proof.
  apply (product_url_relative_path Sample.lib
           [ (lit "__typename", JStr (lit "Product"));
             (lit "canonicalUrl", JStr (lit "ip/anvil/?x=a:b")) ]
           (lit "ip/anvil/") (Some (lit "x=a:b")) None);
    reflexivity.
Defined.

Lemma delivery_order_independent_witness :
  (forall log' found1,
     discover_walmart Cases.lib (lit "gears") Cases.session [] = (log', Ok found1) ->
     exists found2 l1 l2,
       discover_walmart Cases.lib (lit "gears") Cases.ordered_session []
         = (log', Ok found2)
       /\ py_iter found1 = Ok l1 /\ py_iter found2 = Ok l2
       /\ Permutation l1 l2)
  /\ (forall log1 records1,
        scrape_walmart Cases.lib (lit "gears") Cases.session []
          = (log1, Ok records1) ->
        exists log2 records2,
          scrape_walmart Cases.lib (lit "gears") Cases.ordered_session []
            = (log2, Ok records2)
          /\ Permutation records1 records2
          /\ Permutation log1 log2).
Proof.
  apply (delivery_order_independent Cases.lib Cases.session Cases.ordered_session
           (lit "gears") []).
  - intros c. reflexivity.
  - exact cases_delivers.
  - exact ordered_delivers.
Defined.
